(** * self-tunnel: the tunnel client of [src/selfTunnel.js] as an event-driven
    state machine.

    The client is single-threaded JavaScript: every piece of code runs as the
    handler of one event (a WebSocket event, a local-socket event, a timer, a
    call of the public API).  The embedding keeps the closure state of
    [selfTunnel] in a record [World], gives one Rocq function per handler, and
    lets the environment choose the order of the events.  What the client does
    to the outside (frames sent, bytes written to the local server, timers
    armed, unconditional console output) is appended to the [out] trace.

    The CommonJS and the ES-module copies of the client are the same code; the
    line numbers below are those of the first copy.

    Left out of the model: the console output under [tunnel.debug]; the
    ready state of the relay socket (on a socket that is still connecting
    [send] and [ping] throw) and the errors reported to the [send] callback;
    the text of the outbound JSON frames, which are kept as the objects given
    to [JSON.stringify]; the header-copying middleware installed on [app].
    [JSON.parse] and [Buffer.from] belong to the platform and are parameters
    of the handlers. *)

From Stdlib Require Import String Ascii.
From Stdlib.Strings Require Import Byte.
From Stdlib Require Import List ZArith Bool Arith Lia.
Import ListNotations.

Set Implicit Arguments.

(** ** Buffers *)

Definition bytes := list byte.

(** [Buffer.concat] of a list of buffers. *)
Definition Buffer_concat (l : list bytes) : bytes := concat l.

Fixpoint starts_with (needle hay : bytes) : bool :=
  match needle, hay with
  | [], _ => true
  | _ :: _, [] => false
  | a :: needle', b :: hay' => Byte.eqb a b && starts_with needle' hay'
  end.

Fixpoint index_from (i : Z) (hay needle : bytes) : Z :=
  if starts_with needle hay then i
  else match hay with
       | [] => (-1)%Z
       | _ :: hay' => index_from (i + 1) hay' needle
       end.

(** [buf.indexOf(value)] for a non-empty buffer and a buffer or [null] value:
    the offset of the first occurrence, [-1] when there is none; Node throws a
    [TypeError] when [value] is [null] ([None] here). *)
Definition Buffer_indexOf (buf : bytes) (value : option bytes) : option Z :=
  match value with
  | None => None
  | Some needle => Some (index_from 0 buf needle)
  end.

(** ** JavaScript values met in control frames *)

Unset Elimination Schemes.
Inductive JsVal :=
| JUndef
| JNull
| JBool (b : bool)
| JNum (n : Z)
| JStr (s : string)
| JArr (l : list JsVal)
| JObj (o : list (string * JsVal)).
Set Elimination Schemes.

Definition JsObj := list (string * JsVal).

(** Property read [o.key]; a missing property is [undefined]. *)
Fixpoint get (key : string) (o : JsObj) : JsVal :=
  match o with
  | [] => JUndef
  | (k, v) :: o' => if String.eqb k key then v else get key o'
  end.

(** [v === 'lit'] for a string literal. *)
Definition is_str (v : JsVal) (lit : string) : bool :=
  match v with
  | JStr s => String.eqb s lit
  | _ => false
  end.

(** ** Configuration, identifiers, effects *)

Record Config := {
  auth_domain : JsVal;          (* options.domain || process.env.TUNNEL_DOMAIN *)
  auth_secret : JsVal;
  auth_device : JsVal;
  isPublic : bool;
  localPort : Z;
  pingInterval : Z;
  app : bool                    (* an app instance was given to selfTunnel *)
}.

Definition WsId := nat.
Definition SockId := nat.
Definition TaskId := nat.

Inductive Exn :=
| TypeError_indexOf_null      (* req.indexOf(null) *)
| TypeError_concat_null       (* Buffer.concat([..., null]) *)
| TypeError_ws_null           (* tunnel.ws.send with tunnel.ws === null *)
| TypeError_socket_null.      (* localSocket.setKeepAlive with localSocket === null *)

Inductive LogMsg :=
| LConnectionEstablished
| LAccessible (primary : JsVal)
| LTunnelError (message : JsVal)
| LEcho (rest : string)
| LErrorProcessingMessage
| LSuspendReceived
| LTunnelClosed
| LReconnecting
| LTunnelConnectionError
| LConnectionLost
| LLocalSocketError
| LErrorProcessingRequest.

Inductive Effect :=
| EWsNew (w : WsId)                          (* new WebSocket(tunnel.url) *)
| EWsSendText (w : WsId) (o : JsObj)         (* ws.send(JSON.stringify(o)) *)
| EWsSendBinary (w : WsId) (data : bytes)    (* ws.send(data, {binary: true}) *)
| EWsPing (w : WsId)
| EWsClose (w : WsId)                        (* ws.close() *)
| ENetConnect (s : SockId)                   (* net.connect to 127.0.0.1:localPort *)
| ELocalWrite (s : SockId) (data : bytes)    (* socket.write(data) *)
| ELocalDestroy (s : SockId)
| ESetReconnect (delay : Z)                  (* setTimeout(connectToTunnel, delay) *)
| ELog (m : LogMsg)
| EUncaught (e : Exn).                       (* an exception left a handler *)

(** ** The suspended instances of [processRequestQueue]

    [processRequestQueue] is an [async] function; between two events an
    instance of it is parked at one of its [await]s. *)

Inductive Task :=
| TAwaitConnect (reqBuffer : bytes) (s : SockId)
    (* in [ensureLocalConnection], waiting for the connect callback or the
       error listener of the socket it has just created *)
| TAwaitPoll (reqBuffer : bytes)
    (* in [ensureLocalConnection], polling [checkConnection] every 10 ms *)
| TAwaitResponse (s : SockId) (responseChunks : list bytes)
                 (responseComplete : bool) (chunksLast : nat) (listening : bool)
    (* request written; [checkComplete] polls every 10 ms; [listening] tells
       whether onData/onEnd/onError are still attached to the socket *)
| THung
    (* awaiting a promise that nothing will settle any more *)
| TDone.

(** ** The state *)

(** The mutable fields of the [tunnel] object. *)
Record Tunnel := {
  suspendCommand : option bytes;
  eofMarker : option bytes;
  pingIntervalId : option WsId;   (* the interval pings the socket it was made for *)
  isPrimary : JsVal;
  ws : option WsId;
  alive : bool;
  autoConnectInterval : Z
}.

(** The variables of the closure ("Local connection management"). *)
Record Closure := {
  localSocket : option SockId;
  requestQueue : list bytes;
  connecting : bool;
  processing : bool
}.

(** What the runtime holds: socket objects, parked tasks, pending reconnect
    timers, and the trace of effects. *)
Record Runtime := {
  destroyed : list SockId;        (* sockets with [destroyed === true] *)
  stripped : list SockId;         (* sockets after [removeAllListeners()] *)
  nextSock : SockId;
  nextWs : WsId;
  tasks : list Task;
  reconnectTimers : nat;          (* pending setTimeout(connectToTunnel, _) *)
  out : list Effect
}.

Record World := {
  tunnel : Tunnel;
  vars : Closure;
  rt : Runtime
}.

Inductive Completion :=
| Done (w : World)
| Thrown (e : Exn) (w : World).

(** *** Field updates *)

Definition set_suspendCommand v (t : Tunnel) : Tunnel :=
  {| suspendCommand := v; eofMarker := eofMarker t; pingIntervalId := pingIntervalId t;
     isPrimary := isPrimary t; ws := ws t; alive := alive t;
     autoConnectInterval := autoConnectInterval t |}.
Definition set_eofMarker v (t : Tunnel) : Tunnel :=
  {| suspendCommand := suspendCommand t; eofMarker := v; pingIntervalId := pingIntervalId t;
     isPrimary := isPrimary t; ws := ws t; alive := alive t;
     autoConnectInterval := autoConnectInterval t |}.
Definition set_pingIntervalId v (t : Tunnel) : Tunnel :=
  {| suspendCommand := suspendCommand t; eofMarker := eofMarker t; pingIntervalId := v;
     isPrimary := isPrimary t; ws := ws t; alive := alive t;
     autoConnectInterval := autoConnectInterval t |}.
Definition set_isPrimary v (t : Tunnel) : Tunnel :=
  {| suspendCommand := suspendCommand t; eofMarker := eofMarker t;
     pingIntervalId := pingIntervalId t; isPrimary := v; ws := ws t; alive := alive t;
     autoConnectInterval := autoConnectInterval t |}.
Definition set_ws v (t : Tunnel) : Tunnel :=
  {| suspendCommand := suspendCommand t; eofMarker := eofMarker t;
     pingIntervalId := pingIntervalId t; isPrimary := isPrimary t; ws := v; alive := alive t;
     autoConnectInterval := autoConnectInterval t |}.
Definition set_alive v (t : Tunnel) : Tunnel :=
  {| suspendCommand := suspendCommand t; eofMarker := eofMarker t;
     pingIntervalId := pingIntervalId t; isPrimary := isPrimary t; ws := ws t; alive := v;
     autoConnectInterval := autoConnectInterval t |}.
Definition set_autoConnectInterval v (t : Tunnel) : Tunnel :=
  {| suspendCommand := suspendCommand t; eofMarker := eofMarker t;
     pingIntervalId := pingIntervalId t; isPrimary := isPrimary t; ws := ws t;
     alive := alive t; autoConnectInterval := v |}.

Definition set_localSocket v (c : Closure) : Closure :=
  {| localSocket := v; requestQueue := requestQueue c; connecting := connecting c;
     processing := processing c |}.
Definition set_requestQueue v (c : Closure) : Closure :=
  {| localSocket := localSocket c; requestQueue := v; connecting := connecting c;
     processing := processing c |}.
Definition set_connecting v (c : Closure) : Closure :=
  {| localSocket := localSocket c; requestQueue := requestQueue c; connecting := v;
     processing := processing c |}.
Definition set_processing v (c : Closure) : Closure :=
  {| localSocket := localSocket c; requestQueue := requestQueue c;
     connecting := connecting c; processing := v |}.

Definition set_destroyed v (r : Runtime) : Runtime :=
  {| destroyed := v; stripped := stripped r; nextSock := nextSock r; nextWs := nextWs r;
     tasks := tasks r; reconnectTimers := reconnectTimers r; out := out r |}.
Definition set_stripped v (r : Runtime) : Runtime :=
  {| destroyed := destroyed r; stripped := v; nextSock := nextSock r; nextWs := nextWs r;
     tasks := tasks r; reconnectTimers := reconnectTimers r; out := out r |}.
Definition set_nextSock v (r : Runtime) : Runtime :=
  {| destroyed := destroyed r; stripped := stripped r; nextSock := v; nextWs := nextWs r;
     tasks := tasks r; reconnectTimers := reconnectTimers r; out := out r |}.
Definition set_nextWs v (r : Runtime) : Runtime :=
  {| destroyed := destroyed r; stripped := stripped r; nextSock := nextSock r; nextWs := v;
     tasks := tasks r; reconnectTimers := reconnectTimers r; out := out r |}.
Definition set_tasks v (r : Runtime) : Runtime :=
  {| destroyed := destroyed r; stripped := stripped r; nextSock := nextSock r;
     nextWs := nextWs r; tasks := v; reconnectTimers := reconnectTimers r; out := out r |}.
Definition set_reconnectTimers v (r : Runtime) : Runtime :=
  {| destroyed := destroyed r; stripped := stripped r; nextSock := nextSock r;
     nextWs := nextWs r; tasks := tasks r; reconnectTimers := v; out := out r |}.
Definition set_out v (r : Runtime) : Runtime :=
  {| destroyed := destroyed r; stripped := stripped r; nextSock := nextSock r;
     nextWs := nextWs r; tasks := tasks r; reconnectTimers := reconnectTimers r; out := v |}.

Definition on_tunnel (f : Tunnel -> Tunnel) (w : World) : World :=
  {| tunnel := f (tunnel w); vars := vars w; rt := rt w |}.
Definition on_vars (f : Closure -> Closure) (w : World) : World :=
  {| tunnel := tunnel w; vars := f (vars w); rt := rt w |}.
Definition on_rt (f : Runtime -> Runtime) (w : World) : World :=
  {| tunnel := tunnel w; vars := vars w; rt := f (rt w) |}.

Definition emit (e : Effect) (w : World) : World :=
  on_rt (fun r => set_out (out r ++ [e]) r) w.

Definition log (m : LogMsg) : World -> World := emit (ELog m).

Definition mem (s : nat) (l : list nat) : bool := existsb (Nat.eqb s) l.

Fixpoint replace_nth {A} (n : nat) (x : A) (l : list A) : list A :=
  match l, n with
  | [], _ => []
  | _ :: l', O => x :: l'
  | y :: l', S n' => y :: replace_nth n' x l'
  end.

Definition task_at (tid : TaskId) (w : World) : Task :=
  nth tid (tasks (rt w)) TDone.

Definition set_task (tid : TaskId) (t : Task) (w : World) : World :=
  on_rt (fun r => set_tasks (replace_nth tid t (tasks r)) r) w.

(** ** The handlers *)

Section Client.

(** The immutable options of this tunnel instance. *)
Variable cfg : Config.

(** [JSON.parse] of the platform, on the text of a frame that begins with an
    opening brace; [None] when it throws a [SyntaxError]. *)
Variable JSON_parse : string -> option JsObj.

(** [Buffer.from] of the platform; [None] when it throws a [TypeError] (for
    [undefined], [null], numbers, ...). *)
Variable Buffer_from : JsVal -> option bytes.

(** *** Local connection and forwarding loop (lines 95-275) *)

(** The test [localSocket && !localSocket.destroyed]. *)
Definition usable_socket (w : World) : option SockId :=
  match localSocket (vars w) with
  | Some s => if mem s (destroyed (rt w)) then None else Some s
  | None => None
  end.

(** [handleTunnelResponse] (lines 247-260): [tunnel.ws.send(resBuffer, ...)]. *)
Definition handleTunnelResponse (resBuffer : bytes) (w : World) : Completion :=
  match ws (tunnel w) with
  | None => Thrown TypeError_ws_null w
  | Some wid => Done (emit (EWsSendBinary wid resBuffer) w)
  end.

(** Lines 172-206 and the first, synchronous call of [checkComplete]: the
    listeners are attached, the request is written, the poll timer is armed. *)
Definition begin_exchange (tid : TaskId) (s : SockId) (reqBuffer : bytes)
    (w : World) : World :=
  set_task tid (TAwaitResponse s [] false 0 true) (emit (ELocalWrite s reqBuffer) w).

(** One turn of the [while] loop of [processRequestQueue] (lines 157-240), up
    to its next [await] that does not settle at once.  With an empty queue the
    loop ends and [processing] is cleared; the [setImmediate] of line 240 is
    guarded by a queue that is empty at that point. *)
Definition loop_turn (tid : TaskId) (w : World) : World :=
  match requestQueue (vars w) with
  | [] => set_task tid TDone (on_vars (set_processing false) w)
  | reqBuffer :: rest =>
      let w := on_vars (set_requestQueue rest) w in
      match usable_socket w with
      | Some s => begin_exchange tid s reqBuffer w
      | None =>
          if connecting (vars w) then set_task tid (TAwaitPoll reqBuffer) w
          else
            let s := nextSock (rt w) in
            set_task tid (TAwaitConnect reqBuffer s)
              (emit (ENetConnect s)
                 (on_rt (set_nextSock (S s))
                    (on_vars (fun c => set_localSocket (Some s) (set_connecting true c)) w)))
      end
  end.

(** [processRequestQueue] called from outside the loop (lines 153-156). *)
Definition processRequestQueue (w : World) : World :=
  if processing (vars w) || Nat.eqb (length (requestQueue (vars w))) 0 then w
  else
    let tid := length (tasks (rt w)) in
    loop_turn tid
      (on_rt (fun r => set_tasks (tasks r ++ [TDone]) r) (on_vars (set_processing true) w)).

(** [handleTunnelRequest] (lines 266-275). *)
Definition handleTunnelRequest (reqBuffer : bytes) (w : World) : World :=
  match app cfg && processing (vars w), localSocket (vars w) with
  | true, Some s => emit (ELocalWrite s reqBuffer) w
  | _, _ =>
      let w := on_vars (fun c => set_requestQueue (requestQueue c ++ [reqBuffer]) c) w in
      if processing (vars w) then w else processRequestQueue w
  end.

(** The response is finalized (lines 180-183 and 219-223): the listeners are
    gone, the marker is appended, the result is sent. [after] is what follows
    the call of [handleTunnelResponse] when it returns. *)
Definition finalize (tid : TaskId) (s : SockId) (chunks : list bytes) (chunksLast : nat)
    (after : World -> World) (stuck : Task) (w : World) : Completion :=
  match eofMarker (tunnel w) with
  | None => Thrown TypeError_concat_null w
  | Some eof =>
      let response := Buffer_concat (chunks ++ [eof]) in
      let w := set_task tid (TAwaitResponse s chunks true chunksLast false) w in
      match handleTunnelResponse response w with
      | Done w' => Done (after w')
      | Thrown e w' => Thrown e (set_task tid stuck w')
      end
  end.

(** The 10 ms timer of task [tid] fires: [checkConnection] (lines 114-122) or
    [checkComplete] (lines 210-227). *)
Definition on_timer (tid : TaskId) (w : World) : Completion :=
  match task_at tid w with
  | TAwaitPoll reqBuffer =>
      match usable_socket w with
      | Some s => Done (begin_exchange tid s reqBuffer w)
      | None =>
          if connecting (vars w) then Done w
          else Done (loop_turn tid (log LErrorProcessingRequest w))
      end
  | TAwaitResponse s chunks complete chunksLast listening =>
      if complete then Done (loop_turn tid w)
      else if Nat.eqb chunksLast 0 || negb (Nat.eqb chunksLast (length chunks)) then
        Done (set_task tid (TAwaitResponse s chunks false (length chunks) listening) w)
      else
        finalize tid s chunks chunksLast (loop_turn tid) THung (set_task tid THung w)
  | _ => Done w
  end.

(** The listeners a task has on its socket. *)
Definition onData (s : SockId) (chunk : bytes) (tid : TaskId) (w : World) : World :=
  match task_at tid w with
  | TAwaitResponse s' chunks complete chunksLast true =>
      if Nat.eqb s' s
      then set_task tid (TAwaitResponse s' (chunks ++ [chunk]) complete chunksLast true) w
      else w
  | _ => w
  end.

Definition onEnd (s : SockId) (tid : TaskId) (w : World) : Completion :=
  match task_at tid w with
  | TAwaitResponse s' chunks false chunksLast true =>
      if Nat.eqb s' s
      then finalize tid s' chunks chunksLast (fun w' => w')
             (TAwaitResponse s' chunks true chunksLast false)
             (set_task tid (TAwaitResponse s' chunks false chunksLast false) w)
      else Done w
  | _ => Done w
  end.

Definition onError (s : SockId) (tid : TaskId) (w : World) : World :=
  match task_at tid w with
  | TAwaitResponse s' chunks false chunksLast true =>
      if Nat.eqb s' s
      then log LLocalSocketError
             (on_vars (set_localSocket None)
                (set_task tid (TAwaitResponse s' chunks true chunksLast false) w))
      else w
  | _ => w
  end.

(** The promise of [ensureLocalConnection] settles for the task that created
    socket [s]; it is resolved with [cur], the value of [localSocket] at that
    time (line 132). *)
Definition resolve_connect (s cur : SockId) (tid : TaskId) (w : World) : World :=
  match task_at tid w with
  | TAwaitConnect reqBuffer s' =>
      if Nat.eqb s' s then begin_exchange tid cur reqBuffer w else w
  | _ => w
  end.

Definition reject_connect (s : SockId) (tid : TaskId) (w : World) : World :=
  match task_at tid w with
  | TAwaitConnect reqBuffer s' =>
      if Nat.eqb s' s then loop_turn tid (log LErrorProcessingRequest w) else w
  | _ => w
  end.

Definition for_tasks (h : TaskId -> World -> World) (w : World) : World :=
  fold_left (fun w tid => h tid w) (seq 0 (length (tasks (rt w)))) w.

Fixpoint for_tasks_c (h : TaskId -> World -> Completion) (tids : list TaskId)
    (w : World) : Completion :=
  match tids with
  | [] => Done w
  | tid :: tids' =>
      match h tid w with
      | Done w' => for_tasks_c h tids' w'
      | Thrown e w' => Thrown e w'
      end
  end.

(** Events of local socket [s].  A socket whose listeners were removed by
    [cleanup] runs no code of the client. *)
Definition on_local_connect (s : SockId) (w : World) : Completion :=
  if mem s (stripped (rt w)) then Done w
  else
    match localSocket (vars w) with
    | None => Thrown TypeError_socket_null w
    | Some cur =>
        Done (for_tasks (resolve_connect s cur) (on_vars (set_connecting false) w))
    end.

Definition on_local_data (s : SockId) (chunk : bytes) (w : World) : World :=
  if mem s (stripped (rt w)) then w else for_tasks (onData s chunk) w.

Definition on_local_end (s : SockId) (w : World) : Completion :=
  if mem s (stripped (rt w)) then Done w
  else for_tasks_c (onEnd s) (seq 0 (length (tasks (rt w)))) w.

(** Lines 135-140, then the [onError] of lines 187-194, then the [catch] of
    line 231 for the task whose promise was rejected. *)
Definition on_local_error (s : SockId) (w : World) : World :=
  if mem s (stripped (rt w)) then w
  else
    let w := on_rt (fun r => set_destroyed (s :: destroyed r) r) w in
    let w := on_vars (fun c => set_localSocket None (set_connecting false c))
               (log LLocalSocketError w) in
    for_tasks (reject_connect s) (for_tasks (onError s) w).

(** Lines 142-145. *)
Definition on_local_close (s : SockId) (w : World) : World :=
  if mem s (stripped (rt w)) then w
  else on_vars (set_localSocket None)
         (on_rt (fun r => set_destroyed (s :: destroyed r) r) w).

(** *** Relay connection (lines 280-438) *)

(** [cleanup] (lines 407-424). *)
Definition cleanup (w : World) : World :=
  let w := on_tunnel (set_pingIntervalId None) w in
  let w :=
    match usable_socket w with
    | Some s =>
        on_vars (set_localSocket None)
          (emit (ELocalDestroy s)
             (on_rt (fun r => set_destroyed (s :: destroyed r)
                                (set_stripped (s :: stripped r) r)) w))
    | None => w
    end in
  on_tunnel (set_alive false)
    (on_vars (fun c => set_processing false (set_connecting false (set_requestQueue [] c))) w).

(** [connectToTunnel] (lines 280-402); the listeners it attaches are the
    [on_ws_*] functions below. *)
Definition connectToTunnel (w : World) : World :=
  let w := cleanup w in
  let wid := nextWs (rt w) in
  let w := on_tunnel (set_ws (Some wid))
             (emit (EWsNew wid) (on_rt (set_nextWs (S wid)) w)) in
  if (1000 <? pingInterval cfg)%Z then on_tunnel (set_pingIntervalId (Some wid)) w else w.

(** Lines 292-295. *)
Definition on_ws_open (wid : WsId) (w : World) : World :=
  log LConnectionEstablished (on_tunnel (set_alive true) w).

Definition login_message : JsObj :=
  [("type", JStr "login"); ("domain", auth_domain cfg);
   ("secret", auth_secret cfg); ("device", auth_device cfg)]%string.

Definition start_message : JsObj :=
  [("type", JStr "start");
   ("usage", JStr (if isPublic cfg then "public" else "private"))]%string.

(** How the [try] block of the message handler (lines 299-353) is left. *)
Inductive TryExit :=
| Returned (w : World)        (* by one of its [return]s *)
| FellThrough (w : World).    (* at its end, or through the [catch] *)

Definition message_try (wid : WsId) (req : bytes) (isBinary : bool) (w : World)
    : TryExit :=
  if isBinary then FellThrough w
  else
    let message := string_of_list_byte req in
    if String.prefix "{" message then
      match JSON_parse message with
      | None => FellThrough (log LErrorProcessingMessage w)
      | Some jsonData =>
          if is_str (get "type" jsonData) "hello" then
            Returned (emit (EWsSendText wid login_message) w)
          else if is_str (get "type" jsonData) "login"
                  && is_str (get "status" jsonData) "ok" then
            Returned (emit (EWsSendText wid start_message)
                        (on_tunnel (set_isPrimary (get "primary" jsonData)) w))
          else if is_str (get "type" jsonData) "start" then
            match Buffer_from (get "suspend" jsonData) with
            | None => FellThrough (log LErrorProcessingMessage w)
            | Some suspend =>
                let w := on_tunnel (set_suspendCommand (Some suspend)) w in
                match Buffer_from (get "eof" jsonData) with
                | None => FellThrough (log LErrorProcessingMessage w)
                | Some eof =>
                    let w := on_tunnel (set_eofMarker (Some eof)) w in
                    Returned (log (LAccessible (isPrimary (tunnel w))) w)
                end
            end
          else if is_str (get "type" jsonData) "error" then
            Returned (log (LTunnelError (get "message" jsonData)) w)
          else if String.prefix "->" message then
            Returned (log (LEcho (String.substring 2 (String.length message - 2) message)) w)
          else FellThrough w
      end
    else FellThrough w.

(** What follows the [try] statement (lines 355-361): the suspend test, then
    the request path. *)
Definition suspend_or_forward (req : bytes) (w : World) : Completion :=
  match Buffer_indexOf req (suspendCommand (tunnel w)) with
  | None => Thrown TypeError_indexOf_null w
  | Some i =>
      if negb (Z.eqb i (-1)) then Done (log LSuspendReceived w)
      else Done (handleTunnelRequest req w)
  end.

(** The message handler (lines 298-362). *)
Definition on_ws_message (wid : WsId) (req : bytes) (isBinary : bool) (w : World)
    : Completion :=
  match req with
  | [] => Done w
  | _ :: _ =>
      match message_try wid req isBinary w with
      | Returned w' => Done w'
      | FellThrough w' => suspend_or_forward req w'
      end
  end.

(** The control frames the handler acts on: JSON text whose [type] is hello,
    login (with status ok), start or error. *)
Definition recognized_control (message : string) : bool :=
  String.prefix "{" message &&
  match JSON_parse message with
  | None => false
  | Some jsonData =>
      is_str (get "type" jsonData) "hello"
      || (is_str (get "type" jsonData) "login" && is_str (get "status" jsonData) "ok")
      || is_str (get "type" jsonData) "start"
      || is_str (get "type" jsonData) "error"
  end.

(** The close handler (lines 365-377). *)
Definition on_ws_close (wid : WsId) (w : World) : World :=
  let w := cleanup (log LTunnelClosed w) in
  let w := on_tunnel (fun t => set_eofMarker None (set_suspendCommand None (set_ws None t))) w in
  if (10000 <? autoConnectInterval (tunnel w))%Z then
    on_rt (fun r => set_reconnectTimers (S (reconnectTimers r)) r)
      (emit (ESetReconnect (autoConnectInterval (tunnel w))) (log LReconnecting w))
  else w.

(** The error handler (lines 380-383). *)
Definition on_ws_error (wid : WsId) (w : World) : World :=
  cleanup (log LTunnelConnectionError w).

(** The pong handler (lines 385-388). *)
Definition on_ws_pong (wid : WsId) (w : World) : World :=
  on_tunnel (set_alive true) w.

(** A tick of the ping interval (lines 391-401); a cleared interval does not
    tick. *)
Definition on_ping_tick (w : World) : World :=
  match pingIntervalId (tunnel w) with
  | None => w
  | Some wid =>
      if alive (tunnel w) then emit (EWsPing wid) (on_tunnel (set_alive false) w)
      else emit (EWsClose wid)
             (log LConnectionLost (on_tunnel (set_pingIntervalId None) w))
  end.

(** A pending [setTimeout(connectToTunnel, _)] fires. *)
Definition on_reconnect_timer (w : World) : World :=
  match reconnectTimers (rt w) with
  | O => w
  | S n => connectToTunnel (on_rt (set_reconnectTimers n) w)
  end.

(** *** Public surface (lines 431-457) *)

Definition close (w : World) : World :=
  let w := cleanup w in
  let w :=
    match ws (tunnel w) with
    | Some wid => on_tunnel (set_ws None) (emit (EWsClose wid) w)
    | None => w
    end in
  on_tunnel (set_autoConnectInterval 0%Z) w.

(** [pause()]; with no marker stored the socket library sends an empty
    frame. *)
Definition pause (w : World) : World :=
  match ws (tunnel w) with
  | Some wid =>
      emit (EWsSendBinary wid
              match suspendCommand (tunnel w) with Some s => s | None => [] end) w
  | None => w
  end.

Definition resume (w : World) : World :=
  match ws (tunnel w) with
  | Some wid => emit (EWsSendText wid start_message) w
  | None => w
  end.

(** The tunnel object as [selfTunnel] builds it (lines 59-99), before the
    first [connectToTunnel()] of line 426. *)
Definition fresh (autoConnect : Z) : World :=
  {| tunnel := {| suspendCommand := None; eofMarker := None; pingIntervalId := None;
                  isPrimary := JBool false; ws := None; alive := false;
                  autoConnectInterval := autoConnect |};
     vars := {| localSocket := None; requestQueue := []; connecting := false;
                processing := false |};
     rt := {| destroyed := []; stripped := []; nextSock := 0; nextWs := 0; tasks := [];
              reconnectTimers := 0; out := [] |} |}.

Definition selfTunnel (autoConnect : Z) : World := connectToTunnel (fresh autoConnect).

(** ** Events and runs *)

Inductive Event :=
| WsOpen (wid : WsId)
| WsMessage (wid : WsId) (req : bytes) (isBinary : bool)
| WsClose (wid : WsId)
| WsError (wid : WsId)
| WsPong (wid : WsId)
| PingTick
| ReconnectTimer
| LocalConnect (s : SockId)
| LocalData (s : SockId) (chunk : bytes)
| LocalEnd (s : SockId)
| LocalError (s : SockId)
| LocalClose (s : SockId)
| Timer (tid : TaskId)
| CallClose
| CallPause
| CallResume.

(** An exception that leaves a handler is nobody's to catch. *)
Definition settle (c : Completion) : World :=
  match c with
  | Done w => w
  | Thrown e w => emit (EUncaught e) w
  end.

Definition step (w : World) (ev : Event) : World :=
  match ev with
  | WsOpen wid => on_ws_open wid w
  | WsMessage wid req isBinary => settle (on_ws_message wid req isBinary w)
  | WsClose wid => on_ws_close wid w
  | WsError wid => on_ws_error wid w
  | WsPong wid => on_ws_pong wid w
  | PingTick => on_ping_tick w
  | ReconnectTimer => on_reconnect_timer w
  | LocalConnect s => settle (on_local_connect s w)
  | LocalData s chunk => on_local_data s chunk w
  | LocalEnd s => settle (on_local_end s w)
  | LocalError s => on_local_error s w
  | LocalClose s => on_local_close s w
  | Timer tid => settle (on_timer tid w)
  | CallClose => close w
  | CallPause => pause w
  | CallResume => resume w
  end.

Definition run (evs : list Event) (w : World) : World := fold_left step evs w.

End Client.

(** ** Stand-ins for the platform functions, for closed examples *)

Module Fixture.

Definition dq : string := String "034"%char EmptyString.

Definition field (k v : string) : string := (dq ++ k ++ dq ++ ":" ++ v)%string.
Definition str (s : string) : string := (dq ++ s ++ dq)%string.

Definition hello_text : string := ("{" ++ field "type" (str "hello") ++ "}")%string.
Definition login_text : string :=
  ("{" ++ field "type" (str "login") ++ "," ++ field "status" (str "ok") ++ ","
       ++ field "primary" "true" ++ "}")%string.
Definition start_text : string :=
  ("{" ++ field "type" (str "start") ++ "," ++ field "suspend" (str "S") ++ ","
       ++ field "eof" (str "E") ++ "}")%string.

(** Agrees with [JSON.parse] on the three handshake frames above and
    throws on every other text. *)
Definition parse (msg : string) : option JsObj :=
  if String.eqb msg hello_text then Some [("type", JStr "hello")]%string
  else if String.eqb msg login_text then
    Some [("type", JStr "login"); ("status", JStr "ok"); ("primary", JBool true)]%string
  else if String.eqb msg start_text then
    Some [("type", JStr "start"); ("suspend", JStr "S"); ("eof", JStr "E")]%string
  else None.

(** [Buffer.from] on strings of ASCII characters; throws on anything else. *)
Definition from (v : JsVal) : option bytes :=
  match v with
  | JStr s => Some (list_byte_of_string s)
  | _ => None
  end.

Definition config (withApp : bool) : Config :=
  {| auth_domain := JStr "example.test"; auth_secret := JStr "s3cret";
     auth_device := JStr "default-app"; isPublic := false; localPort := 80%Z;
     pingInterval := 50000%Z; app := withApp |}.

Definition frame (s : string) : bytes := list_byte_of_string s.

(** The session after the handshake of a tunnel built with the default
    reconnect interval. *)
Definition handshaken (withApp : bool) : World :=
  run (config withApp) parse from
    [WsOpen 0; WsMessage 0 (frame hello_text) false;
     WsMessage 0 (frame login_text) false; WsMessage 0 (frame start_text) false]
    (selfTunnel (config withApp) 30000%Z).

End Fixture.

(** ** Notions used by the statements *)

(** [marker] occurs in [buf] as a run of consecutive bytes. *)
Definition occurs_in (marker buf : bytes) : Prop :=
  exists pre post, buf = pre ++ marker ++ post.

(** The request queue after [reqBuffer] was pushed onto it. *)
Definition pushed (reqBuffer : bytes) (w : World) : World :=
  on_vars (fun c => set_requestQueue (requestQueue c ++ [reqBuffer]) c) w.

(** *** Reconnects scheduled along a run *)

Definition is_reconnect (e : Effect) : bool :=
  match e with ESetReconnect _ => true | _ => false end.

(** How many times [setTimeout(connectToTunnel, _)] was called so far. *)
Definition scheduled (w : World) : nat := length (filter is_reconnect (out (rt w))).

(** [w'] has the reconnect interval of [w] and armed no reconnect since. *)
Definition same_reconnect (w w' : World) : Prop :=
  autoConnectInterval (tunnel w') = autoConnectInterval (tunnel w)
  /\ scheduled w' = scheduled w.

Definition cworld (c : Completion) : World :=
  match c with Done w => w | Thrown _ w => w end.

(** What [cleanup] tells the outside: the live local socket, if there is one,
    is destroyed. *)
Definition cleanup_effects (w : World) : list Effect :=
  match usable_socket w with
  | Some s => [ELocalDestroy s]
  | None => []
  end.

(** How the local server answers one request, as seen by the client: some
    polls of [checkComplete] before the first chunk, then bursts of chunks
    with one poll after each burst, and then either a last burst followed by
    two polls with no chunk between them ([Quiet], the connection stays
    open), or some more chunks, the end of the stream and the close of the
    socket ([EndOfStream]). *)
Inductive Finish :=
| Quiet (last : bytes * list bytes)
| EndOfStream (tail : list bytes).

Record Exchange := {
  request : bytes;
  idle_polls : nat;
  bursts : list (bytes * list bytes);
  finish : Finish
}.

Definition burst_chunks (b : bytes * list bytes) : list bytes := fst b :: snd b.

Definition response_chunks (x : Exchange) : list bytes :=
  flat_map burst_chunks (bursts x)
  ++ match finish x with
     | Quiet last => burst_chunks last
     | EndOfStream tail => tail
     end.

Definition burst_events (s : SockId) (b : bytes * list bytes) : list Event :=
  map (LocalData s) (burst_chunks b) ++ [Timer 0].

Definition exchange_events (s : SockId) (x : Exchange) : list Event :=
  repeat (Timer 0) (idle_polls x)
  ++ flat_map (burst_events s) (bursts x)
  ++ match finish x with
     | Quiet last => burst_events s last ++ [Timer 0]
     | EndOfStream tail => map (LocalData s) tail ++ [LocalEnd s; LocalClose s; Timer 0]
     end.

(** The local events of a run of exchanges: the first on socket [cur], which
    is connected; after an exchange that ended with the stream the next
    request gets the new socket [fresh], which then connects. *)
Fixpoint script (cur fresh : SockId) (xs : list Exchange) : list Event :=
  match xs with
  | [] => []
  | x :: xs' =>
      exchange_events cur x
      ++ match finish x, xs' with
         | Quiet _, _ => script cur fresh xs'
         | EndOfStream _, [] => []
         | EndOfStream _, _ :: _ => LocalConnect fresh :: script fresh (S fresh) xs'
         end
  end.

(** The request of [x] arrives on relay socket [wid]. *)
Definition arrive (wid : WsId) (x : Exchange) : Event := WsMessage wid (request x) true.

(** Requests that arrive while the loop waits for the first chunk of a
    response, between its polls: before each arrival come as many polls as
    [gaps] says, none once [gaps] is used up. *)
Fixpoint waits (wid : WsId) (gaps : list nat) (xs : list Exchange) : list Event :=
  match xs with
  | [] => []
  | x :: xs' => repeat (Timer 0) (hd 0 gaps) ++ arrive wid x :: waits wid (tl gaps) xs'
  end.

(** The arrivals of a session, all of them before the local server has
    answered anything.  The request of [x] comes first.  With a cached local
    socket it is written at once, and the requests of [xs] come while the
    loop polls for the first chunk of the response.  With none the new socket
    [fresh] is opened: [early] of the requests of [xs] come before it has
    connected, the others after the connect, between the polls. *)
Definition arrival_events (wid : WsId) (cached : option SockId) (fresh : SockId)
    (early : nat) (gaps : list nat) (x : Exchange) (xs : list Exchange) : list Event :=
  arrive wid x
  :: match cached with
     | Some _ => waits wid gaps xs
     | None =>
         map (arrive wid) (firstn early xs)
         ++ LocalConnect fresh :: waits wid gaps (skipn early xs)
     end.

(** A session: the arrivals, at the times [early] and [gaps] give them, and
    then the exchanges, on the cached local socket when there is one, on the
    new socket [fresh] otherwise. *)
Definition session_events (wid : WsId) (cached : option SockId) (fresh : SockId)
    (early : nat) (gaps : list nat) (xs : list Exchange) : list Event :=
  match xs with
  | [] => []
  | x :: xs' =>
      arrival_events wid cached fresh early gaps x xs'
      ++ match cached with
         | Some s => script s fresh xs
         | None => script fresh (S fresh) xs
         end
  end.

(** The requests written to the local server ([inl]) and the responses sent
    to the relay ([inr]), in the order of the trace. *)
Definition exchange_log (es : list Effect) : list (bytes + bytes) :=
  flat_map (fun e => match e with
                     | ELocalWrite _ data => [inl data]
                     | EWsSendBinary _ data => [inr data]
                     | _ => []
                     end) es.

Definition local_writes (es : list Effect) : list bytes :=
  flat_map (fun e => match e with ELocalWrite _ data => [data] | _ => [] end) es.

Definition relay_responses (es : list Effect) : list bytes :=
  flat_map (fun e => match e with EWsSendBinary _ data => [data] | _ => [] end) es.

Definition lefts {A B} (l : list (A + B)) : list A :=
  flat_map (fun x => match x with inl a => [a] | inr _ => [] end) l.

Definition rights {A B} (l : list (A + B)) : list B :=
  flat_map (fun x => match x with inl _ => [] | inr b => [b] end) l.

(** What one exchange leaves in the log: the request, then the response with
    the marker appended. *)
Definition pair_log (eof : bytes) (x : Exchange) : list (bytes + bytes) :=
  [inl (request x); inr (Buffer_concat (response_chunks x) ++ eof)].

(** The session is established and nothing is going on: both markers are
    stored, the relay socket is [wid], the queue is empty, no loop is running
    and none is parked; the cached local socket, if any, is alive, and the
    socket identifiers not yet handed out are unused. *)
Definition ready (wid : WsId) (marker eof : bytes) (w : World) : Prop :=
  (ws (tunnel w) = Some wid
   /\ suspendCommand (tunnel w) = Some marker
   /\ eofMarker (tunnel w) = Some eof)
  /\ (requestQueue (vars w) = []
      /\ connecting (vars w) = false
      /\ processing (vars w) = false
      /\ tasks (rt w) = [])
  /\ match localSocket (vars w) with
     | Some s => s < nextSock (rt w)
                 /\ mem s (destroyed (rt w)) = false /\ mem s (stripped (rt w)) = false
     | None => True
     end
  /\ forall s, nextSock (rt w) <= s ->
       mem s (destroyed (rt w)) = false /\ mem s (stripped (rt w)) = false.

(** Worlds of a session of tunnel state [t] in which one loop is running
    (task 0); the fields that never change during forwarding come first. *)
Definition serving_world (t : Tunnel) (st : list SockId) (nw : WsId) (rtm : nat)
    (ls : option SockId) (q : list bytes) (conn : bool)
    (d : list SockId) (fresh : SockId) (task : Task) (o : list Effect) : World :=
  {| tunnel := t;
     vars := {| localSocket := ls; requestQueue := q; connecting := conn;
                processing := true |};
     rt := {| destroyed := d; stripped := st; nextSock := fresh; nextWs := nw;
              tasks := [task]; reconnectTimers := rtm; out := o |} |}.

(** The same session with no loop running yet. *)
Definition idle_world (t : Tunnel) (st : list SockId) (nw : WsId) (rtm : nat)
    (ls : option SockId) (d : list SockId) (fresh : SockId) (o : list Effect) : World :=
  {| tunnel := t;
     vars := {| localSocket := ls; requestQueue := []; connecting := false;
                processing := false |};
     rt := {| destroyed := d; stripped := st; nextSock := fresh; nextWs := nw;
              tasks := []; reconnectTimers := rtm; out := o |} |}.

(** The world in which the response has just been sent on relay socket [wid]
    and the loop is about to take its next turn. *)
Definition answered_world (t : Tunnel) (st : list SockId) (nw : WsId) (rtm : nat)
    (wid : WsId) (eof : bytes)
    (ls : option SockId) (q : list bytes) (d : list SockId)
    (fresh : SockId) (cur : SockId) (cs : list bytes) (cl : nat) (o : list Effect) : World :=
  serving_world t st nw rtm ls q false d fresh (TAwaitResponse cur cs true cl false)
    (o ++ [EWsSendBinary wid (Buffer_concat cs ++ eof)]).

(** ** Construction (lines 58-99) *)

(** The [options] object given to [selfTunnel]; a field that is [undefined]
    is [None].  Numbers are integers here. *)
Record Options := {
  opt_domain : option string;
  opt_secret : option string;
  opt_device : option string;
  opt_public : option bool;
  opt_localPort : option Z;
  opt_pingInterval : option Z;
  opt_autoConnectInterval : option Z
}.

(** The two variables read from [process.env]. *)
Record Env := {
  TUNNEL_DOMAIN : option string;
  TUNNEL_SECRET : option string
}.

Definition env_value (v : option string) : JsVal :=
  match v with
  | Some s => JStr s
  | None => JUndef
  end.

(** [a || b] for a string option [a]: the empty string is falsy. *)
Definition or_string (a : option string) (b : JsVal) : JsVal :=
  match a with
  | Some (String c s) => JStr (String c s)
  | _ => b
  end.

(** [a || d] for a number option [a]: zero is falsy. *)
Definition or_number (a : option Z) (d : Z) : Z :=
  match a with
  | Some n => if Z.eqb n 0 then d else n
  | None => d
  end.

(** The immutable part of the [tunnel] object (lines 59-80). *)
Definition configure (options : Options) (env : Env) (withApp : bool) : Config :=
  {| auth_domain := or_string (opt_domain options) (env_value (TUNNEL_DOMAIN env));
     auth_secret := or_string (opt_secret options) (env_value (TUNNEL_SECRET env));
     auth_device := or_string (opt_device options) (JStr "default-app");
     isPublic := match opt_public options with Some b => b | None => false end;
     localPort := or_number (opt_localPort options) 80;
     pingInterval := or_number (opt_pingInterval options) 50000;
     app := withApp |}.

(** Line 80: only [undefined] is replaced by the default. *)
Definition initial_autoConnectInterval (options : Options) : Z :=
  match opt_autoConnectInterval options with
  | Some n => n
  | None => 30000%Z
  end.

(** [selfTunnel(options, app)]. *)
Definition selfTunnel_with (options : Options) (env : Env) (withApp : bool) : World :=
  selfTunnel (configure options env withApp) (initial_autoConnectInterval options).

Definition is_ws_close (ev : Event) : bool :=
  match ev with WsClose _ => true | _ => false end.

Definition is_call_close (ev : Event) : bool :=
  match ev with CallClose => true | _ => false end.

(** The effects of the forwarding side: local connections and writes,
    responses to the relay, console output, uncaught exceptions. *)
Definition local_effects (e : Effect) : bool :=
  match e with
  | ENetConnect _ | ELocalWrite _ _ | EWsSendBinary _ _ | ELog _ | EUncaught _ => true
  | _ => false
  end.

(** [w'] differs from [w] by forwarding work only: the [tunnel] object, the
    stripped sockets, the relay socket counter and the pending reconnect
    timers are the same, and the trace grew by effects of the forwarding
    side. *)
Definition local_change (w w' : World) : Prop :=
  tunnel w' = tunnel w
  /\ stripped (rt w') = stripped (rt w)
  /\ nextWs (rt w') = nextWs (rt w)
  /\ reconnectTimers (rt w') = reconnectTimers (rt w)
  /\ exists es, out (rt w') = out (rt w) ++ es /\ forallb local_effects es = true.

Definition is_local_event (ev : Event) : bool :=
  match ev with
  | LocalConnect _ | LocalData _ _ | LocalEnd _ | LocalError _ | LocalClose _
  | Timer _ => true
  | _ => false
  end.

(** What the message handler may add to the trace: forwarding effects and
    text frames. *)
Definition message_effects (e : Effect) : bool :=
  match e with
  | EWsSendText _ _ => true
  | _ => local_effects e
  end.

(** [w'] differs from [w] as a relay message can make it differ: of the
    [tunnel] object only the markers and the primary flag may have changed. *)
Definition message_change (w w' : World) : Prop :=
  (pingIntervalId (tunnel w') = pingIntervalId (tunnel w)
   /\ ws (tunnel w') = ws (tunnel w)
   /\ alive (tunnel w') = alive (tunnel w)
   /\ autoConnectInterval (tunnel w') = autoConnectInterval (tunnel w))
  /\ (stripped (rt w') = stripped (rt w)
      /\ destroyed (rt w') = destroyed (rt w)
      /\ nextWs (rt w') = nextWs (rt w)
      /\ reconnectTimers (rt w') = reconnectTimers (rt w))
  /\ exists es, out (rt w') = out (rt w) ++ es /\ forallb message_effects es = true.

Definition count_effects (p : Effect -> bool) (w : World) : nat :=
  length (filter p (out (rt w))).

Definition is_ping (e : Effect) : bool :=
  match e with EWsPing _ => true | _ => false end.

Definition is_ws_new (e : Effect) : bool :=
  match e with EWsNew _ => true | _ => false end.

(** Requests wait in the queue only while the [processing] flag is set. *)
Definition queue_served (w : World) : Prop :=
  processing (vars w) = false -> requestQueue (vars w) = [].

Definition keeps_served (w w' : World) : Prop := queue_served w -> queue_served w'.

(** The trace of [n] connection attempts that are refused one after the
    other, the first on socket [fresh]. *)
Fixpoint refusal_trace (fresh : SockId) (n : nat) : list Effect :=
  match n with
  | O => []
  | S k => ENetConnect fresh :: ELog LLocalSocketError :: ELog LErrorProcessingRequest
           :: refusal_trace (S fresh) k
  end.

(** What the client sees of [n] connection attempts that are refused one
    after the other, the first on socket [fresh]: the error of each socket
    and then its close, which comes when the loop has gone on to the next
    request and has opened the next socket. *)
Definition refusal_events (fresh : SockId) (n : nat) : list Event :=
  flat_map (fun s => [LocalError s; LocalClose s]) (seq fresh n).

(** The requests that arrive during a list of events. *)
Definition arrivals_of (evs : list Event) : list bytes :=
  flat_map (fun ev => match ev with WsMessage _ req _ => [req] | _ => [] end) evs.

(** An event that can come while the loop waits for the first chunk of a
    response: a poll of task 0, or a binary request on relay socket [wid]. *)
Definition waiting_event (wid : WsId) (marker : bytes) (ev : Event) : Prop :=
  ev = Timer 0
  \/ exists req, ev = WsMessage wid req true /\ req <> [] /\ ~ occurs_in marker req.

Definition is_net_connect (e : Effect) : bool :=
  match e with ENetConnect _ => true | _ => false end.

(** The exchanges after which the next request needs a new local
    connection: those that ended with the stream and are not the last. *)
Fixpoint reconnects_needed (xs : list Exchange) : nat :=
  match xs with
  | [] => 0
  | x :: xs' =>
      match finish x, xs' with
      | EndOfStream _, _ :: _ => 1
      | _, _ => 0
      end + reconnects_needed xs'
  end.

(** The trace of the exchanges [x :: xs] from the moment the request of [x]
    has been written to socket [cur]: the response of [x], then the next
    request, on the same socket or on the new socket [fresh], and so on. *)
Fixpoint script_trace (wid : WsId) (eof : bytes) (cur fresh : SockId)
    (x : Exchange) (xs : list Exchange) : list Effect :=
  EWsSendBinary wid (Buffer_concat (response_chunks x) ++ eof)
  :: match xs with
     | [] => []
     | y :: ys =>
         match finish x with
         | Quiet _ => ELocalWrite cur (request y) :: script_trace wid eof cur fresh y ys
         | EndOfStream _ =>
             ENetConnect fresh :: ELocalWrite fresh (request y)
             :: script_trace wid eof fresh (S fresh) y ys
         end
     end.

(** The trace of a whole session of exchanges (see [session_events]). *)
Definition session_trace (wid : WsId) (eof : bytes) (cached : option SockId)
    (fresh : SockId) (xs : list Exchange) : list Effect :=
  match xs, cached with
  | [], _ => []
  | x :: xs', Some s => ELocalWrite s (request x) :: script_trace wid eof s fresh x xs'
  | x :: xs', None =>
      ENetConnect fresh :: ELocalWrite fresh (request x)
      :: script_trace wid eof fresh (S fresh) x xs'
  end.

(** ** Two states of the fixture session, for closed examples *)

(** The first request has been written to the local server, which has not
    answered yet. *)
Definition request_written : World :=
  run (Fixture.config false) Fixture.parse Fixture.from
    [WsMessage 0 (Fixture.frame "R1") true; LocalConnect 0] (Fixture.handshaken false).

(** One chunk of the response has come and a poll has seen it. *)
Definition chunk_polled : World :=
  run (Fixture.config false) Fixture.parse Fixture.from
    [LocalData 0 (Fixture.frame "a"); Timer 0] request_written.

(** * Properties *)

Example handshaken_markers :
  suspendCommand (tunnel (Fixture.handshaken false)) = Some (Fixture.frame "S")
  /\ eofMarker (tunnel (Fixture.handshaken false)) = Some (Fixture.frame "E")
  /\ isPrimary (tunnel (Fixture.handshaken false)) = JBool true.
Proof. vm_compute. auto. Qed.

(** ** Closing *)

Ltac destruct_world w :=
  let t := fresh "t" in
  let c := fresh "c" in
  let r := fresh "r" in
  destruct w as [t c r]; destruct t, c, r.

Lemma usable_socket_cleanup w : usable_socket (cleanup w) = None.
Proof.
  destruct_world w. unfold cleanup, usable_socket. simpl.
  destruct localSocket0 as [s|]; simpl; [|reflexivity].
  destruct (mem s destroyed0) eqn:E; simpl; [rewrite E|]; reflexivity.
Qed.

Lemma cleanup_idempotent w : cleanup (cleanup w) = cleanup w.
Proof.
  destruct_world w. unfold cleanup, usable_socket. simpl.
  destruct localSocket0 as [s|]; simpl; [|reflexivity].
  destruct (mem s destroyed0) eqn:E; simpl; [rewrite E|]; reflexivity.
Qed.

Lemma same_reconnect_refl w : same_reconnect w w.
Proof. split; reflexivity. Qed.

Lemma same_reconnect_trans w1 w2 w3 :
  same_reconnect w1 w2 -> same_reconnect w2 w3 -> same_reconnect w1 w3.
Proof. intros [A B] [C D]. split; congruence. Qed.

Lemma same_reconnect_emit e w :
  is_reconnect e = false -> same_reconnect w (emit e w).
Proof.
  intros H. split; [reflexivity|]. unfold scheduled, emit. simpl.
  rewrite filter_app. simpl. rewrite H. rewrite length_app. simpl. lia.
Qed.

Lemma same_reconnect_vars f w : same_reconnect w (on_vars f w).
Proof. split; reflexivity. Qed.

Lemma same_reconnect_rt f w :
  (forall r, out (f r) = out r) -> same_reconnect w (on_rt f w).
Proof. intros H. split; [reflexivity|]. unfold scheduled. simpl. now rewrite H. Qed.

Lemma same_reconnect_set_task tid t w : same_reconnect w (set_task tid t w).
Proof. apply same_reconnect_rt. reflexivity. Qed.

Lemma same_reconnect_tunnel f w :
  (forall t, autoConnectInterval (f t) = autoConnectInterval t) ->
  same_reconnect w (on_tunnel f w).
Proof. intros H. split; [apply H|reflexivity]. Qed.

Create HintDb reconnect.
#[local] Hint Resolve same_reconnect_refl same_reconnect_vars same_reconnect_set_task
  : reconnect.
#[local] Hint Extern 1 (same_reconnect _ (emit _ _)) =>
  (apply same_reconnect_emit; reflexivity) : reconnect.
#[local] Hint Extern 1 (same_reconnect _ (log _ _)) =>
  (apply same_reconnect_emit; reflexivity) : reconnect.
#[local] Hint Extern 1 (same_reconnect _ (on_rt _ _)) =>
  (apply same_reconnect_rt; reflexivity) : reconnect.
#[local] Hint Extern 1 (same_reconnect _ (on_tunnel _ _)) =>
  (apply same_reconnect_tunnel; reflexivity) : reconnect.

(** Chains a goal [same_reconnect w (f1 (f2 (... w)))] through its layers. *)
Ltac peel :=
  repeat first
    [ apply same_reconnect_refl
    | match goal with
      | |- same_reconnect ?w (?f ?a) =>
          apply (@same_reconnect_trans w a (f a)); [|solve [auto with reconnect]]
      | |- same_reconnect ?w (?f ?x ?a) =>
          apply (@same_reconnect_trans w a (f x a)); [|solve [auto with reconnect]]
      | |- same_reconnect ?w (?f ?x ?y ?a) =>
          apply (@same_reconnect_trans w a (f x y a)); [|solve [auto with reconnect]]
      end ].

Section Reconnect.

Variable cfg : Config.
Variable JSON_parse : string -> option JsObj.
Variable Buffer_from : JsVal -> option bytes.

Lemma same_reconnect_begin_exchange tid s req w :
  same_reconnect w (begin_exchange tid s req w).
Proof. unfold begin_exchange. peel. Qed.

Lemma same_reconnect_loop_turn tid w : same_reconnect w (loop_turn tid w).
Proof.
  unfold loop_turn. destruct (requestQueue (vars w)) as [|req rest]; [peel|].
  cbv zeta. destruct (usable_socket _).
  - eapply same_reconnect_trans; [|apply same_reconnect_begin_exchange]. peel.
  - destruct (connecting _); peel.
Qed.

Lemma same_reconnect_processRequestQueue w : same_reconnect w (processRequestQueue w).
Proof.
  unfold processRequestQueue. destruct (_ || _); [apply same_reconnect_refl|].
  eapply same_reconnect_trans; [|apply same_reconnect_loop_turn]. peel.
Qed.

Lemma same_reconnect_handleTunnelRequest req w :
  same_reconnect w (handleTunnelRequest cfg req w).
Proof.
  unfold handleTunnelRequest.
  destruct (app cfg && processing (vars w)), (localSocket (vars w)); try solve [peel];
    cbv zeta; (destruct (processing _); [peel|]);
    (eapply same_reconnect_trans; [|apply same_reconnect_processRequestQueue]); peel.
Qed.

Lemma same_reconnect_finalize tid s chunks cl after stuck w :
  (forall w', same_reconnect w' (after w')) ->
  same_reconnect w (cworld (finalize tid s chunks cl after stuck w)).
Proof.
  intros Hafter. unfold finalize, handleTunnelResponse.
  destruct (eofMarker (tunnel w)); [|apply same_reconnect_refl].
  cbv zeta. destruct (ws _); simpl; [|peel].
  eapply same_reconnect_trans; [|apply Hafter]. peel.
Qed.

Lemma same_reconnect_on_timer tid w : same_reconnect w (cworld (on_timer tid w)).
Proof.
  unfold on_timer. destruct (task_at tid w) as [| req | s chunks complete cl li | |];
    simpl; try apply same_reconnect_refl.
  - destruct (usable_socket w); simpl; [apply same_reconnect_begin_exchange|].
    destruct (connecting _); simpl; [apply same_reconnect_refl|].
    eapply same_reconnect_trans; [|apply same_reconnect_loop_turn]. peel.
  - destruct complete; simpl; [apply same_reconnect_loop_turn|].
    destruct (_ || _); simpl; [peel|].
    eapply same_reconnect_trans; [|apply same_reconnect_finalize].
    + peel.
    + apply same_reconnect_loop_turn.
Qed.

Lemma same_reconnect_onData s chunk tid w : same_reconnect w (onData s chunk tid w).
Proof.
  unfold onData. destruct (task_at tid w) as [| | s' chunks complete cl [|] | |];
    try apply same_reconnect_refl.
  destruct (Nat.eqb s' s); peel.
Qed.

Lemma same_reconnect_onEnd s tid w : same_reconnect w (cworld (onEnd s tid w)).
Proof.
  unfold onEnd. destruct (task_at tid w) as [| | s' chunks [|] cl [|] | |];
    simpl; try apply same_reconnect_refl.
  destruct (Nat.eqb s' s); simpl; [|apply same_reconnect_refl].
  eapply same_reconnect_trans; [|apply same_reconnect_finalize].
  - peel.
  - intros; apply same_reconnect_refl.
Qed.

Lemma same_reconnect_onError s tid w : same_reconnect w (onError s tid w).
Proof.
  unfold onError. destruct (task_at tid w) as [| | s' chunks [|] cl [|] | |];
    try apply same_reconnect_refl.
  destruct (Nat.eqb s' s); peel.
Qed.

Lemma same_reconnect_resolve_connect s cur tid w :
  same_reconnect w (resolve_connect s cur tid w).
Proof.
  unfold resolve_connect. destruct (task_at tid w); try apply same_reconnect_refl.
  destruct (Nat.eqb _ _); [apply same_reconnect_begin_exchange|apply same_reconnect_refl].
Qed.

Lemma same_reconnect_reject_connect s tid w :
  same_reconnect w (reject_connect s tid w).
Proof.
  unfold reject_connect. destruct (task_at tid w); try apply same_reconnect_refl.
  destruct (Nat.eqb _ _); [|apply same_reconnect_refl].
  eapply same_reconnect_trans; [|apply same_reconnect_loop_turn]. peel.
Qed.

Lemma same_reconnect_fold (h : TaskId -> World -> World) tids :
  (forall tid w, same_reconnect w (h tid w)) ->
  forall w, same_reconnect w (fold_left (fun w tid => h tid w) tids w).
Proof.
  intros Hh. induction tids as [|tid tids IH]; intros w; simpl.
  - apply same_reconnect_refl.
  - eapply same_reconnect_trans; [apply Hh|apply IH].
Qed.

Lemma same_reconnect_for_tasks (h : TaskId -> World -> World) w :
  (forall tid w, same_reconnect w (h tid w)) -> same_reconnect w (for_tasks h w).
Proof. intros Hh. unfold for_tasks. now apply same_reconnect_fold. Qed.

Lemma same_reconnect_for_tasks_c (h : TaskId -> World -> Completion) tids :
  (forall tid w, same_reconnect w (cworld (h tid w))) ->
  forall w, same_reconnect w (cworld (for_tasks_c h tids w)).
Proof.
  intros Hh. induction tids as [|tid tids IH]; intros w; simpl.
  - apply same_reconnect_refl.
  - specialize (Hh tid w). destruct (h tid w) as [w'|e w']; simpl in *.
    + eapply same_reconnect_trans; [apply Hh|apply IH].
    + exact Hh.
Qed.

Lemma same_reconnect_settle w c :
  same_reconnect w (cworld c) -> same_reconnect w (settle c).
Proof.
  destruct c as [w'|e w']; simpl; [auto|].
  intros H. eapply same_reconnect_trans; [apply H|]. peel.
Qed.

Lemma same_reconnect_cleanup w : same_reconnect w (cleanup w).
Proof.
  unfold cleanup. cbv zeta.
  destruct (usable_socket _); peel.
Qed.

Lemma same_reconnect_connectToTunnel w : same_reconnect w (connectToTunnel cfg w).
Proof.
  unfold connectToTunnel. cbv zeta.
  destruct (_ <? _)%Z;
    (eapply same_reconnect_trans; [apply same_reconnect_cleanup|]); peel.
Qed.

Lemma same_reconnect_message_try wid req isBinary w :
  same_reconnect w
    match message_try cfg JSON_parse Buffer_from wid req isBinary w with
    | Returned w' => w'
    | FellThrough w' => w'
    end.
Proof.
  unfold message_try. destruct isBinary; [apply same_reconnect_refl|].
  cbv zeta. destruct (String.prefix _ _); [|apply same_reconnect_refl].
  destruct (JSON_parse _) as [jsonData|]; [|peel].
  repeat match goal with
         | |- context [if ?b then _ else _] => destruct b
         | |- context [match Buffer_from ?v with _ => _ end] => destruct (Buffer_from v)
         end; peel.
Qed.

Lemma same_reconnect_on_ws_message wid req isBinary w :
  same_reconnect w (cworld (on_ws_message cfg JSON_parse Buffer_from wid req isBinary w)).
Proof.
  unfold on_ws_message. destruct req as [|b req']; [apply same_reconnect_refl|].
  pose proof (same_reconnect_message_try wid (b :: req') isBinary w) as H.
  destruct (message_try _ _ _ _ _ _ _) as [w'|w']; simpl; [exact H|].
  unfold suspend_or_forward.
  destruct (Buffer_indexOf _ _) as [i|]; simpl; [|exact H].
  destruct (negb _); simpl.
  - eapply same_reconnect_trans; [exact H|]. peel.
  - eapply same_reconnect_trans; [exact H|apply same_reconnect_handleTunnelRequest].
Qed.

Lemma same_reconnect_on_ws_close wid w :
  (autoConnectInterval (tunnel w) <= 10000)%Z -> same_reconnect w (on_ws_close wid w).
Proof.
  intros Hle. unfold on_ws_close. cbv zeta.
  assert (Hc : same_reconnect w (cleanup (log LTunnelClosed w))).
  { eapply same_reconnect_trans; [|apply same_reconnect_cleanup]. peel. }
  match goal with |- context [(10000 <? ?x)%Z] => replace x with (autoConnectInterval (tunnel w)) end.
  - destruct (Z.ltb_spec 10000 (autoConnectInterval (tunnel w))); [lia|].
    eapply same_reconnect_trans; [exact Hc|]. peel.
  - destruct Hc as [Hc _]. simpl. now rewrite <- Hc.
Qed.

(** Once the interval is 0 it stays 0 and no reconnect is armed, whatever
    happens next. *)
Lemma step_disabled ev w :
  autoConnectInterval (tunnel w) = 0%Z ->
  autoConnectInterval (tunnel (step cfg JSON_parse Buffer_from w ev)) = 0%Z
  /\ scheduled (step cfg JSON_parse Buffer_from w ev) = scheduled w.
Proof.
  intros H0.
  assert (Hs : ev <> CallClose -> same_reconnect w (step cfg JSON_parse Buffer_from w ev)).
  { intros Hne. destruct ev; simpl.
    - unfold on_ws_open. peel.
    - apply same_reconnect_settle, same_reconnect_on_ws_message.
    - apply same_reconnect_on_ws_close. lia.
    - unfold on_ws_error. eapply same_reconnect_trans; [|apply same_reconnect_cleanup]. peel.
    - unfold on_ws_pong. peel.
    - unfold on_ping_tick. destruct (pingIntervalId _); [|peel]. destruct (alive _); peel.
    - unfold on_reconnect_timer. destruct (reconnectTimers _); [peel|].
      eapply same_reconnect_trans; [|apply same_reconnect_connectToTunnel]. peel.
    - apply same_reconnect_settle. unfold on_local_connect.
      destruct (mem _ _); [peel|]. destruct (localSocket _); [|peel]. simpl.
      eapply same_reconnect_trans; [|apply same_reconnect_for_tasks].
      + peel.
      + intros; apply same_reconnect_resolve_connect.
    - unfold on_local_data. destruct (mem _ _); [peel|].
      apply same_reconnect_for_tasks. intros; apply same_reconnect_onData.
    - apply same_reconnect_settle. unfold on_local_end. destruct (mem _ _); [peel|].
      apply same_reconnect_for_tasks_c. intros; apply same_reconnect_onEnd.
    - unfold on_local_error. destruct (mem _ _); [peel|]. cbv zeta.
      eapply same_reconnect_trans; [|apply same_reconnect_for_tasks].
      + eapply same_reconnect_trans; [|apply same_reconnect_for_tasks].
        * peel.
        * intros; apply same_reconnect_onError.
      + intros; apply same_reconnect_reject_connect.
    - unfold on_local_close. destruct (mem _ _); peel.
    - apply same_reconnect_settle, same_reconnect_on_timer.
    - congruence.
    - unfold pause. destruct (ws _); peel.
    - unfold resume. destruct (ws _); peel. }
  destruct ev; try (destruct Hs as [A B]; [discriminate|]; split; [congruence|exact B]).
  simpl. unfold close. cbv zeta. split; [reflexivity|].
  assert (Hc : same_reconnect w (cleanup w)) by apply same_reconnect_cleanup.
  destruct (ws (tunnel (cleanup w))).
  - transitivity (scheduled (cleanup w)); [|apply Hc].
    unfold scheduled; simpl. rewrite filter_app. simpl. now rewrite app_nil_r.
  - apply Hc.
Qed.

Lemma run_disabled evs : forall w,
  autoConnectInterval (tunnel w) = 0%Z ->
  autoConnectInterval (tunnel (run cfg JSON_parse Buffer_from evs w)) = 0%Z
  /\ scheduled (run cfg JSON_parse Buffer_from evs w) = scheduled w.
Proof.
  induction evs as [|ev evs IH]; intros w H0; simpl; [auto|].
  destruct (step_disabled ev w H0) as [A B].
  destruct (IH _ A) as [C D]. split; [exact C|congruence].
Qed.

End Reconnect.

(** ** close() *)

Lemma cleanup_close w : cleanup (close w) = close w.
Proof.
  destruct_world w. unfold close, cleanup, usable_socket. simpl.
  destruct localSocket0 as [s|]; simpl.
  - destruct (mem s destroyed0) eqn:E; simpl; destruct ws0; simpl; rewrite ?E; reflexivity.
  - destruct ws0; reflexivity.
Qed.

Lemma ws_close w : ws (tunnel (close w)) = None.
Proof.
  unfold close. cbv zeta. destruct (ws (tunnel (cleanup w))) eqn:E; simpl; auto.
Qed.

(** C9. close() is idempotent: a second call (and any further one) right
    after the first leaves the whole state as the first call left it, trace
    of effects included, so it sends no second close frame on the relay
    connection and none of the steps of cleanup acts again. *)
Theorem close_idempotent (w : World) :
  close (close w) = close w
  /\ (forall n, Nat.iter n close (close w) = close w)
  /\ out (rt (close (close w))) = out (rt (close w)).
Proof.
  assert (H : close (close w) = close w).
  { unfold close at 1. cbv zeta. rewrite cleanup_close, ws_close.
    destruct_world w. unfold close, cleanup, usable_socket. simpl.
    destruct localSocket0 as [s|]; simpl.
    - destruct (mem s destroyed0); simpl; destruct ws0; reflexivity.
    - destruct ws0; reflexivity. }
  split; [exact H|]. split; [|now rewrite H].
  induction n as [|n IH]; simpl; [reflexivity|]. now rewrite IH.
Qed.

(** ** Transport close *)

Lemma out_cleanup w : out (rt (cleanup w)) = out (rt w) ++ cleanup_effects w.
Proof.
  unfold cleanup, cleanup_effects. cbv zeta.
  replace (usable_socket (on_tunnel (set_pingIntervalId None) w)) with (usable_socket w)
    by reflexivity.
  destruct (usable_socket w); simpl; [reflexivity|now rewrite app_nil_r].
Qed.

Lemma cleanup_releases w :
  pingIntervalId (tunnel (cleanup w)) = None
  /\ alive (tunnel (cleanup w)) = false
  /\ requestQueue (vars (cleanup w)) = []
  /\ connecting (vars (cleanup w)) = false
  /\ processing (vars (cleanup w)) = false
  /\ usable_socket (cleanup w) = None.
Proof.
  repeat split; try apply usable_socket_cleanup;
    unfold cleanup; cbv zeta; destruct (usable_socket _); reflexivity.
Qed.

Lemma cleanup_keeps w :
  suspendCommand (tunnel (cleanup w)) = suspendCommand (tunnel w)
  /\ eofMarker (tunnel (cleanup w)) = eofMarker (tunnel w)
  /\ isPrimary (tunnel (cleanup w)) = isPrimary (tunnel w)
  /\ autoConnectInterval (tunnel (cleanup w)) = autoConnectInterval (tunnel w)
  /\ reconnectTimers (rt (cleanup w)) = reconnectTimers (rt w)
  /\ tasks (rt (cleanup w)) = tasks (rt w).
Proof.
  repeat split; unfold cleanup; cbv zeta; destruct (usable_socket _); reflexivity.
Qed.

(** The claim C5 as written fails on the primary flag: a session that was
    told [primary: true] at login still has the flag set after the transport
    has closed, while a new tunnel starts with it cleared. *)
Lemma transport_close_keeps_primary :
  isPrimary (tunnel (on_ws_close 0 (Fixture.handshaken false))) = JBool true
  /\ isPrimary (tunnel (fresh 30000%Z)) = JBool false
  /\ isPrimary (tunnel (on_ws_close 0 (Fixture.handshaken false)))
     <> isPrimary (tunnel (fresh 30000%Z)).
Proof. vm_compute. repeat split; discriminate. Qed.

(** C5, amended. On every transport close both markers and the socket handle
    are reset to null, the ping timer is stopped, the liveness flag is
    cleared, the queue is emptied, the connecting and processing flags are
    cleared and no live local socket stays cached; the primary flag keeps its
    value.  A reconnect is armed exactly when the reconnect interval exceeds
    10000 ms.  [close()] sets the interval to 0, and from then on no event
    arms a reconnect again. *)
Theorem transport_close_releases_session
    (cfg : Config) (JSON_parse : string -> option JsObj)
    (Buffer_from : JsVal -> option bytes) (wid : WsId) (w : World) :
  let w' := on_ws_close wid w in
  (suspendCommand (tunnel w') = None /\ eofMarker (tunnel w') = None
   /\ ws (tunnel w') = None /\ isPrimary (tunnel w') = isPrimary (tunnel w))
  /\ (pingIntervalId (tunnel w') = None /\ alive (tunnel w') = false)
  /\ (requestQueue (vars w') = [] /\ connecting (vars w') = false
      /\ processing (vars w') = false /\ usable_socket w' = None)
  /\ out (rt w') =
       out (rt w) ++ [ELog LTunnelClosed] ++ cleanup_effects w
       ++ (if (10000 <? autoConnectInterval (tunnel w))%Z
           then [ELog LReconnecting; ESetReconnect (autoConnectInterval (tunnel w))]
           else [])
  /\ reconnectTimers (rt w') =
       (if (10000 <? autoConnectInterval (tunnel w))%Z then 1 else 0)
       + reconnectTimers (rt w)
  /\ autoConnectInterval (tunnel (close w)) = 0%Z
  /\ forall evs,
       scheduled (run cfg JSON_parse Buffer_from evs (close w)) = scheduled (close w).
Proof.
  cbv zeta.
  assert (Hc := cleanup_releases (log LTunnelClosed w)).
  assert (Hk := cleanup_keeps (log LTunnelClosed w)).
  assert (Ho := out_cleanup (log LTunnelClosed w)).
  replace (cleanup_effects (log LTunnelClosed w)) with (cleanup_effects w) in Ho
    by reflexivity.
  unfold on_ws_close. cbv zeta.
  remember (cleanup (log LTunnelClosed w)) as W eqn:EW.
  destruct Hc as (c1 & c2 & c3 & c4 & c5 & c6).
  destruct Hk as (k1 & k2 & k3 & k4 & k5 & k6).
  assert (Hu : forall f, usable_socket (on_tunnel f W) = None) by (intros; exact c6).
  cbn [on_tunnel tunnel set_eofMarker set_suspendCommand set_ws autoConnectInterval].
  rewrite k4. cbn [log emit on_rt tunnel autoConnectInterval].
  destruct (10000 <? autoConnectInterval (tunnel w))%Z;
    repeat match goal with |- _ /\ _ => split end;
    try reflexivity; try assumption.
  all: try exact (Hu _).
  all: try (intros evs;
            exact (proj2 (run_disabled cfg JSON_parse Buffer_from evs (close w) eq_refl))).
  all: simpl; rewrite ?Ho, ?k5; simpl; rewrite ?app_nil_r, <- ?app_assoc; reflexivity.
Qed.

(** A reconnect timer that is already pending when [close()] is called is
    not cancelled: when it fires, [connectToTunnel] opens a new relay
    connection although the tunnel was closed. *)
Example pending_reconnect_survives_close :
  let w := run (Fixture.config false) Fixture.parse Fixture.from
             [WsClose 0; CallClose] (Fixture.handshaken false) in
  reconnectTimers (rt w) = 1
  /\ ws (tunnel w) = None
  /\ out (rt (step (Fixture.config false) Fixture.parse Fixture.from w ReconnectTimer))
     = out (rt w) ++ [EWsNew 1].
Proof. vm_compute. auto. Qed.

(** ** What cleanup does to queued requests *)

Lemma cleanup_forgets_queue q w :
  cleanup (on_vars (set_requestQueue q) w) = cleanup (on_vars (set_requestQueue []) w).
Proof.
  destruct_world w. unfold cleanup, usable_socket. simpl.
  destruct localSocket0 as [s|]; simpl; [|reflexivity].
  destruct (mem s destroyed0); reflexivity.
Qed.

Lemma cleanup_strips w :
  match usable_socket w with
  | Some s => mem s (stripped (rt (cleanup w))) = true
  | None => True
  end.
Proof.
  destruct_world w. unfold cleanup, usable_socket. simpl.
  destruct localSocket0 as [s|]; simpl; [|exact I].
  destruct (mem s destroyed0); simpl; [exact I|].
  unfold mem. simpl. now rewrite Nat.eqb_refl.
Qed.

(** Events of a socket that [cleanup] has stripped of its listeners run no
    code of the client. *)
Lemma stripped_socket_is_mute s w :
  mem s (stripped (rt w)) = true ->
  on_local_connect s w = Done w
  /\ (forall chunk, on_local_data s chunk w = w)
  /\ on_local_end s w = Done w
  /\ on_local_error s w = w
  /\ on_local_close s w = w.
Proof.
  intros H. unfold on_local_connect, on_local_data, on_local_end, on_local_error,
    on_local_close. rewrite H. auto.
Qed.

(** C10. The close handler, the error handler and every connect attempt run
    cleanup, which empties the request queue.  The requests that were waiting
    in it leave no trace: the state after the handler, trace of effects
    included, is the one it would be had the queue been empty, and so is
    every later state; the handler itself writes nothing to the local server
    and sends nothing on the relay connection.  The live local socket is
    stripped of its listeners, so a request that was taken from the queue and
    still waits for that socket to connect is not written either. *)
Theorem cleanup_discards_queued_requests
    (cfg : Config) (JSON_parse : string -> option JsObj)
    (Buffer_from : JsVal -> option bytes) (wid : WsId) (w : World) (q : list bytes) :
  let queued := on_vars (set_requestQueue q) w in
  let empty := on_vars (set_requestQueue []) w in
  (requestQueue (vars (on_ws_close wid queued)) = []
   /\ requestQueue (vars (on_ws_error wid queued)) = []
   /\ requestQueue (vars (connectToTunnel cfg queued)) = [])
  /\ (on_ws_close wid queued = on_ws_close wid empty
      /\ on_ws_error wid queued = on_ws_error wid empty
      /\ connectToTunnel cfg queued = connectToTunnel cfg empty)
  /\ (forall evs,
        run cfg JSON_parse Buffer_from evs (on_ws_close wid queued)
        = run cfg JSON_parse Buffer_from evs (on_ws_close wid empty)
        /\ run cfg JSON_parse Buffer_from evs (on_ws_error wid queued)
           = run cfg JSON_parse Buffer_from evs (on_ws_error wid empty)
        /\ run cfg JSON_parse Buffer_from evs (connectToTunnel cfg queued)
           = run cfg JSON_parse Buffer_from evs (connectToTunnel cfg empty))
  /\ (out (rt (on_ws_error wid queued))
        = out (rt w) ++ [ELog LTunnelConnectionError] ++ cleanup_effects w
      /\ out (rt (connectToTunnel cfg queued))
        = out (rt w) ++ cleanup_effects w ++ [EWsNew (nextWs (rt w))])
  /\ match usable_socket w with
     | Some s =>
         on_local_connect s (on_ws_close wid queued) = Done (on_ws_close wid queued)
         /\ on_local_connect s (on_ws_error wid queued) = Done (on_ws_error wid queued)
         /\ on_local_connect s (connectToTunnel cfg queued)
            = Done (connectToTunnel cfg queued)
     | None => True
     end.
Proof.
  cbv zeta.
  assert (Hclose : on_ws_close wid (on_vars (set_requestQueue q) w)
                   = on_ws_close wid (on_vars (set_requestQueue []) w)).
  { unfold on_ws_close.
    change (log LTunnelClosed (on_vars (set_requestQueue q) w))
      with (on_vars (set_requestQueue q) (log LTunnelClosed w)).
    now rewrite cleanup_forgets_queue. }
  assert (Herror : on_ws_error wid (on_vars (set_requestQueue q) w)
                   = on_ws_error wid (on_vars (set_requestQueue []) w)).
  { unfold on_ws_error.
    change (log LTunnelConnectionError (on_vars (set_requestQueue q) w))
      with (on_vars (set_requestQueue q) (log LTunnelConnectionError w)).
    now rewrite cleanup_forgets_queue. }
  assert (Hconnect : connectToTunnel cfg (on_vars (set_requestQueue q) w)
                     = connectToTunnel cfg (on_vars (set_requestQueue []) w)).
  { unfold connectToTunnel. now rewrite cleanup_forgets_queue. }
  assert (Hq : forall v, requestQueue (vars (cleanup v)) = [])
    by (intros v; apply cleanup_releases).
  split; [|split; [|split; [|split]]].
  - split; [|split].
    + unfold on_ws_close. cbv zeta. destruct (_ <? _)%Z; apply Hq.
    + apply Hq.
    + unfold connectToTunnel. cbv zeta. destruct (_ <? _)%Z; apply Hq.
  - auto.
  - intros evs. now rewrite Hclose, Herror, Hconnect.
  - split.
    + unfold on_ws_error. rewrite out_cleanup. simpl. now rewrite <- app_assoc.
    + unfold connectToTunnel. cbv zeta.
      assert (Hn : nextWs (rt (cleanup (on_vars (set_requestQueue q) w))) = nextWs (rt w)).
      { unfold cleanup. cbv zeta. destruct (usable_socket _); reflexivity. }
      pose proof (out_cleanup (on_vars (set_requestQueue q) w)) as Ho.
      change (cleanup_effects (on_vars (set_requestQueue q) w))
        with (cleanup_effects w) in Ho.
      remember (cleanup (on_vars (set_requestQueue q) w)) as W eqn:EW.
      destruct (_ <? _)%Z; simpl; rewrite Ho, Hn; simpl;
        now rewrite <- app_assoc.
  - pose proof (cleanup_strips (on_vars (set_requestQueue q) w)) as Hs.
    pose proof (cleanup_strips (log LTunnelClosed (on_vars (set_requestQueue q) w)))
      as Hs'.
    pose proof (cleanup_strips (log LTunnelConnectionError
                                  (on_vars (set_requestQueue q) w))) as Hs''.
    change (usable_socket _) with (usable_socket w) in Hs, Hs', Hs''.
    destruct (usable_socket w) as [s|]; [|exact I].
    split; [|split]; apply stripped_socket_is_mute.
    + unfold on_ws_close. cbv zeta. destruct (_ <? _)%Z; exact Hs'.
    + exact Hs''.
    + unfold connectToTunnel. cbv zeta. destruct (_ <? _)%Z; exact Hs.
Qed.

(** ** Liveness *)

Lemma scheduled_emit e w :
  scheduled (emit e w) = (if is_reconnect e then 1 else 0) + scheduled w.
Proof.
  unfold scheduled, emit. simpl. rewrite filter_app, length_app. simpl.
  destruct (is_reconnect e); simpl; lia.
Qed.

Lemma scheduled_on_ws_close wid w :
  scheduled (on_ws_close wid w)
  = (if (10000 <? autoConnectInterval (tunnel w))%Z then 1 else 0) + scheduled w.
Proof.
  destruct (Z.ltb_spec 10000 (autoConnectInterval (tunnel w))) as [Hlt|Hle].
  - unfold on_ws_close. cbv zeta.
    destruct (same_reconnect_cleanup (log LTunnelClosed w)) as [Ha Hs].
    remember (cleanup (log LTunnelClosed w)) as W eqn:EW.
    cbn [on_tunnel tunnel set_eofMarker set_suspendCommand set_ws autoConnectInterval].
    rewrite Ha. cbn [log emit on_rt tunnel autoConnectInterval].
    destruct (Z.ltb_spec 10000 (autoConnectInterval (tunnel w))); [|lia].
    change (scheduled (emit (ESetReconnect (autoConnectInterval (tunnel w)))
                (emit (ELog LReconnecting)
                   (on_tunnel (fun t => set_eofMarker None
                                 (set_suspendCommand None (set_ws None t))) W)))
            = 1 + scheduled w).
    rewrite !scheduled_emit. simpl.
    change (scheduled (on_tunnel _ W)) with (scheduled W). rewrite Hs.
    change (log LTunnelClosed w) with (emit (ELog LTunnelClosed) w).
    now rewrite scheduled_emit.
  - apply (same_reconnect_on_ws_close wid w Hle).
Qed.

Lemma reconnectTimers_on_ws_close wid w :
  reconnectTimers (rt (on_ws_close wid w))
  = (if (10000 <? autoConnectInterval (tunnel w))%Z then 1 else 0)
    + reconnectTimers (rt w).
Proof.
  unfold on_ws_close. cbv zeta.
  destruct (cleanup_keeps (log LTunnelClosed w)) as (_ & _ & _ & Ha & Ht & _).
  remember (cleanup (log LTunnelClosed w)) as W eqn:EW.
  cbn [on_tunnel tunnel set_eofMarker set_suspendCommand set_ws autoConnectInterval].
  rewrite Ha. cbn [log emit on_rt tunnel autoConnectInterval].
  destruct (10000 <? autoConnectInterval (tunnel w))%Z; simpl; now rewrite Ht.
Qed.

(** C7. While the ping interval of relay socket [wid] is armed: a pong sets
    the liveness flag; a tick that finds the flag set clears it and sends a
    ping; a tick that finds it cleared stops the interval and closes the relay
    socket, and the close of the transport that follows arms a reconnect when
    the reconnect interval exceeds 10000 ms.  Hence two ticks with no pong
    between them close the connection, and a pong between them keeps it. *)
Theorem heartbeat
    (cfg : Config) (JSON_parse : string -> option JsObj)
    (Buffer_from : JsVal -> option bytes) (w : World) (wid : WsId)
    (Harmed : pingIntervalId (tunnel w) = Some wid) :
  (forall wid', alive (tunnel (on_ws_pong wid' w)) = true)
  /\ (alive (tunnel w) = true ->
      alive (tunnel (on_ping_tick w)) = false
      /\ pingIntervalId (tunnel (on_ping_tick w)) = Some wid
      /\ out (rt (on_ping_tick w)) = out (rt w) ++ [EWsPing wid])
  /\ (alive (tunnel w) = false ->
      pingIntervalId (tunnel (on_ping_tick w)) = None
      /\ out (rt (on_ping_tick w)) = out (rt w) ++ [ELog LConnectionLost; EWsClose wid]
      /\ ((10000 < autoConnectInterval (tunnel w))%Z ->
          scheduled (run cfg JSON_parse Buffer_from [PingTick; WsClose wid] w)
          = S (scheduled w)
          /\ reconnectTimers (rt (run cfg JSON_parse Buffer_from [PingTick; WsClose wid] w))
             = S (reconnectTimers (rt w))))
  /\ out (rt (run cfg JSON_parse Buffer_from [WsPong wid; PingTick; PingTick] w))
     = out (rt w) ++ [EWsPing wid; ELog LConnectionLost; EWsClose wid]
  /\ out (rt (run cfg JSON_parse Buffer_from
                [WsPong wid; PingTick; WsPong wid; PingTick] w))
     = out (rt w) ++ [EWsPing wid; EWsPing wid].
Proof.
  split; [reflexivity|]. split; [|split; [|split]].
  - intros Ha. unfold on_ping_tick. rewrite Harmed, Ha. simpl. auto.
  - intros Ha. unfold run. simpl. unfold on_ping_tick. rewrite Harmed, Ha.
    split; [reflexivity|]. split; [simpl; now rewrite <- app_assoc|].
    intros Hlt. split.
    + rewrite scheduled_on_ws_close. simpl.
      destruct (Z.ltb_spec 10000 (autoConnectInterval (tunnel w))); [|lia].
      unfold log. rewrite !scheduled_emit. reflexivity.
    + rewrite reconnectTimers_on_ws_close. simpl.
      destruct (Z.ltb_spec 10000 (autoConnectInterval (tunnel w))); [reflexivity|lia].
  - unfold run. simpl. unfold on_ping_tick, on_ws_pong. simpl.
    repeat (rewrite Harmed; simpl). rewrite <- ?app_assoc. reflexivity.
  - unfold run. simpl. unfold on_ping_tick, on_ws_pong. simpl.
    repeat (rewrite Harmed; simpl). rewrite <- ?app_assoc. reflexivity.
Qed.

Lemma heartbeat_witness :
  let w := Fixture.handshaken false in
  let dead := on_ping_tick w in
  pingIntervalId (tunnel w) = Some 0
  /\ alive (tunnel w) = true
  /\ out (rt (on_ping_tick w)) = out (rt w) ++ [EWsPing 0]
  /\ alive (tunnel dead) = false
  /\ scheduled (run (Fixture.config false) Fixture.parse Fixture.from
                  [PingTick; WsClose 0] dead) = S (scheduled dead).
Proof.
  cbv zeta.
  assert (Hw : pingIntervalId (tunnel (Fixture.handshaken false)) = Some 0)
    by (vm_compute; reflexivity).
  assert (Hd : pingIntervalId (tunnel (on_ping_tick (Fixture.handshaken false))) = Some 0)
    by (vm_compute; reflexivity).
  destruct (@heartbeat (Fixture.config false) Fixture.parse Fixture.from
              (Fixture.handshaken false) 0 Hw) as (_ & H1 & _).
  destruct (@heartbeat (Fixture.config false) Fixture.parse Fixture.from
              (on_ping_tick (Fixture.handshaken false)) 0 Hd) as (_ & _ & H2 & _).
  split; [exact Hw|]. split; [vm_compute; reflexivity|].
  split; [apply H1; vm_compute; reflexivity|].
  split; [vm_compute; reflexivity|].
  apply H2; vm_compute; reflexivity.
Defined.

(** ** The message handler *)

Lemma starts_with_spec needle : forall hay,
  starts_with needle hay = true <-> exists post, hay = needle ++ post.
Proof.
  induction needle as [|a needle IH]; intros hay; simpl.
  - split; [intros _; now exists hay|reflexivity].
  - destruct hay as [|b hay].
    + split; [discriminate|intros [post H]; discriminate].
    + rewrite andb_true_iff, IH. split.
      * intros [Hab [post ->]]. apply Byte.byte_dec_bl in Hab. subst. now exists post.
      * intros [post H]. injection H as -> ->. split; [now apply Byte.byte_dec_lb|].
        now exists post.
Qed.

(** [indexOf] finds the needle exactly when it occurs somewhere in the buffer. *)
Lemma index_from_found hay needle : forall i, (0 <= i)%Z ->
  index_from i hay needle <> (-1)%Z <-> exists pre post, hay = pre ++ needle ++ post.
Proof.
  induction hay as [|b hay IH]; intros i Hi; simpl.
  - destruct (starts_with needle []) eqn:E.
    + split; [intros _|intros _; lia].
      apply starts_with_spec in E. destruct E as [post E]. now exists [], post.
    + split; [congruence|]. intros (pre & post & H).
      destruct pre; [|discriminate]. simpl in H.
      assert (starts_with needle [] = true) by (apply starts_with_spec; now exists post).
      congruence.
  - destruct (starts_with needle (b :: hay)) eqn:E.
    + split; [intros _|intros _; lia].
      apply starts_with_spec in E. destruct E as [post E]. now exists [], post.
    + rewrite (IH (i + 1)%Z) by lia. split.
      * intros (pre & post & ->). now exists (b :: pre), post.
      * intros (pre & post & H). destruct pre as [|b' pre].
        -- simpl in H.
           assert (starts_with needle (b :: hay) = true)
             by (apply starts_with_spec; now exists post).
           congruence.
        -- injection H as -> ->. now exists pre, post.
Qed.

Lemma length_replace_nth {A} (x : A) : forall l n,
  length (replace_nth n x l) = length l.
Proof. induction l as [|y l IH]; intros [|n]; simpl; auto. Qed.

Lemma length_tasks_loop_turn tid w :
  length (tasks (rt (loop_turn tid w))) = length (tasks (rt w)).
Proof.
  unfold loop_turn. destruct (requestQueue (vars w)); simpl.
  - apply length_replace_nth.
  - destruct (usable_socket _); simpl; [apply length_replace_nth|].
    destruct (connecting _); simpl; apply length_replace_nth.
Qed.

(** A frame that is handed to the request path never leaves the state a
    mere log entry would leave. *)
Lemma handleTunnelRequest_acts cfg req m w :
  handleTunnelRequest cfg req w <> log m w.
Proof.
  unfold handleTunnelRequest.
  assert (Hpush : forall v,
             (let w' := on_vars (fun c => set_requestQueue (requestQueue c ++ [req]) c) v in
              if processing (vars w') then w' else processRequestQueue w') <> log m v).
  { intros v. cbv zeta. cbn [on_vars vars processing set_requestQueue].
    destruct (processing (vars v)) eqn:Ep.
    - intros H. apply (f_equal (fun x => length (requestQueue (vars x)))) in H.
      simpl in H. rewrite length_app in H. simpl in H. lia.
    - unfold processRequestQueue. cbn [on_vars vars processing set_requestQueue requestQueue].
      rewrite Ep, length_app. simpl.
      replace (length (requestQueue (vars v)) + 1 =? 0) with false
        by (symmetry; apply Nat.eqb_neq; lia).
      intros H. apply (f_equal (fun x => length (tasks (rt x)))) in H.
      rewrite length_tasks_loop_turn in H. simpl in H. rewrite length_app in H.
      simpl in H. lia. }
  destruct (app cfg && processing (vars w)), (localSocket (vars w)); try apply Hpush.
  intros H. apply (f_equal (fun x => out (rt x))) in H. simpl in H.
  apply app_inv_head in H. discriminate.
Qed.

Section MessageHandler.

Variable cfg : Config.
Variable JSON_parse : string -> option JsObj.
Variable Buffer_from : JsVal -> option bytes.

Lemma binary_message wid req w :
  req <> [] ->
  on_ws_message cfg JSON_parse Buffer_from wid req true w = suspend_or_forward cfg req w.
Proof. destruct req; [congruence|reflexivity]. Qed.

Lemma suspend_or_forward_marker req marker w :
  suspendCommand (tunnel w) = Some marker ->
  (occurs_in marker req -> suspend_or_forward cfg req w = Done (log LSuspendReceived w))
  /\ (~ occurs_in marker req ->
      suspend_or_forward cfg req w = Done (handleTunnelRequest cfg req w)).
Proof.
  intros Hm. unfold suspend_or_forward, Buffer_indexOf. rewrite Hm.
  pose proof (@index_from_found req marker 0 (Z.le_refl 0)) as Hf.
  fold (occurs_in marker req) in Hf.
  destruct (Z.eqb_spec (index_from 0 req marker) (-1)) as [E|E]; simpl; split; intros H;
    try reflexivity.
  - apply Hf in H. contradiction.
  - apply Hf in E. contradiction.
Qed.

End MessageHandler.

(** The claim C2 as written fails on a frame that is longer than the marker
    and contains it: with the marker [S] stored, the three-byte binary frame
    [xSy] is not the marker, yet it is taken for the suspend signal, logged,
    and not handed to the request path. *)
Lemma suspend_matches_inside_payload :
  let w := Fixture.handshaken false in
  let m := Fixture.frame "xSy" in
  suspendCommand (tunnel w) = Some (Fixture.frame "S")
  /\ m <> Fixture.frame "S"
  /\ on_ws_message (Fixture.config false) Fixture.parse Fixture.from 0 m true w
     = Done (log LSuspendReceived w)
  /\ requestQueue (vars (log LSuspendReceived w)) = requestQueue (vars w)
  /\ tasks (rt (log LSuspendReceived w)) = tasks (rt w).
Proof. vm_compute. repeat split; discriminate. Qed.

(** C2, amended. While a suspend marker is stored, a non-empty binary frame is
    taken for the suspend signal (logged, nothing else changes, the queue
    keeps its length) if and only if the marker occurs somewhere in the
    frame; a frame equal to the marker is such a frame.  Every other binary
    frame goes to the request path: it is written straight to the local
    socket when an app was given, the loop is running and a local socket
    exists, and is appended to the request queue otherwise (and the loop is
    started when it is not running). *)
Theorem suspend_detection
    (cfg : Config) (JSON_parse : string -> option JsObj)
    (Buffer_from : JsVal -> option bytes)
    (wid : WsId) (w : World) (marker m : bytes)
    (Hmarker : suspendCommand (tunnel w) = Some marker) (Hm : m <> []) :
  let handled := on_ws_message cfg JSON_parse Buffer_from wid m true w in
  (handled = Done (log LSuspendReceived w) <-> occurs_in marker m)
  /\ (m = marker -> handled = Done (log LSuspendReceived w))
  /\ length (requestQueue (vars (log LSuspendReceived w))) = length (requestQueue (vars w))
  /\ (~ occurs_in marker m -> handled = Done (handleTunnelRequest cfg m w))
  /\ handleTunnelRequest cfg m w =
       match app cfg && processing (vars w), localSocket (vars w) with
       | true, Some s => emit (ELocalWrite s m) w
       | _, _ => if processing (vars w) then pushed m w
                 else processRequestQueue (pushed m w)
       end.
Proof.
  cbv zeta. rewrite binary_message by exact Hm.
  destruct (suspend_or_forward_marker cfg m w Hmarker) as [Hyes Hno].
  split; [|split; [|split; [|split]]].
  - split; [|exact Hyes]. intros H.
    pose proof (@index_from_found m marker 0 (Z.le_refl 0)) as Hf.
    fold (occurs_in marker m) in Hf. apply Hf. intros Hidx.
    assert (Hn : ~ occurs_in marker m) by (intros Ho; apply Hf in Ho; contradiction).
    rewrite (Hno Hn) in H. injection H as H.
    now apply handleTunnelRequest_acts in H.
  - intros ->. apply Hyes. exists [], []. now rewrite app_nil_r.
  - reflexivity.
  - exact Hno.
  - unfold handleTunnelRequest, pushed.
    destruct (app cfg && processing (vars w)), (localSocket (vars w)); reflexivity.
Qed.

Lemma suspend_detection_witness :
  let w := Fixture.handshaken false in
  on_ws_message (Fixture.config false) Fixture.parse Fixture.from 0
    (Fixture.frame "S") true w = Done (log LSuspendReceived w).
Proof.
  cbv zeta.
  assert (Hmarker : suspendCommand (tunnel (Fixture.handshaken false))
                    = Some (Fixture.frame "S")) by (vm_compute; reflexivity).
  assert (Hm : Fixture.frame "S" <> []) by (vm_compute; discriminate).
  destruct (@suspend_detection (Fixture.config false) Fixture.parse Fixture.from 0
              (Fixture.handshaken false) (Fixture.frame "S") (Fixture.frame "S")
              Hmarker Hm) as (_ & H & _).
  exact (H eq_refl).
Defined.

(** Before the start frame has stored the markers, the suspend test of line
    355 calls [indexOf] with [null], outside the [try] statement. *)
Lemma suspend_or_forward_before_start cfg req w :
  suspendCommand (tunnel w) = None ->
  suspend_or_forward cfg req w = Thrown TypeError_indexOf_null w.
Proof. intros H. unfold suspend_or_forward. now rewrite H. Qed.

(** C4, at the failing input. A one-byte binary frame that arrives on the
    open relay connection before the handshake leaves the message handler
    with a TypeError; so does a text frame that does not parse, after the
    parse error was caught and logged. *)
Theorem early_frame_throws_out_of_handler :
  let cfg := Fixture.config false in
  let w := step cfg Fixture.parse Fixture.from (selfTunnel cfg 30000%Z) (WsOpen 0) in
  suspendCommand (tunnel w) = None
  /\ on_ws_message cfg Fixture.parse Fixture.from 0 [x01] true w
     = Thrown TypeError_indexOf_null w
  /\ out (rt (step cfg Fixture.parse Fixture.from w (WsMessage 0 [x01] true)))
     = out (rt w) ++ [EUncaught TypeError_indexOf_null]
  /\ on_ws_message cfg Fixture.parse Fixture.from 0 (Fixture.frame "{oops") false w
     = Thrown TypeError_indexOf_null (log LErrorProcessingMessage w).
Proof. vm_compute. auto. Qed.

(** The claim C6 as written fails on plain text: after the handshake the text
    frame [GET /] is no control message and no echo, yet it is not dropped:
    the loop opens the local connection for it and writes it to the local
    server. *)
Lemma unrecognized_text_is_forwarded :
  let cfg := Fixture.config false in
  let w := Fixture.handshaken false in
  let req := Fixture.frame "GET /" in
  recognized_control Fixture.parse (string_of_list_byte req) = false
  /\ String.prefix "->" (string_of_list_byte req) = false
  /\ out (rt (run cfg Fixture.parse Fixture.from
                [WsMessage 0 req false; LocalConnect 0] w))
     = out (rt w) ++ [ENetConnect 0; ELocalWrite 0 req].
Proof. vm_compute. auto. Qed.

(** C6, amended. A non-empty text frame that is no recognized control message
    and does not begin with the echo prefix is not dropped: it is handled as
    a binary frame of the same bytes is (suspend test, then the request
    path), after an error was logged when its text begins with an opening
    brace and does not parse. *)
Theorem unrecognized_text_takes_data_path
    (cfg : Config) (JSON_parse : string -> option JsObj)
    (Buffer_from : JsVal -> option bytes)
    (wid : WsId) (w : World) (req : bytes)
    (Hreq : req <> [])
    (Hcontrol : recognized_control JSON_parse (string_of_list_byte req) = false)
    (Hecho : String.prefix "->" (string_of_list_byte req) = false) :
  let message := string_of_list_byte req in
  let w' := if String.prefix "{" message
            then match JSON_parse message with
                 | None => log LErrorProcessingMessage w
                 | Some _ => w
                 end
            else w in
  on_ws_message cfg JSON_parse Buffer_from wid req false w = suspend_or_forward cfg req w'
  /\ suspend_or_forward cfg req w'
     = on_ws_message cfg JSON_parse Buffer_from wid req true w'.
Proof.
  cbv zeta. split; [|now rewrite binary_message].
  destruct req as [|b req']; [congruence|].
  unfold on_ws_message, message_try. cbv zeta.
  unfold recognized_control in Hcontrol.
  destruct (String.prefix "{" (string_of_list_byte (b :: req'))); [|reflexivity].
  destruct (JSON_parse (string_of_list_byte (b :: req'))) as [jsonData|]; [|reflexivity].
  simpl in Hcontrol.
  repeat (apply orb_false_iff in Hcontrol; destruct Hcontrol as [Hcontrol ?]).
  repeat match goal with H : _ = false |- _ => rewrite H end.
  reflexivity.
Qed.

Lemma unrecognized_text_witness :
  let cfg := Fixture.config false in
  let w := Fixture.handshaken false in
  let req := Fixture.frame "GET /" in
  on_ws_message cfg Fixture.parse Fixture.from 0 req false w
  = on_ws_message cfg Fixture.parse Fixture.from 0 req true w.
Proof.
  cbv zeta.
  assert (Hreq : Fixture.frame "GET /" <> []) by (vm_compute; discriminate).
  destruct (@unrecognized_text_takes_data_path (Fixture.config false) Fixture.parse
              Fixture.from 0 (Fixture.handshaken false) (Fixture.frame "GET /")
              Hreq eq_refl eq_refl) as [H1 H2].
  exact (eq_trans H1 H2).
Defined.

(** ** Handshake *)

(** C3. When hello, then login with status ok and primary true, then start
    with suspend S and eof E arrive in that order on one connection, the
    client sends exactly two frames on it, first the login message with
    domain, secret and device, then the start message with the configured
    usage, and afterwards holds the buffers made of S and of E as suspend and
    eof markers. *)
Theorem handshake_sequencing
    (cfg : Config) (JSON_parse : string -> option JsObj)
    (Buffer_from : JsVal -> option bytes)
    (wid : WsId) (w : World)
    (hello login start : bytes) (ohello ologin ostart : JsObj)
    (S E : string) (Sbuf Ebuf : bytes)
    (Hb1 : String.prefix "{" (string_of_list_byte hello) = true)
    (Hb2 : String.prefix "{" (string_of_list_byte login) = true)
    (Hb3 : String.prefix "{" (string_of_list_byte start) = true)
    (Hp1 : JSON_parse (string_of_list_byte hello) = Some ohello)
    (Hp2 : JSON_parse (string_of_list_byte login) = Some ologin)
    (Hp3 : JSON_parse (string_of_list_byte start) = Some ostart)
    (Hhello : get "type" ohello = JStr "hello")
    (Hlogin : get "type" ologin = JStr "login")
    (Hstatus : get "status" ologin = JStr "ok")
    (Hprimary : get "primary" ologin = JBool true)
    (Hstart : get "type" ostart = JStr "start")
    (Hsuspend : get "suspend" ostart = JStr S)
    (Heof : get "eof" ostart = JStr E)
    (HS : Buffer_from (JStr S) = Some Sbuf)
    (HE : Buffer_from (JStr E) = Some Ebuf) :
  let w' := run cfg JSON_parse Buffer_from
              [WsMessage wid hello false; WsMessage wid login false;
               WsMessage wid start false] w in
  out (rt w') = out (rt w)
                ++ [EWsSendText wid
                      [("type", JStr "login"); ("domain", auth_domain cfg);
                       ("secret", auth_secret cfg); ("device", auth_device cfg)]%string;
                    EWsSendText wid
                      [("type", JStr "start");
                       ("usage", JStr (if isPublic cfg then "public" else "private"))]%string;
                    ELog (LAccessible (JBool true))]
  /\ suspendCommand (tunnel w') = Some Sbuf
  /\ eofMarker (tunnel w') = Some Ebuf
  /\ isPrimary (tunnel w') = JBool true.
Proof.
  cbv zeta. unfold run. cbn [fold_left step].
  assert (H1 : on_ws_message cfg JSON_parse Buffer_from wid hello false w
               = Done (emit (EWsSendText wid (login_message cfg)) w)).
  { unfold on_ws_message. destruct hello as [|b l]; [discriminate|].
    unfold message_try. cbv zeta. rewrite Hb1, Hp1, Hhello. reflexivity. }
  rewrite H1. cbn [settle].
  set (w1 := emit (EWsSendText wid (login_message cfg)) w).
  assert (H2 : on_ws_message cfg JSON_parse Buffer_from wid login false w1
               = Done (emit (EWsSendText wid (start_message cfg))
                         (on_tunnel (set_isPrimary (JBool true)) w1))).
  { unfold on_ws_message. destruct login as [|b l]; [discriminate|].
    unfold message_try. cbv zeta. rewrite Hb2, Hp2, Hlogin, Hstatus, Hprimary.
    reflexivity. }
  rewrite H2. cbn [settle].
  set (w2 := emit (EWsSendText wid (start_message cfg))
               (on_tunnel (set_isPrimary (JBool true)) w1)).
  assert (H3 : on_ws_message cfg JSON_parse Buffer_from wid start false w2
               = Done (log (LAccessible (JBool true))
                         (on_tunnel (set_eofMarker (Some Ebuf))
                            (on_tunnel (set_suspendCommand (Some Sbuf)) w2)))).
  { unfold on_ws_message. destruct start as [|b l]; [discriminate|].
    unfold message_try. cbv zeta. rewrite Hb3, Hp3, Hstart, Hsuspend, Heof, HS, HE.
    reflexivity. }
  rewrite H3. cbn [settle]. subst w2 w1.
  repeat split. simpl. unfold login_message, start_message.
  now rewrite <- !app_assoc.
Qed.

Lemma handshake_sequencing_witness :
  let w := selfTunnel (Fixture.config false) 30000%Z in
  let w' := run (Fixture.config false) Fixture.parse Fixture.from
              [WsMessage 0 (Fixture.frame Fixture.hello_text) false;
               WsMessage 0 (Fixture.frame Fixture.login_text) false;
               WsMessage 0 (Fixture.frame Fixture.start_text) false] w in
  suspendCommand (tunnel w') = Some (Fixture.frame "S")
  /\ eofMarker (tunnel w') = Some (Fixture.frame "E").
Proof.
  cbv zeta.
  destruct (@handshake_sequencing (Fixture.config false) Fixture.parse Fixture.from 0
              (selfTunnel (Fixture.config false) 30000%Z)
              (Fixture.frame Fixture.hello_text) (Fixture.frame Fixture.login_text)
              (Fixture.frame Fixture.start_text)
              [("type", JStr "hello")]%string
              [("type", JStr "login"); ("status", JStr "ok"); ("primary", JBool true)]%string
              [("type", JStr "start"); ("suspend", JStr "S"); ("eof", JStr "E")]%string
              "S"%string "E"%string (Fixture.frame "S") (Fixture.frame "E")
              eq_refl eq_refl eq_refl eq_refl eq_refl eq_refl eq_refl eq_refl eq_refl
              eq_refl eq_refl eq_refl eq_refl eq_refl eq_refl)
    as (_ & HS & HE & _).
  split; assumption.
Defined.

(** ** Local failure *)

(** C8. Let the loop have written request Ri to local socket [s] and be
    collecting the response, with request [next] waiting in the queue.  When
    [s] errors, nothing is sent to the relay (the chunks collected so far
    are dropped) and the cached local socket is forgotten; at its next poll
    the loop takes [next] from the queue and opens a new local connection,
    on a socket other than [s]; once that one is connected, [next] is
    written to it.  The close event of [s], which the platform emits right
    after the error, changes none of this. *)
Theorem local_failure_isolation
    (cfg : Config) (JSON_parse : string -> option JsObj)
    (Buffer_from : JsVal -> option bytes)
    (w : World) (s : SockId) (chunks : list bytes) (chunksLast : nat)
    (next : bytes) (rest : list bytes)
    (Htask : tasks (rt w) = [TAwaitResponse s chunks false chunksLast true])
    (Hqueue : requestQueue (vars w) = next :: rest)
    (Hlistening : mem s (stripped (rt w)) = false)
    (Hold : s < nextSock (rt w))
    (Hfresh : mem (nextSock (rt w)) (stripped (rt w)) = false) :
  let s' := nextSock (rt w) in
  let w1 := step cfg JSON_parse Buffer_from w (LocalError s) in
  let w2 := step cfg JSON_parse Buffer_from w1 (Timer 0) in
  let w3 := step cfg JSON_parse Buffer_from w2 (LocalConnect s') in
  (out (rt w1) = out (rt w) ++ [ELog LLocalSocketError; ELog LLocalSocketError]
   /\ localSocket (vars w1) = None
   /\ requestQueue (vars w1) = next :: rest)
  /\ (out (rt w2) = out (rt w1) ++ [ENetConnect s']
      /\ s' <> s
      /\ localSocket (vars w2) = Some s'
      /\ requestQueue (vars w2) = rest
      /\ tasks (rt w2) = [TAwaitConnect next s'])
  /\ (out (rt w3) = out (rt w2) ++ [ELocalWrite s' next]
      /\ tasks (rt w3) = [TAwaitResponse s' [] false 0 true]
      /\ processing (vars w3) = processing (vars w))
  /\ out (rt (run cfg JSON_parse Buffer_from
                [LocalError s; LocalClose s; Timer 0; LocalConnect s'] w))
     = out (rt w) ++ [ELog LLocalSocketError; ELog LLocalSocketError;
                      ENetConnect s'; ELocalWrite s' next].
Proof.
  destruct_world w. simpl in Htask, Hqueue, Hlistening, Hold, Hfresh. subst.
  cbv zeta. unfold run. cbn [fold_left]. unfold step, on_local_error. simpl.
  rewrite Hlistening.
  unfold for_tasks. simpl. unfold onError, reject_connect, task_at. simpl.
  rewrite Nat.eqb_refl. simpl.
  unfold on_local_close. simpl. rewrite Hlistening.
  unfold on_timer, task_at. simpl. unfold loop_turn, usable_socket. simpl.
  unfold on_local_connect. simpl. rewrite Hfresh.
  unfold for_tasks. simpl. unfold resolve_connect, task_at. simpl.
  rewrite Nat.eqb_refl. simpl.
  repeat split; try reflexivity; try lia; rewrite <- ?app_assoc; reflexivity.
Qed.

Lemma local_failure_isolation_witness :
  let cfg := Fixture.config false in
  let w := run cfg Fixture.parse Fixture.from
             [WsMessage 0 (Fixture.frame "R1") true; WsMessage 0 (Fixture.frame "R2") true;
              LocalConnect 0; LocalData 0 (Fixture.frame "partial")]
             (Fixture.handshaken false) in
  let w3 := run cfg Fixture.parse Fixture.from [LocalError 0; Timer 0; LocalConnect 1] w in
  out (rt w3) = out (rt w)
                ++ [ELog LLocalSocketError; ELog LLocalSocketError; ENetConnect 1;
                    ELocalWrite 1 (Fixture.frame "R2")].
Proof.
  cbv zeta.
  set (w := run (Fixture.config false) Fixture.parse Fixture.from
              [WsMessage 0 (Fixture.frame "R1") true; WsMessage 0 (Fixture.frame "R2") true;
               LocalConnect 0; LocalData 0 (Fixture.frame "partial")]
              (Fixture.handshaken false)).
  assert (Htask : tasks (rt w) = [TAwaitResponse 0 [Fixture.frame "partial"] false 0 true])
    by (vm_compute; reflexivity).
  assert (Hqueue : requestQueue (vars w) = Fixture.frame "R2" :: [])
    by (vm_compute; reflexivity).
  assert (Hlistening : mem 0 (stripped (rt w)) = false) by (vm_compute; reflexivity).
  assert (Hold : 0 < nextSock (rt w)) by (vm_compute; lia).
  assert (Hfresh : mem (nextSock (rt w)) (stripped (rt w)) = false)
    by (vm_compute; reflexivity).
  destruct (@local_failure_isolation (Fixture.config false) Fixture.parse Fixture.from
              w 0 [Fixture.frame "partial"] 0 (Fixture.frame "R2") []
              Htask Hqueue Hlistening Hold Hfresh) as ((H1 & _) & (H2 & _) & (H3 & _) & _).
  replace (nextSock (rt w)) with 1 in H2, H3 by (vm_compute; reflexivity).
  unfold run. cbn [fold_left]. rewrite H3, H2, H1. now rewrite <- !app_assoc.
Defined.

(** ** FIFO forwarding *)

Example fifo_three :
  let cfg := Fixture.config false in
  let w0 := Fixture.handshaken false in
  let xs := [ {| request := Fixture.frame "R1"; idle_polls := 2;
                 bursts := [(Fixture.frame "a", [Fixture.frame "b"])];
                 finish := Quiet (Fixture.frame "c", []) |};
              {| request := Fixture.frame "R2"; idle_polls := 0; bursts := [];
                 finish := EndOfStream [Fixture.frame "d"] |};
              {| request := Fixture.frame "R3"; idle_polls := 1; bursts := [];
                 finish := Quiet (Fixture.frame "e", [Fixture.frame "f"]) |} ] in
  exchange_log (out (rt (run cfg Fixture.parse Fixture.from
                       (session_events 0 None 0 1 [2] xs) w0)))
  = [inl (Fixture.frame "R1"); inr (Fixture.frame "abcE");
     inl (Fixture.frame "R2"); inr (Fixture.frame "dE");
     inl (Fixture.frame "R3"); inr (Fixture.frame "efE")].
Proof. vm_compute. reflexivity. Qed.

(** The claim C1 as written fails when an app instance was given to
    [selfTunnel]: the second request arrives while the loop is running and a
    local socket exists, so it is written straight to that socket, before the
    first request, and no response of its own is ever sent for it. *)
Lemma bypass_breaks_fifo :
  let cfg := Fixture.config true in
  let w0 := Fixture.handshaken true in
  let R1 := Fixture.frame "R1" in
  let R2 := Fixture.frame "R2" in
  let w := run cfg Fixture.parse Fixture.from
             [WsMessage 0 R1 true; WsMessage 0 R2 true; LocalConnect 0;
              LocalData 0 (Fixture.frame "resp"); Timer 0; Timer 0] w0 in
  exchange_log (out (rt w)) = [inl R2; inl R1; inr (Fixture.frame "respE")]
  /\ local_writes (out (rt w)) <> [R1; R2]
  /\ length (relay_responses (out (rt w))) <> 2
  /\ requestQueue (vars w) = [] /\ processing (vars w) = false.
Proof. vm_compute. repeat split; discriminate. Qed.

Section Fifo.

Variable cfg : Config.
Variable JSON_parse : string -> option JsObj.
Variable Buffer_from : JsVal -> option bytes.
Variable wid : WsId.
Variables marker eof : bytes.
Variable t : Tunnel.
Variable st : list SockId.
Variable nw : WsId.
Variable rtm : nat.
Hypothesis Happ : app cfg = false.
Hypothesis Hws : ws t = Some wid.
Hypothesis Heof : eofMarker t = Some eof.
Hypothesis Hmarker : suspendCommand t = Some marker.

#[local] Abbreviation step' := (step cfg JSON_parse Buffer_from).
#[local] Abbreviation serving := (serving_world t st nw rtm).
#[local] Abbreviation idle := (idle_world t st nw rtm).
#[local] Abbreviation answered := (answered_world t st nw rtm wid eof).
#[local] Abbreviation run' := (run cfg JSON_parse Buffer_from).

Lemma run_app evs1 evs2 w : run' (evs1 ++ evs2) w = run' evs2 (run' evs1 w).
Proof. unfold run. apply fold_left_app. Qed.

Lemma run_cons ev evs w : run' (ev :: evs) w = run' evs (step' w ev).
Proof. reflexivity. Qed.

Lemma data_events cur ls q conn d fresh o cp cl (Hst : mem cur st = false) :
  forall cs' cs,
  run' (map (LocalData cur) cs')
       (serving ls q conn d fresh (TAwaitResponse cur cs cp cl true) o)
  = serving ls q conn d fresh (TAwaitResponse cur (cs ++ cs') cp cl true) o.
Proof.
  induction cs' as [|c cs' IH]; intros cs; simpl.
  - now rewrite app_nil_r.
  - unfold on_local_data. simpl. rewrite Hst. unfold for_tasks. simpl.
    unfold onData, task_at. simpl. rewrite Nat.eqb_refl.
    change (set_task 0 ?x (serving ls q conn d fresh ?y o)) with (serving ls q conn d fresh x o).
    rewrite IH. now rewrite <- app_assoc.
Qed.

Lemma idle_poll_events cur ls q conn d fresh o n :
  run' (repeat (Timer 0) n)
       (serving ls q conn d fresh (TAwaitResponse cur [] false 0 true) o)
  = serving ls q conn d fresh (TAwaitResponse cur [] false 0 true) o.
Proof. induction n as [|n IH]; simpl; [reflexivity|exact IH]. Qed.

Lemma poll_after_chunks cur ls q conn d fresh o cs cl :
  cl < length cs ->
  step' (serving ls q conn d fresh (TAwaitResponse cur cs false cl true) o) (Timer 0)
  = serving ls q conn d fresh (TAwaitResponse cur cs false (length cs) true) o.
Proof.
  intros Hlt. simpl. unfold on_timer, task_at. simpl.
  replace (Nat.eqb cl (length cs)) with false by (symmetry; apply Nat.eqb_neq; lia).
  rewrite orb_true_r. reflexivity.
Qed.

Lemma burst_run cur ls q conn d fresh o (Hst : mem cur st = false) b cs cl :
  cl <= length cs ->
  run' (burst_events cur b)
       (serving ls q conn d fresh (TAwaitResponse cur cs false cl true) o)
  = serving ls q conn d fresh
      (TAwaitResponse cur (cs ++ burst_chunks b) false (length (cs ++ burst_chunks b)) true) o.
Proof.
  intros Hle. unfold burst_events. rewrite run_app, data_events by exact Hst.
  unfold run. cbn [fold_left]. apply poll_after_chunks.
  rewrite length_app. unfold burst_chunks. simpl. lia.
Qed.

Lemma bursts_run cur ls q conn d fresh o (Hst : mem cur st = false) : forall bs cs cl,
  cl <= length cs ->
  exists cl',
    cl' <= length (cs ++ flat_map burst_chunks bs)
    /\ run' (flat_map (burst_events cur) bs)
             (serving ls q conn d fresh (TAwaitResponse cur cs false cl true) o)
        = serving ls q conn d fresh
            (TAwaitResponse cur (cs ++ flat_map burst_chunks bs) false cl' true) o.
Proof.
  induction bs as [|b bs IH]; intros cs cl Hle.
  - exists cl. simpl. rewrite app_nil_r. auto.
  - cbn [flat_map]. rewrite run_app, burst_run by assumption.
    destruct (IH (cs ++ burst_chunks b) (length (cs ++ burst_chunks b)) (Nat.le_refl _))
      as (cl' & Hcl' & Hrun).
    exists cl'. rewrite app_assoc. auto.
Qed.

Lemma Buffer_concat_snoc cs :
  Buffer_concat (cs ++ [eof]) = Buffer_concat cs ++ eof.
Proof. unfold Buffer_concat. rewrite concat_app. simpl. now rewrite app_nil_r. Qed.

Lemma exchange_run cur q d fresh o (Hst : mem cur st = false) x :
  exists cl,
    run' (exchange_events cur x)
         (serving (Some cur) q false d fresh (TAwaitResponse cur [] false 0 true) o)
    = loop_turn 0
        match finish x with
        | Quiet _ => answered (Some cur) q d fresh cur (response_chunks x) cl o
        | EndOfStream _ => answered None q (cur :: d) fresh cur (response_chunks x) cl o
        end.
Proof.
  unfold exchange_events, response_chunks.
  rewrite run_app, idle_poll_events, run_app.
  destruct (bursts_run cur (Some cur) q false d fresh o Hst (bursts x) [] (Nat.le_0_l _))
    as (cl & Hcl & ->). rewrite app_nil_l.
  destruct (finish x) as [last|tail].
  - rewrite run_app, burst_run by assumption.
    set (cs := flat_map burst_chunks (bursts x) ++ burst_chunks last).
    exists (length cs). unfold run. cbn [fold_left step]. unfold on_timer, task_at. simpl.
    rewrite Nat.eqb_refl. simpl.
    assert (Hne : Nat.eqb (length cs) 0 = false).
    { apply Nat.eqb_neq. subst cs. rewrite length_app. unfold burst_chunks. simpl. lia. }
    rewrite Hne. simpl. unfold finalize. simpl. rewrite Heof.
    unfold handleTunnelResponse. simpl. rewrite Hws. simpl.
    rewrite Buffer_concat_snoc. reflexivity.
  - rewrite run_app, data_events by assumption.
    exists cl. unfold run. cbn [fold_left step]. unfold on_local_end. simpl. rewrite Hst.
    simpl. unfold onEnd, task_at. simpl. rewrite Nat.eqb_refl.
    unfold finalize. simpl. rewrite Heof. unfold handleTunnelResponse. simpl.
    rewrite Hws. simpl. unfold on_local_close. simpl. rewrite Hst.
    unfold on_timer, task_at. simpl. rewrite Buffer_concat_snoc. reflexivity.
Qed.

Lemma exchange_log_app es1 es2 :
  exchange_log (es1 ++ es2) = exchange_log es1 ++ exchange_log es2.
Proof. unfold exchange_log. apply flat_map_app. Qed.

Lemma mem_cons s a l : mem s (a :: l) = Nat.eqb s a || mem s l.
Proof. reflexivity. Qed.

Lemma script_cons cur fresh x xs :
  script cur fresh (x :: xs)
  = exchange_events cur x
    ++ match finish x, xs with
       | Quiet _, _ => script cur fresh xs
       | EndOfStream _, [] => []
       | EndOfStream _, _ :: _ => LocalConnect fresh :: script fresh (S fresh) xs
       end.
Proof. reflexivity. Qed.

Lemma script_run : forall xs x cur fresh d o,
  cur < fresh ->
  mem cur d = false ->
  mem cur st = false ->
  (forall s, fresh <= s -> mem s d = false /\ mem s st = false) ->
  let wf := run' (script cur fresh (x :: xs))
              (serving (Some cur) (map request xs) false d fresh
                 (TAwaitResponse cur [] false 0 true) o) in
  exchange_log (out (rt wf))
  = exchange_log o ++ inr (Buffer_concat (response_chunks x) ++ eof)
                      :: flat_map (pair_log eof) xs
  /\ requestQueue (vars wf) = []
  /\ processing (vars wf) = false.
Proof.
  induction xs as [|y ys IH]; intros x cur fresh d o Hlt Hd Hst Hfresh; cbv zeta.
  - cbn [script map]. destruct (exchange_run cur [] d fresh o Hst x) as (cl & Hrun).
    assert (Hend : forall ls d', 
               let wf := loop_turn 0 (answered ls [] d' fresh cur (response_chunks x) cl o) in
               exchange_log (out (rt wf))
               = exchange_log o ++ [inr (Buffer_concat (response_chunks x) ++ eof)]
               /\ requestQueue (vars wf) = [] /\ processing (vars wf) = false).
    { intros ls d'. cbv zeta. unfold loop_turn, answered_world, serving_world. simpl.
      rewrite exchange_log_app. auto. }
    destruct (finish x); rewrite app_nil_r, Hrun; apply Hend.
  - rewrite (script_cons cur fresh x (y :: ys)). cbn [map]. rewrite run_app.
    destruct (exchange_run cur (request y :: map request ys) d fresh o Hst x)
      as (cl & ->).
    destruct (finish x) as [last|tail]; cbv beta iota.
    + (* the socket is kept: the next request is written at once *)
      assert (Hturn : loop_turn 0
                        (answered (Some cur) (request y :: map request ys) d fresh cur
                           (response_chunks x) cl o)
                      = serving (Some cur) (map request ys) false d fresh
                          (TAwaitResponse cur [] false 0 true)
                          ((o ++ [EWsSendBinary wid (Buffer_concat (response_chunks x) ++ eof)])
                           ++ [ELocalWrite cur (request y)])).
      { unfold loop_turn, answered_world, serving_world, usable_socket. simpl. rewrite Hd. reflexivity. }
      rewrite Hturn.
      set (o1 := (o ++ [EWsSendBinary wid (Buffer_concat (response_chunks x) ++ eof)])
                 ++ [ELocalWrite cur (request y)]).
      destruct (IH y cur fresh d o1 Hlt Hd Hst Hfresh) as (Hlog & Hq & Hp).
      cbv zeta in Hlog, Hq, Hp. rewrite Hlog, Hq, Hp. subst o1.
      rewrite !exchange_log_app. simpl. rewrite <- !app_assoc. auto.
    + (* the socket is gone: a new one is opened and connects *)
      destruct (Hfresh fresh (Nat.le_refl _)) as [Hfd Hfst].
      assert (Hturn : step'
                        (loop_turn 0
                           (answered None (request y :: map request ys) (cur :: d) fresh cur
                              (response_chunks x) cl o))
                        (LocalConnect fresh)
                      = serving (Some fresh) (map request ys) false (cur :: d) (S fresh)
                          (TAwaitResponse fresh [] false 0 true)
                          ((o ++ [EWsSendBinary wid (Buffer_concat (response_chunks x) ++ eof)])
                           ++ [ENetConnect fresh; ELocalWrite fresh (request y)])).
      { unfold loop_turn, answered_world, serving_world, usable_socket. simpl.
        unfold on_local_connect. simpl. rewrite Hfst. simpl.
        unfold for_tasks. simpl. unfold resolve_connect, task_at. simpl.
        rewrite Nat.eqb_refl. simpl.
        unfold begin_exchange, set_task, emit, on_vars, on_rt. simpl.
        rewrite <- !app_assoc. reflexivity. }
      change (run' (LocalConnect fresh :: script fresh (S fresh) (y :: ys)) ?w)
        with (run' (script fresh (S fresh) (y :: ys)) (step' w (LocalConnect fresh))).
      rewrite Hturn.
      set (o1 := (o ++ [EWsSendBinary wid (Buffer_concat (response_chunks x) ++ eof)])
                 ++ [ENetConnect fresh; ELocalWrite fresh (request y)]).
      assert (Hfresh' : forall s, S fresh <= s -> mem s (cur :: d) = false /\ mem s st = false).
      { intros s Hs. destruct (Hfresh s) as [A B]; [lia|]. split; [|exact B].
        rewrite mem_cons, A. replace (Nat.eqb s cur) with false; [reflexivity|].
        symmetry. apply Nat.eqb_neq. lia. }
      assert (Hd' : mem fresh (cur :: d) = false).
      { rewrite mem_cons, Hfd. replace (Nat.eqb fresh cur) with false; [reflexivity|].
        symmetry. apply Nat.eqb_neq. lia. }
      destruct (IH y fresh (S fresh) (cur :: d) o1 (Nat.lt_succ_diag_r _) Hd' Hfst Hfresh')
        as (Hlog & Hq & Hp).
      cbv zeta in Hlog, Hq, Hp. rewrite Hlog, Hq, Hp. subst o1.
      rewrite !exchange_log_app. simpl. rewrite <- !app_assoc. auto.
Qed.

Lemma arrivals_run ls conn d fresh task o : forall rs q,
  Forall (fun r => r <> [] /\ ~ occurs_in marker r) rs ->
  run' (map (fun r => WsMessage wid r true) rs) (serving ls q conn d fresh task o)
  = serving ls (q ++ rs) conn d fresh task o.
Proof.
  induction rs as [|r rs IH]; intros q Hall; simpl.
  - now rewrite app_nil_r.
  - inversion Hall as [|? ? [Hne Hno] Hall']; subst.
    rewrite binary_message by exact Hne.
    destruct (@suspend_or_forward_marker cfg r marker (serving ls q conn d fresh task o) Hmarker)
      as [_ Hfw].
    rewrite (Hfw Hno). simpl. unfold handleTunnelRequest. rewrite Happ. simpl.
    change (on_vars _ (serving ls q conn d fresh task o))
      with (serving ls (q ++ [r]) conn d fresh task o).
    rewrite IH by exact Hall'. now rewrite <- app_assoc.
Qed.

Lemma first_arrival d fresh o r :
  r <> [] -> ~ occurs_in marker r ->
  step' (idle None d fresh o) (WsMessage wid r true)
  = serving (Some fresh) [] true d (S fresh) (TAwaitConnect r fresh)
      (o ++ [ENetConnect fresh]).
Proof.
  intros Hne Hno. cbn [step]. rewrite binary_message by exact Hne.
  destruct (@suspend_or_forward_marker cfg r marker (idle None d fresh o) Hmarker)
    as [_ Hfw].
  rewrite (Hfw Hno). cbn [settle]. unfold handleTunnelRequest. rewrite Happ. reflexivity.
Qed.

Lemma first_arrival_cached s d fresh o r :
  r <> [] -> ~ occurs_in marker r -> mem s d = false ->
  step' (idle (Some s) d fresh o) (WsMessage wid r true)
  = serving (Some s) [] false d fresh (TAwaitResponse s [] false 0 true)
      (o ++ [ELocalWrite s r]).
Proof.
  intros Hne Hno Hd. cbn [step]. rewrite binary_message by exact Hne.
  destruct (@suspend_or_forward_marker cfg r marker (idle (Some s) d fresh o) Hmarker)
    as [_ Hfw].
  rewrite (Hfw Hno). cbn [settle]. unfold handleTunnelRequest. rewrite Happ. simpl.
  unfold processRequestQueue. simpl. unfold loop_turn, usable_socket. simpl.
  rewrite Hd. reflexivity.
Qed.

Lemma connect_run s q d fresh o r :
  mem s st = false ->
  step' (serving (Some s) q true d fresh (TAwaitConnect r s) o) (LocalConnect s)
  = serving (Some s) q false d fresh (TAwaitResponse s [] false 0 true)
      (o ++ [ELocalWrite s r]).
Proof.
  intros Hst. cbn [step]. unfold on_local_connect. simpl. rewrite Hst. simpl.
  unfold for_tasks. simpl. unfold resolve_connect, task_at. simpl.
  rewrite Nat.eqb_refl. reflexivity.
Qed.

Lemma later_arrivals rs :
  Forall (fun x => request x <> [] /\ ~ occurs_in marker (request x)) rs ->
  Forall (fun r => r <> [] /\ ~ occurs_in marker r) (map request rs).
Proof. intros H. induction H; simpl; constructor; auto. Qed.

Lemma waiting_run ls conn d fresh s li o : forall evs q,
  Forall (waiting_event wid marker) evs ->
  run' evs (serving ls q conn d fresh (TAwaitResponse s [] false 0 li) o)
  = serving ls (q ++ arrivals_of evs) conn d fresh (TAwaitResponse s [] false 0 li) o.
Proof.
  induction evs as [|ev evs IH]; intros q Hall.
  - simpl. now rewrite app_nil_r.
  - inversion Hall as [|? ? Hev Hall']; subst.
    rewrite (run_cons ev).
    destruct Hev as [->|(req & -> & Hne & Hno)].
    + change (step' (serving ls q conn d fresh (TAwaitResponse s [] false 0 li) o) (Timer 0))
        with (serving ls q conn d fresh (TAwaitResponse s [] false 0 li) o).
      rewrite IH by exact Hall'. reflexivity.
    + pose proof (@arrivals_run ls conn d fresh (TAwaitResponse s [] false 0 li) o
                    [req] q (Forall_cons _ (conj Hne Hno) (Forall_nil _))) as Ha.
      change (run' (map (fun r => WsMessage wid r true) [req]) ?w)
        with (step' w (WsMessage wid req true)) in Ha.
      unfold bytes, SockId in *. rewrite Ha, IH by exact Hall'.
      cbn [arrivals_of flat_map]. now rewrite <- app_assoc.
Qed.

Lemma waits_waiting : forall xs gaps,
  Forall (fun x => request x <> [] /\ ~ occurs_in marker (request x)) xs ->
  Forall (waiting_event wid marker) (waits wid gaps xs).
Proof.
  induction xs as [|x xs IH]; intros gaps Hall; cbn [waits]; [constructor|].
  inversion Hall as [|? ? [Hne Hno] Hall']; subst.
  apply Forall_app. split.
  - apply Forall_forall. intros ev Hin. apply repeat_spec in Hin. left. exact Hin.
  - constructor; [|now apply IH].
    right. exists (request x). auto.
Qed.

Lemma arrivals_of_app evs1 evs2 :
  arrivals_of (evs1 ++ evs2) = arrivals_of evs1 ++ arrivals_of evs2.
Proof. apply flat_map_app. Qed.

Lemma arrivals_of_polls n : arrivals_of (repeat (Timer 0) n) = [].
Proof. induction n as [|n IH]; [reflexivity|exact IH]. Qed.

Lemma arrivals_of_waits : forall xs gaps,
  arrivals_of (waits wid gaps xs) = map request xs.
Proof.
  induction xs as [|x xs IH]; intros gaps; cbn [waits map]; [reflexivity|].
  rewrite arrivals_of_app, arrivals_of_polls. cbn [Datatypes.app].
  change (arrivals_of (arrive wid x :: ?l)) with (request x :: arrivals_of l).
  now rewrite IH.
Qed.

(** The arrivals up to the first chunk of the first response: whenever the
    later requests come, the first request has been written to the local
    server and the others wait in the queue, in the order of arrival. *)
Lemma arrival_run ls d fresh o early gaps x xs :
  Forall (fun x => request x <> [] /\ ~ occurs_in marker (request x)) (x :: xs) ->
  match ls with
  | Some s => mem s d = false
  | None => mem fresh st = false
  end ->
  run' (arrival_events wid ls fresh early gaps x xs) (idle ls d fresh o)
  = match ls with
    | Some s =>
        serving (Some s) (map request xs) false d fresh
          (TAwaitResponse s [] false 0 true) (o ++ [ELocalWrite s (request x)])
    | None =>
        serving (Some fresh) (map request xs) false d (S fresh)
          (TAwaitResponse fresh [] false 0 true)
          ((o ++ [ENetConnect fresh]) ++ [ELocalWrite fresh (request x)])
    end.
Proof.
  intros Hreqs Hls.
  inversion Hreqs as [|? ? [Hne Hno] Hreqs']; subst.
  unfold arrival_events. rewrite (run_cons (arrive wid x)).
  change (arrive wid x) with (WsMessage wid (request x) true).
  destruct ls as [s|].
  - rewrite first_arrival_cached by assumption.
    rewrite waiting_run by now apply waits_waiting.
    now rewrite arrivals_of_waits.
  - rewrite first_arrival by assumption.
    assert (Hsplit : Forall (fun x => request x <> [] /\ ~ occurs_in marker (request x))
                       (firstn early xs)
                     /\ Forall (fun x => request x <> [] /\ ~ occurs_in marker (request x))
                          (skipn early xs)).
    { apply Forall_app. now rewrite firstn_skipn. }
    destruct Hsplit as [Hearly Hlate].
    rewrite run_app.
    change (map (arrive wid) (firstn early xs))
      with (map (fun x => WsMessage wid (request x) true) (firstn early xs)).
    rewrite <- (map_map request (fun r => WsMessage wid r true)).
    rewrite arrivals_run by now apply later_arrivals.
    rewrite app_nil_l, (run_cons (LocalConnect fresh)).
    rewrite connect_run by exact Hls.
    rewrite waiting_run by now apply waits_waiting.
    rewrite arrivals_of_waits, <- map_app, firstn_skipn. reflexivity.
Qed.

Lemma session_run ls d fresh o early gaps xs :
  Forall (fun x => request x <> [] /\ ~ occurs_in marker (request x)) xs ->
  match ls with
  | Some s => s < fresh /\ mem s d = false /\ mem s st = false
  | None => True
  end ->
  (forall s, fresh <= s -> mem s d = false /\ mem s st = false) ->
  let w := run' (session_events wid ls fresh early gaps xs) (idle ls d fresh o) in
  exchange_log (out (rt w)) = exchange_log o ++ flat_map (pair_log eof) xs
  /\ requestQueue (vars w) = []
  /\ processing (vars w) = false.
Proof.
  intros Hreqs Hls Hfresh. cbv zeta. destruct xs as [|x xs].
  - simpl. rewrite app_nil_r. auto.
  - unfold session_events. rewrite run_app.
    destruct (Hfresh fresh (Nat.le_refl _)) as [Hfd Hfst].
    destruct ls as [s|].
    + destruct Hls as (Hlt & Hd & Hst).
      rewrite arrival_run by assumption.
      destruct (@script_run xs x s fresh d (o ++ [ELocalWrite s (request x)])
                  Hlt Hd Hst Hfresh) as (Hlog & Hq & Hp).
      cbv zeta in Hlog, Hq, Hp. rewrite Hlog, Hq, Hp.
      rewrite !exchange_log_app. simpl. rewrite <- !app_assoc. auto.
    + rewrite arrival_run by assumption.
      assert (Hfresh' : forall s, S fresh <= s -> mem s d = false /\ mem s st = false)
        by (intros s Hs; apply Hfresh; lia).
      destruct (@script_run xs x fresh (S fresh) d
                  ((o ++ [ENetConnect fresh]) ++ [ELocalWrite fresh (request x)])
                  (Nat.lt_succ_diag_r fresh) Hfd Hfst Hfresh') as (Hlog & Hq & Hp).
      cbv zeta in Hlog, Hq, Hp. rewrite Hlog, Hq, Hp.
      rewrite !exchange_log_app. simpl. rewrite <- !app_assoc. auto.
Qed.

End Fifo.

Lemma lefts_app {A B} (l1 l2 : list (A + B)) : lefts (l1 ++ l2) = lefts l1 ++ lefts l2.
Proof. apply flat_map_app. Qed.

Lemma rights_app {A B} (l1 l2 : list (A + B)) : rights (l1 ++ l2) = rights l1 ++ rights l2.
Proof. apply flat_map_app. Qed.

Lemma local_writes_log es : local_writes es = lefts (exchange_log es).
Proof.
  induction es as [|e es IH]; [reflexivity|].
  unfold local_writes, exchange_log, lefts in *. cbn [flat_map].
  rewrite flat_map_app, IH. destruct e; reflexivity.
Qed.

Lemma relay_responses_log es : relay_responses es = rights (exchange_log es).
Proof.
  induction es as [|e es IH]; [reflexivity|].
  unfold relay_responses, exchange_log, rights in *. cbn [flat_map].
  rewrite flat_map_app, IH. destruct e; reflexivity.
Qed.

Lemma lefts_pair_log eof xs : lefts (flat_map (pair_log eof) xs) = map request xs.
Proof. induction xs as [|x xs IH]; simpl; [reflexivity|now rewrite <- IH]. Qed.

Lemma rights_pair_log eof xs :
  rights (flat_map (pair_log eof) xs)
  = map (fun x => Buffer_concat (response_chunks x) ++ eof) xs.
Proof. induction xs as [|x xs IH]; simpl; [reflexivity|now rewrite <- IH]. Qed.

(** C1, amended. Let no app instance have been given to [selfTunnel], let
    the session be established and idle, and let the non-empty binary
    payloads R1..Rn, none of which contains the suspend marker, arrive on the
    relay socket before the local server has answered anything, at whatever
    times: while the local connection is still being opened ([early] of those
    after R1), or after R1 was written, between the polls of the loop that
    waits for the first chunk ([gaps]).  If the local
    server answers every request (the response ends with the stream, or goes
    quiet between two polls after at least one chunk), the loop writes
    R1..Rn to the local server in the order of arrival, each response is sent
    after its request was written and before the next request is, so the
    responses go back in the order R1..Rn, each once, each with the stored
    end-of-response marker appended; in the end the queue is empty and the
    loop has stopped. *)
Theorem fifo_forwarding
    (cfg : Config) (JSON_parse : string -> option JsObj)
    (Buffer_from : JsVal -> option bytes)
    (wid : WsId) (marker eof : bytes) (w0 : World) (xs : list Exchange)
    (early : nat) (gaps : list nat)
    (Happ : app cfg = false)
    (Hready : ready wid marker eof w0)
    (Hreqs : Forall (fun x => request x <> [] /\ ~ occurs_in marker (request x)) xs) :
  let w := run cfg JSON_parse Buffer_from
             (session_events wid (localSocket (vars w0)) (nextSock (rt w0)) early gaps xs)
             w0 in
  exchange_log (out (rt w))
  = exchange_log (out (rt w0))
    ++ flat_map (fun x => [inl (request x); inr (Buffer_concat (response_chunks x) ++ eof)]) xs
  /\ local_writes (out (rt w)) = local_writes (out (rt w0)) ++ map request xs
  /\ relay_responses (out (rt w))
     = relay_responses (out (rt w0))
       ++ map (fun x => Buffer_concat (response_chunks x) ++ eof) xs
  /\ requestQueue (vars w) = []
  /\ processing (vars w) = false.
Proof.
  cbv zeta.
  assert (Hmain :
    let w := run cfg JSON_parse Buffer_from
             (session_events wid (localSocket (vars w0)) (nextSock (rt w0)) early gaps xs)
             w0 in
    exchange_log (out (rt w)) = exchange_log (out (rt w0)) ++ flat_map (pair_log eof) xs
    /\ requestQueue (vars w) = [] /\ processing (vars w) = false).
  { cbv zeta. destruct Hready as ((Hws & Hmarker & Heof) & (Hq & Hc & Hp & Ht) & Hls & Hfresh).
    destruct w0 as [t [ls q conn proc] [d st ns nws tk rtm o]].
    simpl in Hws, Hmarker, Heof, Hls, Hq, Hc, Hp, Ht, Hfresh. subst.
    exact (@session_run cfg JSON_parse Buffer_from wid marker eof t st nws rtm
             Happ Hws Heof Hmarker ls d ns o early gaps xs Hreqs Hls Hfresh). }
  cbv zeta in Hmain. destruct Hmain as (Hlog & Hq & Hp).
  split; [exact Hlog|]. split; [|split; [|auto]].
  - now rewrite !local_writes_log, Hlog, lefts_app, lefts_pair_log.
  - now rewrite !relay_responses_log, Hlog, rights_app, rights_pair_log.
Qed.

Lemma fifo_forwarding_witness :
  let cfg := Fixture.config false in
  let w0 := Fixture.handshaken false in
  let xs := [ {| request := Fixture.frame "R1"; idle_polls := 2;
                 bursts := [(Fixture.frame "a", [Fixture.frame "b"])];
                 finish := Quiet (Fixture.frame "c", []) |};
              {| request := Fixture.frame "R2"; idle_polls := 0; bursts := [];
                 finish := EndOfStream [Fixture.frame "d"] |};
              {| request := Fixture.frame "R3"; idle_polls := 1; bursts := [];
                 finish := Quiet (Fixture.frame "e", [Fixture.frame "f"]) |} ] in
  let w := run cfg Fixture.parse Fixture.from (session_events 0 None 0 1 [2] xs) w0 in
  local_writes (out (rt w)) = [Fixture.frame "R1"; Fixture.frame "R2"; Fixture.frame "R3"]
  /\ relay_responses (out (rt w))
     = [Fixture.frame "abcE"; Fixture.frame "dE"; Fixture.frame "efE"].
Proof.
  cbv zeta.
  set (xs := [ {| request := Fixture.frame "R1"; idle_polls := 2;
                  bursts := [(Fixture.frame "a", [Fixture.frame "b"])];
                  finish := Quiet (Fixture.frame "c", []) |};
               {| request := Fixture.frame "R2"; idle_polls := 0; bursts := [];
                  finish := EndOfStream [Fixture.frame "d"] |};
               {| request := Fixture.frame "R3"; idle_polls := 1; bursts := [];
                  finish := Quiet (Fixture.frame "e", [Fixture.frame "f"]) |} ]).
  assert (Hready : ready 0 (Fixture.frame "S") (Fixture.frame "E") (Fixture.handshaken false)).
  { split; [|split; [|split]].
    - vm_compute. auto.
    - vm_compute. auto.
    - vm_compute. exact I.
    - intros s _. split; vm_compute; reflexivity. }
  assert (Hnot : forall r : bytes,
             index_from 0 r (Fixture.frame "S") = (-1)%Z -> ~ occurs_in (Fixture.frame "S") r).
  { intros r Hr Ho. apply (@index_from_found r (Fixture.frame "S") 0 (Z.le_refl 0)) in Ho.
    contradiction. }
  assert (Hreqs : Forall (fun x => request x <> []
                                   /\ ~ occurs_in (Fixture.frame "S") (request x)) xs).
  { repeat constructor; try (vm_compute; discriminate);
      apply Hnot; vm_compute; reflexivity. }
  destruct (@fifo_forwarding (Fixture.config false) Fixture.parse Fixture.from 0
              (Fixture.frame "S") (Fixture.frame "E") (Fixture.handshaken false) xs
              1 [2] eq_refl Hready Hreqs) as (_ & Hw & Hr & _).
  change (localSocket (vars (Fixture.handshaken false))) with (@None SockId) in Hw, Hr.
  change (nextSock (rt (Fixture.handshaken false))) with 0 in Hw, Hr.
  split; [rewrite Hw|rewrite Hr]; vm_compute; reflexivity.
Defined.

(** * Further properties of the client *)
Section Reconnects.

Variable cfg : Config.
Variable JSON_parse : string -> option JsObj.
Variable Buffer_from : JsVal -> option bytes.

#[local] Abbreviation step1 := (step cfg JSON_parse Buffer_from).
#[local] Abbreviation run1 := (run cfg JSON_parse Buffer_from).

(** Every handler but the transport-close handler and [close()] leaves the
    reconnect interval and the reconnects armed so far as they are. *)
Lemma step_same_reconnect ev w :
  is_ws_close ev = false -> is_call_close ev = false ->
  same_reconnect w (step1 w ev).
Proof.
  intros Hc Hk. destruct ev; simpl; try discriminate.
  - unfold on_ws_open. peel.
  - apply same_reconnect_settle, same_reconnect_on_ws_message.
  - unfold on_ws_error. eapply same_reconnect_trans; [|apply same_reconnect_cleanup]. peel.
  - unfold on_ws_pong. peel.
  - unfold on_ping_tick. destruct (pingIntervalId _); [|peel]. destruct (alive _); peel.
  - unfold on_reconnect_timer. destruct (reconnectTimers _); [peel|].
    eapply same_reconnect_trans; [|apply same_reconnect_connectToTunnel]. peel.
  - apply same_reconnect_settle. unfold on_local_connect.
    destruct (mem _ _); [peel|]. destruct (localSocket _); [|peel]. simpl.
    eapply same_reconnect_trans; [|apply same_reconnect_for_tasks].
    + peel.
    + intros; apply same_reconnect_resolve_connect.
  - unfold on_local_data. destruct (mem _ _); [peel|].
    apply same_reconnect_for_tasks. intros; apply same_reconnect_onData.
  - apply same_reconnect_settle. unfold on_local_end. destruct (mem _ _); [peel|].
    apply same_reconnect_for_tasks_c. intros; apply same_reconnect_onEnd.
  - unfold on_local_error. destruct (mem _ _); [peel|]. cbv zeta.
    eapply same_reconnect_trans; [|apply same_reconnect_for_tasks].
    + eapply same_reconnect_trans; [|apply same_reconnect_for_tasks].
      * peel.
      * intros; apply same_reconnect_onError.
    + intros; apply same_reconnect_reject_connect.
  - unfold on_local_close. destruct (mem _ _); peel.
  - apply same_reconnect_settle, same_reconnect_on_timer.
  - unfold pause. destruct (ws _); peel.
  - unfold resume. destruct (ws _); peel.
Qed.

Lemma autoConnectInterval_on_ws_close wid w :
  autoConnectInterval (tunnel (on_ws_close wid w)) = autoConnectInterval (tunnel w).
Proof.
  unfold on_ws_close. cbv zeta.
  destruct (cleanup_keeps (log LTunnelClosed w)) as (_ & _ & _ & Ha & _).
  destruct (_ <? _)%Z; simpl; exact Ha.
Qed.

Lemma scheduled_close w : scheduled (close w) = scheduled w.
Proof.
  unfold close. cbv zeta.
  destruct (same_reconnect_cleanup w) as [_ Hs].
  destruct (ws (tunnel (cleanup w))); [|exact Hs].
  rewrite <- Hs. unfold scheduled. simpl. rewrite filter_app. simpl.
  now rewrite app_nil_r.
Qed.

Lemma step_scheduled ev w :
  scheduled (step1 w ev)
  = (if is_ws_close ev && (10000 <? autoConnectInterval (tunnel w))%Z then 1 else 0)
    + scheduled w.
Proof.
  destruct (is_ws_close ev) eqn:Ec.
  - destruct ev; try discriminate. simpl. apply scheduled_on_ws_close.
  - destruct (is_call_close ev) eqn:Ek.
    + destruct ev; try discriminate. simpl. apply scheduled_close.
    + apply (step_same_reconnect ev w Ec Ek).
Qed.

Lemma step_autoConnectInterval ev w :
  autoConnectInterval (tunnel (step1 w ev))
  = if is_call_close ev then 0%Z else autoConnectInterval (tunnel w).
Proof.
  destruct (is_call_close ev) eqn:Ek.
  - destruct ev; try discriminate. reflexivity.
  - destruct (is_ws_close ev) eqn:Ec.
    + destruct ev; try discriminate. simpl. apply autoConnectInterval_on_ws_close.
    + apply (step_same_reconnect ev w Ec Ek).
Qed.

(** X1. As long as [close()] is not called, the reconnect interval keeps the
    value the tunnel was built with, and when that value exceeds 10000 the
    reconnects armed during a run are exactly the transport close events of
    the run: each arms one, and no other event arms any. *)
Theorem reconnects_are_the_closes (evs : list Event) : forall (w : World)
    (Hinterval : (10000 < autoConnectInterval (tunnel w))%Z)
    (Hnoclose : forallb (fun ev => negb (is_call_close ev)) evs = true),
  autoConnectInterval (tunnel (run1 evs w)) = autoConnectInterval (tunnel w)
  /\ scheduled (run1 evs w) = scheduled w + length (filter is_ws_close evs).
Proof.
  induction evs as [|ev evs IH]; intros w Hi Hn; simpl.
  - split; [reflexivity|lia].
  - simpl in Hn. apply andb_true_iff in Hn. destruct Hn as [Hev Hn].
    apply negb_true_iff in Hev.
    pose proof (step_autoConnectInterval ev w) as Ha. rewrite Hev in Ha.
    pose proof (step_scheduled ev w) as Hs.
    destruct (IH (step1 w ev)) as [IHa IHs]; [now rewrite Ha|exact Hn|].
    fold (run1 evs (step1 w ev)). rewrite IHa, IHs, Ha, Hs. split; [reflexivity|].
    destruct (Z.ltb_spec 10000 (autoConnectInterval (tunnel w))); [|lia].
    destruct (is_ws_close ev); simpl; lia.
Qed.

(** X2. With a reconnect interval of at most 10000 no event of any run arms a
    reconnect, and the interval never rises above that bound. *)
Theorem no_reconnect_below_threshold (evs : list Event) : forall (w : World)
    (Hinterval : (autoConnectInterval (tunnel w) <= 10000)%Z),
  (autoConnectInterval (tunnel (run1 evs w)) <= 10000)%Z
  /\ scheduled (run1 evs w) = scheduled w.
Proof.
  induction evs as [|ev evs IH]; intros w Hi; simpl; [auto|].
  pose proof (step_autoConnectInterval ev w) as Ha.
  pose proof (step_scheduled ev w) as Hs.
  assert (Hi' : (autoConnectInterval (tunnel (step1 w ev)) <= 10000)%Z)
    by (rewrite Ha; destruct (is_call_close ev); lia).
  destruct (IH _ Hi') as [IHa IHs]. fold (run1 evs (step1 w ev)).
  split; [exact IHa|]. rewrite IHs, Hs.
  destruct (Z.ltb_spec 10000 (autoConnectInterval (tunnel w))); [lia|].
  now rewrite andb_false_r.
Qed.

End Reconnects.

Lemma reconnects_are_the_closes_witness :
  scheduled (run (Fixture.config false) Fixture.parse Fixture.from
               [WsOpen 0; WsClose 0; ReconnectTimer; WsError 1; WsClose 1; PingTick]
               (selfTunnel (Fixture.config false) 30000%Z))
  = 2.
Proof.
  destruct (@reconnects_are_the_closes (Fixture.config false) Fixture.parse Fixture.from
              [WsOpen 0; WsClose 0; ReconnectTimer; WsError 1; WsClose 1; PingTick]
              (selfTunnel (Fixture.config false) 30000%Z) eq_refl eq_refl) as [_ H].
  rewrite H. reflexivity.
Defined.

Lemma no_reconnect_below_threshold_witness :
  scheduled (run (Fixture.config false) Fixture.parse Fixture.from
               [WsOpen 0; WsClose 0; WsError 0; WsClose 0]
               (selfTunnel (Fixture.config false) 10000%Z))
  = 0.
Proof.
  assert (Hle : (autoConnectInterval (tunnel (selfTunnel (Fixture.config false) 10000%Z))
                 <= 10000)%Z) by (vm_compute; discriminate).
  destruct (@no_reconnect_below_threshold (Fixture.config false) Fixture.parse Fixture.from
              [WsOpen 0; WsClose 0; WsError 0; WsClose 0]
              (selfTunnel (Fixture.config false) 10000%Z) Hle) as [_ H].
  rewrite H. reflexivity.
Defined.

(** ** What the forwarding side leaves alone *)

Lemma local_change_refl w : local_change w w.
Proof. repeat split. exists []. now rewrite app_nil_r. Qed.

Lemma local_change_trans w1 w2 w3 :
  local_change w1 w2 -> local_change w2 w3 -> local_change w1 w3.
Proof.
  intros (a1 & a2 & a3 & a4 & es1 & a5 & a6) (b1 & b2 & b3 & b4 & es2 & b5 & b6).
  repeat split; try congruence.
  exists (es1 ++ es2). rewrite b5, a5, app_assoc, forallb_app, a6, b6. auto.
Qed.

Lemma local_change_emit e w : local_effects e = true -> local_change w (emit e w).
Proof. intros H. repeat split. exists [e]. simpl. now rewrite H. Qed.

Lemma local_change_vars f w : local_change w (on_vars f w).
Proof. repeat split. exists []. simpl. now rewrite app_nil_r. Qed.

Lemma local_change_rt f w :
  (forall r, stripped (f r) = stripped r /\ nextWs (f r) = nextWs r
             /\ reconnectTimers (f r) = reconnectTimers r /\ out (f r) = out r) ->
  local_change w (on_rt f w).
Proof.
  intros H. destruct (H (rt w)) as (h1 & h2 & h3 & h4). repeat split; simpl; auto.
  exists []. now rewrite app_nil_r.
Qed.

Lemma local_change_set_task tid t w : local_change w (set_task tid t w).
Proof. apply local_change_rt. intros r. auto. Qed.

Create HintDb forwarding.
#[local] Hint Resolve local_change_refl local_change_vars local_change_set_task
  : forwarding.
#[local] Hint Extern 1 (local_change _ (emit _ _)) =>
  (apply local_change_emit; reflexivity) : forwarding.
#[local] Hint Extern 1 (local_change _ (log _ _)) =>
  (apply local_change_emit; reflexivity) : forwarding.
#[local] Hint Extern 1 (local_change _ (on_rt _ _)) =>
  (apply local_change_rt; intros; auto) : forwarding.

(** Chains a goal [local_change w (f1 (f2 (... w)))] through its layers. *)
Ltac lpeel :=
  repeat first
    [ apply local_change_refl
    | match goal with
      | |- local_change ?w (?f ?a) =>
          apply (@local_change_trans w a (f a)); [|solve [auto with forwarding]]
      | |- local_change ?w (?f ?x ?a) =>
          apply (@local_change_trans w a (f x a)); [|solve [auto with forwarding]]
      | |- local_change ?w (?f ?x ?y ?a) =>
          apply (@local_change_trans w a (f x y a)); [|solve [auto with forwarding]]
      end ].

Lemma local_change_begin_exchange tid s req w :
  local_change w (begin_exchange tid s req w).
Proof. unfold begin_exchange. lpeel. Qed.

Lemma local_change_loop_turn tid w : local_change w (loop_turn tid w).
Proof.
  unfold loop_turn. destruct (requestQueue (vars w)) as [|req rest]; [lpeel|].
  cbv zeta. destruct (usable_socket _).
  - eapply local_change_trans; [|apply local_change_begin_exchange]. lpeel.
  - destruct (connecting _); lpeel.
Qed.

Lemma local_change_processRequestQueue w : local_change w (processRequestQueue w).
Proof.
  unfold processRequestQueue. destruct (_ || _); [apply local_change_refl|].
  eapply local_change_trans; [|apply local_change_loop_turn]. lpeel.
Qed.

Lemma local_change_handleTunnelRequest cfg req w :
  local_change w (handleTunnelRequest cfg req w).
Proof.
  unfold handleTunnelRequest.
  destruct (app cfg && processing (vars w)), (localSocket (vars w)); try solve [lpeel];
    cbv zeta; (destruct (processing _); [lpeel|]);
    (eapply local_change_trans; [|apply local_change_processRequestQueue]); lpeel.
Qed.

Lemma local_change_finalize tid s chunks cl after stuck w :
  (forall w', local_change w' (after w')) ->
  local_change w (cworld (finalize tid s chunks cl after stuck w)).
Proof.
  intros Hafter. unfold finalize, handleTunnelResponse.
  destruct (eofMarker (tunnel w)); [|apply local_change_refl].
  cbv zeta. destruct (ws _); simpl; [|lpeel].
  eapply local_change_trans; [|apply Hafter]. lpeel.
Qed.

Lemma local_change_on_timer tid w : local_change w (cworld (on_timer tid w)).
Proof.
  unfold on_timer. destruct (task_at tid w) as [| req | s chunks complete cl li | |];
    simpl; try apply local_change_refl.
  - destruct (usable_socket w); simpl; [apply local_change_begin_exchange|].
    destruct (connecting _); simpl; [apply local_change_refl|].
    eapply local_change_trans; [|apply local_change_loop_turn]. lpeel.
  - destruct complete; simpl; [apply local_change_loop_turn|].
    destruct (_ || _); simpl; [lpeel|].
    eapply local_change_trans; [|apply local_change_finalize].
    + lpeel.
    + apply local_change_loop_turn.
Qed.

Lemma local_change_onData s chunk tid w : local_change w (onData s chunk tid w).
Proof.
  unfold onData. destruct (task_at tid w) as [| | s' chunks complete cl [|] | |];
    try apply local_change_refl.
  destruct (Nat.eqb s' s); lpeel.
Qed.

Lemma local_change_onEnd s tid w : local_change w (cworld (onEnd s tid w)).
Proof.
  unfold onEnd. destruct (task_at tid w) as [| | s' chunks [|] cl [|] | |];
    simpl; try apply local_change_refl.
  destruct (Nat.eqb s' s); simpl; [|apply local_change_refl].
  eapply local_change_trans; [|apply local_change_finalize].
  - lpeel.
  - intros; apply local_change_refl.
Qed.

Lemma local_change_onError s tid w : local_change w (onError s tid w).
Proof.
  unfold onError. destruct (task_at tid w) as [| | s' chunks [|] cl [|] | |];
    try apply local_change_refl.
  destruct (Nat.eqb s' s); lpeel.
Qed.

Lemma local_change_resolve_connect s cur tid w :
  local_change w (resolve_connect s cur tid w).
Proof.
  unfold resolve_connect. destruct (task_at tid w); try apply local_change_refl.
  destruct (Nat.eqb _ _); [apply local_change_begin_exchange|apply local_change_refl].
Qed.

Lemma local_change_reject_connect s tid w :
  local_change w (reject_connect s tid w).
Proof.
  unfold reject_connect. destruct (task_at tid w); try apply local_change_refl.
  destruct (Nat.eqb _ _); [|apply local_change_refl].
  eapply local_change_trans; [|apply local_change_loop_turn]. lpeel.
Qed.

Lemma local_change_fold (h : TaskId -> World -> World) tids :
  (forall tid w, local_change w (h tid w)) ->
  forall w, local_change w (fold_left (fun w tid => h tid w) tids w).
Proof.
  intros Hh. induction tids as [|tid tids IH]; intros w; simpl.
  - apply local_change_refl.
  - eapply local_change_trans; [apply Hh|apply IH].
Qed.

Lemma local_change_for_tasks (h : TaskId -> World -> World) w :
  (forall tid w, local_change w (h tid w)) -> local_change w (for_tasks h w).
Proof. intros Hh. unfold for_tasks. now apply local_change_fold. Qed.

Lemma local_change_for_tasks_c (h : TaskId -> World -> Completion) tids :
  (forall tid w, local_change w (cworld (h tid w))) ->
  forall w, local_change w (cworld (for_tasks_c h tids w)).
Proof.
  intros Hh. induction tids as [|tid tids IH]; intros w; simpl.
  - apply local_change_refl.
  - specialize (Hh tid w). destruct (h tid w) as [w'|e w']; simpl in *.
    + eapply local_change_trans; [apply Hh|apply IH].
    + exact Hh.
Qed.

Lemma local_change_settle w c :
  local_change w (cworld c) -> local_change w (settle c).
Proof.
  destruct c as [w'|e w']; simpl; [auto|].
  intros H. eapply local_change_trans; [apply H|]. lpeel.
Qed.

Lemma local_change_step
    (cfg : Config) (JSON_parse : string -> option JsObj)
    (Buffer_from : JsVal -> option bytes) (ev : Event) (w : World)
    (Hlocal : is_local_event ev = true) :
  local_change w (step cfg JSON_parse Buffer_from w ev).
Proof.
  destruct ev; try discriminate; simpl.
  - apply local_change_settle. unfold on_local_connect.
    destruct (mem _ _); [lpeel|]. destruct (localSocket _); [|lpeel]. simpl.
    eapply local_change_trans; [|apply local_change_for_tasks].
    + lpeel.
    + intros; apply local_change_resolve_connect.
  - unfold on_local_data. destruct (mem _ _); [lpeel|].
    apply local_change_for_tasks. intros; apply local_change_onData.
  - apply local_change_settle. unfold on_local_end. destruct (mem _ _); [lpeel|].
    apply local_change_for_tasks_c. intros; apply local_change_onEnd.
  - unfold on_local_error. destruct (mem _ _); [lpeel|]. cbv zeta.
    eapply local_change_trans; [|apply local_change_for_tasks].
    + eapply local_change_trans; [|apply local_change_for_tasks].
      * lpeel.
      * intros; apply local_change_onError.
    + intros; apply local_change_reject_connect.
  - unfold on_local_close. destruct (mem _ _); lpeel.
  - apply local_change_settle, local_change_on_timer.
Qed.

(** X3. The events of local sockets and the poll timers do forwarding work
    only: whatever the state, they leave the whole [tunnel] object (markers,
    relay socket, liveness flag, ping timer, reconnect interval) and the
    pending reconnect timers as they are, and all they add to the trace are
    local connects, local writes, binary frames to the relay, console output
    and uncaught exceptions; they open and close no relay socket, send no
    text frame, ping nothing and arm no reconnect. *)
Theorem local_events_do_forwarding_only
    (cfg : Config) (JSON_parse : string -> option JsObj)
    (Buffer_from : JsVal -> option bytes) (ev : Event) (w : World)
    (Hlocal : is_local_event ev = true) :
  local_change w (step cfg JSON_parse Buffer_from w ev).
Proof.
  exact (local_change_step cfg JSON_parse Buffer_from ev w Hlocal).
Qed.

Lemma local_events_do_forwarding_only_witness :
  local_change chunk_polled
    (step (Fixture.config false) Fixture.parse Fixture.from chunk_polled (Timer 0)).
Proof.
  apply (@local_events_do_forwarding_only (Fixture.config false) Fixture.parse Fixture.from
           (Timer 0) chunk_polled).
  reflexivity.
Defined.

(** ** What a relay message leaves alone *)

Lemma message_change_refl w : message_change w w.
Proof. repeat split. exists []. now rewrite app_nil_r. Qed.

Lemma message_change_trans w1 w2 w3 :
  message_change w1 w2 -> message_change w2 w3 -> message_change w1 w3.
Proof.
  intros ((a1 & a2 & a3 & a4) & (a5 & a6 & a7 & a8) & es1 & a9 & a10)
         ((b1 & b2 & b3 & b4) & (b5 & b6 & b7 & b8) & es2 & b9 & b10).
  repeat split; try congruence.
  exists (es1 ++ es2). rewrite b9, a9, app_assoc, forallb_app, a10, b10. auto.
Qed.

Lemma message_change_emit e w : message_effects e = true -> message_change w (emit e w).
Proof. intros H. repeat split. exists [e]. simpl. now rewrite H. Qed.

Lemma message_change_tunnel f w :
  (forall t, pingIntervalId (f t) = pingIntervalId t /\ ws (f t) = ws t
             /\ alive (f t) = alive t
             /\ autoConnectInterval (f t) = autoConnectInterval t) ->
  message_change w (on_tunnel f w).
Proof.
  intros H. destruct (H (tunnel w)) as (h1 & h2 & h3 & h4). repeat split; simpl; auto.
  exists []. now rewrite app_nil_r.
Qed.

Create HintDb relay_message.
#[local] Hint Resolve message_change_refl : relay_message.
#[local] Hint Extern 1 (message_change _ (emit _ _)) =>
  (apply message_change_emit; reflexivity) : relay_message.
#[local] Hint Extern 1 (message_change _ (log _ _)) =>
  (apply message_change_emit; reflexivity) : relay_message.
#[local] Hint Extern 1 (message_change _ (on_tunnel _ _)) =>
  (apply message_change_tunnel; intros; auto) : relay_message.

Ltac mpeel :=
  repeat first
    [ apply message_change_refl
    | match goal with
      | |- message_change ?w (?f ?a) =>
          apply (@message_change_trans w a (f a)); [|solve [auto with relay_message]]
      | |- message_change ?w (?f ?x ?a) =>
          apply (@message_change_trans w a (f x a)); [|solve [auto with relay_message]]
      end ].

Section RelayMessage.

Variable cfg : Config.
Variable JSON_parse : string -> option JsObj.
Variable Buffer_from : JsVal -> option bytes.

Lemma message_change_message_try wid req isBinary w :
  message_change w
    match message_try cfg JSON_parse Buffer_from wid req isBinary w with
    | Returned w' => w'
    | FellThrough w' => w'
    end.
Proof.
  unfold message_try. destruct isBinary; [apply message_change_refl|].
  cbv zeta. destruct (String.prefix _ _); [|apply message_change_refl].
  destruct (JSON_parse _) as [jsonData|]; [|mpeel].
  repeat match goal with
         | |- context [if ?b then _ else _] => destruct b
         | |- context [match Buffer_from ?v with _ => _ end] => destruct (Buffer_from v)
         end; mpeel.
Qed.

(** The request path does forwarding work only; it is the one place where
    the sockets torn down so far matter, and it tears down none. *)
Lemma message_change_handleTunnelRequest req w :
  message_change w (handleTunnelRequest cfg req w).
Proof.
  destruct (local_change_handleTunnelRequest cfg req w) as (h1 & h2 & h3 & h4 & es & h5 & h6).
  repeat split; try congruence.
  - unfold handleTunnelRequest.
    destruct (app cfg && processing (vars w)), (localSocket (vars w)); try reflexivity;
      cbv zeta; (destruct (processing _); [reflexivity|]);
      unfold processRequestQueue; (destruct (_ || _); [reflexivity|]);
      unfold loop_turn; simpl;
      repeat match goal with
             | |- context [match ?x with _ => _ end] => destruct x; simpl
             end; reflexivity.
  - exists es. split; [exact h5|].
    apply forallb_forall. intros e He.
    assert (Hl : local_effects e = true) by (eapply forallb_forall in h6; eauto).
    destruct e; try discriminate; reflexivity.
Qed.

Lemma message_change_step (wid : WsId) (req : bytes) (isBinary : bool) (w : World) :
  message_change w (step cfg JSON_parse Buffer_from w (WsMessage wid req isBinary)).
Proof.
  simpl.
  assert (H : message_change w
                (cworld (on_ws_message cfg JSON_parse Buffer_from wid req isBinary w))).
  { unfold on_ws_message. destruct req as [|b req']; [apply message_change_refl|].
    pose proof (message_change_message_try wid (b :: req') isBinary w) as H.
    destruct (message_try _ _ _ _ _ _ _) as [w'|w']; simpl; [exact H|].
    unfold suspend_or_forward.
    destruct (Buffer_indexOf _ _) as [i|]; simpl; [|exact H].
    destruct (negb _); simpl.
    - eapply message_change_trans; [exact H|]. mpeel.
    - eapply message_change_trans; [exact H|apply message_change_handleTunnelRequest]. }
  destruct (on_ws_message _ _ _ _ _ _ _) as [w'|e w']; simpl in *; [exact H|].
  eapply message_change_trans; [exact H|]. mpeel.
Qed.

(** X4. Whatever frame arrives and whatever the state, the message handler
    leaves the relay socket handle, the liveness flag, the ping timer, the
    reconnect interval and the pending reconnect timers as they are, tears
    down no local socket, and adds to the trace only text frames, forwarding
    effects and console output: it opens and closes no relay socket, pings
    nothing and arms no reconnect. *)
Theorem message_handler_footprint (wid : WsId) (req : bytes) (isBinary : bool) (w : World) :
  message_change w (step cfg JSON_parse Buffer_from w (WsMessage wid req isBinary)).
Proof.
  exact (message_change_step wid req isBinary w).
Qed.

End RelayMessage.

(** ** Counting effects *)

Lemma count_effects_emits (p allowed : Effect -> bool) w w' :
  (exists es, out (rt w') = out (rt w) ++ es /\ forallb allowed es = true) ->
  (forall e, allowed e = true -> p e = false) ->
  count_effects p w' = count_effects p w.
Proof.
  intros (es & Ho & Hall) Hp. unfold count_effects. rewrite Ho, filter_app, length_app.
  assert (Hnil : filter p es = []).
  { clear Ho. induction es as [|e es IH]; [reflexivity|].
    simpl in *. apply andb_true_iff in Hall. destruct Hall as [He Hes].
    rewrite (Hp e He). auto. }
  rewrite Hnil. simpl. lia.
Qed.

Lemma count_effects_emit p e w :
  count_effects p (emit e w) = (if p e then 1 else 0) + count_effects p w.
Proof.
  unfold count_effects, emit. simpl. rewrite filter_app, length_app. simpl.
  destruct (p e); simpl; lia.
Qed.

Lemma count_effects_cleanup p w :
  (forall s, p (ELocalDestroy s) = false) ->
  count_effects p (cleanup w) = count_effects p w.
Proof.
  intros Hp. unfold count_effects. rewrite out_cleanup, filter_app, length_app.
  unfold cleanup_effects. destruct (usable_socket w); simpl; [rewrite Hp|]; simpl; lia.
Qed.

Lemma connectToTunnel_trace cfg w :
  out (rt (connectToTunnel cfg w)) = out (rt w) ++ cleanup_effects w ++ [EWsNew (nextWs (rt w))].
Proof.
  unfold connectToTunnel. cbv zeta.
  assert (Hn : nextWs (rt (cleanup w)) = nextWs (rt w)).
  { unfold cleanup. cbv zeta. destruct (usable_socket _); reflexivity. }
  pose proof (out_cleanup w) as Ho.
  remember (cleanup w) as W eqn:EW.
  destruct (_ <? _)%Z; simpl; rewrite Ho, Hn; now rewrite <- app_assoc.
Qed.

Lemma count_effects_connectToTunnel p cfg w :
  (forall s, p (ELocalDestroy s) = false) ->
  count_effects p (connectToTunnel cfg w)
  = (if p (EWsNew (nextWs (rt w))) then 1 else 0) + count_effects p w.
Proof.
  intros Hp. unfold count_effects. rewrite connectToTunnel_trace, !filter_app, !length_app.
  unfold cleanup_effects. destruct (usable_socket w); simpl; rewrite ?Hp;
    destruct (p (EWsNew _)); simpl; lia.
Qed.

(** ** The ping timer *)

Section Ping.

Variable cfg : Config.
Variable JSON_parse : string -> option JsObj.
Variable Buffer_from : JsVal -> option bytes.

#[local] Abbreviation step2 := (step cfg JSON_parse Buffer_from).
#[local] Abbreviation run2 := (run cfg JSON_parse Buffer_from).

Lemma pingIntervalId_cleanup w : pingIntervalId (tunnel (cleanup w)) = None.
Proof. apply cleanup_releases. Qed.

Lemma unarmed_step (Hsmall : (pingInterval cfg <= 1000)%Z) ev w :
  pingIntervalId (tunnel w) = None ->
  pingIntervalId (tunnel (step2 w ev)) = None
  /\ count_effects is_ping (step2 w ev) = count_effects is_ping w.
Proof.
  intros Hnone.
  assert (Hconnect : forall v, pingIntervalId (tunnel (connectToTunnel cfg v)) = None
                               /\ count_effects is_ping (connectToTunnel cfg v)
                                  = count_effects is_ping v).
  { intros v. split.
    - unfold connectToTunnel. cbv zeta.
      destruct (Z.ltb_spec 1000 (pingInterval cfg)); [lia|]. simpl.
      apply pingIntervalId_cleanup.
    - now rewrite count_effects_connectToTunnel. }
  destruct (is_local_event ev) eqn:El.
  - destruct (local_change_step cfg JSON_parse Buffer_from ev w El)
      as (Ht & _ & _ & _ & Hes).
    split; [now rewrite Ht|].
    apply (@count_effects_emits is_ping local_effects _ _ Hes).
    intros e He. destruct e; try discriminate; reflexivity.
  - destruct ev; try discriminate; cbn [step].
    + split; [exact Hnone|]. unfold on_ws_open, log. now rewrite count_effects_emit.
    + destruct (message_change_step cfg JSON_parse Buffer_from wid req isBinary w)
        as ((Hp & _) & _ & Hes).
      simpl in Hp, Hes. split; [now rewrite Hp|].
      apply (@count_effects_emits is_ping message_effects _ _ Hes).
      intros e He. destruct e; try discriminate; reflexivity.
    + split.
      * unfold on_ws_close. cbv zeta. destruct (_ <? _)%Z; simpl;
          apply pingIntervalId_cleanup.
      * unfold on_ws_close. cbv zeta.
        assert (Hc : count_effects is_ping (cleanup (log LTunnelClosed w))
                     = count_effects is_ping w).
        { rewrite count_effects_cleanup by reflexivity.
          unfold log. now rewrite count_effects_emit. }
        remember (cleanup (log LTunnelClosed w)) as W eqn:EW.
        destruct (_ <? _)%Z; [|exact Hc].
        unfold log.
        change (count_effects is_ping
                  (emit (ESetReconnect (autoConnectInterval (tunnel
                           (on_tunnel (fun t => set_eofMarker None
                              (set_suspendCommand None (set_ws None t))) W))))
                     (emit (ELog LReconnecting)
                        (on_tunnel (fun t => set_eofMarker None
                              (set_suspendCommand None (set_ws None t))) W)))
                = count_effects is_ping w).
        rewrite !count_effects_emit. simpl. exact Hc.
    + unfold on_ws_error. split; [apply pingIntervalId_cleanup|].
      rewrite count_effects_cleanup by reflexivity. unfold log.
      now rewrite count_effects_emit.
    + split; [exact Hnone|reflexivity].
    + unfold on_ping_tick. rewrite Hnone. auto.
    + unfold on_reconnect_timer. destruct (reconnectTimers (rt w)); [auto|].
      destruct (Hconnect (on_rt (set_reconnectTimers n) w)) as [A B]. split; [exact A|].
      rewrite B. reflexivity.
    + unfold close. cbv zeta.
      assert (Hc : count_effects is_ping (cleanup w) = count_effects is_ping w)
        by now rewrite count_effects_cleanup.
      pose proof (pingIntervalId_cleanup w) as Hp.
      remember (cleanup w) as W eqn:EW.
      destruct (ws (tunnel W)) as [wid|]; split; try assumption.
      change (count_effects is_ping (emit (EWsClose wid) W) = count_effects is_ping w).
      now rewrite count_effects_emit.
    + unfold pause. destruct (ws (tunnel w)); [|auto]. split; [exact Hnone|].
      now rewrite count_effects_emit.
    + unfold resume. destruct (ws (tunnel w)); [|auto]. split; [exact Hnone|].
      now rewrite count_effects_emit.
Qed.

(** X5. A tunnel whose ping interval is at most 1000 ms has no ping timer:
    whatever happens, none is ever armed and no ping is ever sent, so such a
    tunnel never closes its relay connection for a missed pong. *)
Theorem small_ping_interval_never_pings
    (Hsmall : (pingInterval cfg <= 1000)%Z) (autoConnect : Z) (evs : list Event) :
  let w := run2 evs (selfTunnel cfg autoConnect) in
  pingIntervalId (tunnel w) = None
  /\ count_effects is_ping w = 0
  /\ on_ping_tick w = w.
Proof.
  cbv zeta.
  assert (Hrun : forall evs w,
             pingIntervalId (tunnel w) = None ->
             pingIntervalId (tunnel (run2 evs w)) = None
             /\ count_effects is_ping (run2 evs w) = count_effects is_ping w).
  { clear evs. induction evs as [|ev evs IH]; intros w Hnone; [simpl; auto|].
    change (run2 (ev :: evs) w) with (run2 evs (step2 w ev)).
    destruct (unarmed_step Hsmall ev w Hnone) as [A B].
    destruct (IH _ A) as [C D]. split; [exact C|]. now rewrite D. }
  assert (Hstart : pingIntervalId (tunnel (selfTunnel cfg autoConnect)) = None).
  { unfold selfTunnel, connectToTunnel. cbv zeta.
    destruct (Z.ltb_spec 1000 (pingInterval cfg)); [lia|reflexivity]. }
  destruct (Hrun evs _ Hstart) as [A B]. split; [exact A|]. split.
  - rewrite B. unfold selfTunnel, connectToTunnel. cbv zeta.
    destruct (_ <? _)%Z; reflexivity.
  - unfold on_ping_tick. now rewrite A.
Qed.

(** X6. After [connectToTunnel] with a ping interval above 1000 ms, the first
    tick that comes before the relay socket has opened closes that socket and
    stops the timer; once the socket has opened, the first tick sends a ping
    instead.  The ping interval thus bounds the time a connection attempt may
    take. *)
Theorem unopened_connection_is_closed_by_first_tick
    (Harmed : (1000 < pingInterval cfg)%Z) (w : World) :
  let wid := nextWs (rt w) in
  let c := connectToTunnel cfg w in
  ws (tunnel c) = Some wid
  /\ out (rt (step2 c PingTick)) = out (rt c) ++ [ELog LConnectionLost; EWsClose wid]
  /\ pingIntervalId (tunnel (step2 c PingTick)) = None
  /\ out (rt (run2 [WsOpen wid; PingTick] c))
     = out (rt c) ++ [ELog LConnectionEstablished; EWsPing wid]
  /\ pingIntervalId (tunnel (run2 [WsOpen wid; PingTick] c)) = Some wid.
Proof.
  cbv zeta. unfold connectToTunnel. cbv zeta.
  destruct (Z.ltb_spec 1000 (pingInterval cfg)); [|lia].
  assert (Hn : nextWs (rt (cleanup w)) = nextWs (rt w)).
  { unfold cleanup. cbv zeta. destruct (usable_socket _); reflexivity. }
  assert (Ha : alive (tunnel (cleanup w)) = false) by apply cleanup_releases.
  remember (cleanup w) as W eqn:EW. rewrite Hn.
  unfold run. simpl. unfold on_ping_tick. simpl. rewrite Ha. simpl.
  repeat split; rewrite <- ?app_assoc; reflexivity.
Qed.

End Ping.

Lemma small_ping_interval_never_pings_witness :
  let cfg := configure {| opt_domain := None; opt_secret := None; opt_device := None;
                          opt_public := None; opt_localPort := None;
                          opt_pingInterval := Some 1000%Z;
                          opt_autoConnectInterval := None |}
               {| TUNNEL_DOMAIN := None; TUNNEL_SECRET := None |} false in
  count_effects is_ping
    (run cfg Fixture.parse Fixture.from [WsOpen 0; PingTick; WsPong 0; PingTick]
       (selfTunnel cfg 30000%Z))
  = 0.
Proof.
  cbv zeta.
  set (cfg := configure _ _ _).
  assert (Hsmall : (pingInterval cfg <= 1000)%Z) by (vm_compute; discriminate).
  destruct (@small_ping_interval_never_pings cfg Fixture.parse Fixture.from Hsmall
              30000%Z [WsOpen 0; PingTick; WsPong 0; PingTick]) as (_ & H & _).
  exact H.
Defined.

Lemma unopened_connection_is_closed_by_first_tick_witness :
  out (rt (step (Fixture.config false) Fixture.parse Fixture.from
             (connectToTunnel (Fixture.config false) (fresh 30000%Z)) PingTick))
  = [EWsNew 0; ELog LConnectionLost; EWsClose 0].
Proof.
  destruct (@unopened_connection_is_closed_by_first_tick (Fixture.config false)
              Fixture.parse Fixture.from eq_refl (fresh 30000%Z)) as (_ & H & _).
  rewrite H. reflexivity.
Defined.

(** ** Relay sockets and reconnect timers *)

Section RelaySockets.

Variable cfg : Config.
Variable JSON_parse : string -> option JsObj.
Variable Buffer_from : JsVal -> option bytes.

#[local] Abbreviation step3 := (step cfg JSON_parse Buffer_from).
#[local] Abbreviation run3 := (run cfg JSON_parse Buffer_from).

Lemma count_effects_on_ws_close p wid w :
  (forall s, p (ELocalDestroy s) = false) ->
  (forall m, p (ELog m) = false) ->
  count_effects p (on_ws_close wid w)
  = (if (10000 <? autoConnectInterval (tunnel w))%Z
     then if p (ESetReconnect (autoConnectInterval (tunnel w))) then 1 else 0
     else 0) + count_effects p w.
Proof.
  intros Hd Hl. unfold on_ws_close. cbv zeta.
  assert (Hc : count_effects p (cleanup (log LTunnelClosed w)) = count_effects p w).
  { rewrite count_effects_cleanup by exact Hd. unfold log.
    now rewrite count_effects_emit, Hl. }
  destruct (cleanup_keeps (log LTunnelClosed w)) as (_ & _ & _ & Ha & _).
  remember (cleanup (log LTunnelClosed w)) as W eqn:EW.
  cbn [on_tunnel tunnel set_eofMarker set_suspendCommand set_ws autoConnectInterval].
  rewrite Ha. cbn [log emit on_rt tunnel autoConnectInterval].
  destruct (10000 <? autoConnectInterval (tunnel w))%Z; [|exact Hc].
  change (count_effects p
            (emit (ESetReconnect (autoConnectInterval (tunnel w)))
               (emit (ELog LReconnecting)
                  (on_tunnel (fun t => set_eofMarker None
                                (set_suspendCommand None (set_ws None t))) W)))
          = (if p (ESetReconnect (autoConnectInterval (tunnel w))) then 1 else 0)
            + count_effects p w).
  rewrite !count_effects_emit, Hl. simpl.
  change (count_effects p (on_tunnel _ W)) with (count_effects p W). now rewrite Hc.
Qed.

Lemma reconnectTimers_connectToTunnel w :
  reconnectTimers (rt (connectToTunnel cfg w)) = reconnectTimers (rt w).
Proof.
  unfold connectToTunnel. cbv zeta.
  destruct (cleanup_keeps w) as (_ & _ & _ & _ & Ht & _).
  destruct (_ <? _)%Z; simpl; exact Ht.
Qed.

(** What an event does to the relay sockets opened so far, the reconnect
    timers pending and the reconnects armed so far. *)
Lemma step_accounts ev w :
  count_effects is_ws_new (step3 w ev) + reconnectTimers (rt (step3 w ev)) + scheduled w
  = count_effects is_ws_new w + reconnectTimers (rt w) + scheduled (step3 w ev).
Proof.
  destruct (is_local_event ev) eqn:El.
  - destruct (local_change_step cfg JSON_parse Buffer_from ev w El)
      as (_ & _ & _ & Ht & Hes).
    rewrite Ht.
    rewrite (@count_effects_emits is_ws_new local_effects _ _ Hes)
      by (intros e He; destruct e; try discriminate; reflexivity).
    change (scheduled (step3 w ev)) with (count_effects is_reconnect (step3 w ev)).
    rewrite (@count_effects_emits is_reconnect local_effects _ _ Hes)
      by (intros e He; destruct e; try discriminate; reflexivity).
    reflexivity.
  - destruct ev; try discriminate; cbn [step].
    + unfold on_ws_open, log. unfold scheduled at 2.
      fold (count_effects is_reconnect (emit (ELog LConnectionEstablished)
                                          (on_tunnel (set_alive true) w))).
      rewrite !count_effects_emit. reflexivity.
    + destruct (message_change_step cfg JSON_parse Buffer_from wid req isBinary w)
        as (_ & (_ & _ & _ & Ht) & Hes).
      cbn [step] in Ht, Hes. rewrite Ht.
      rewrite (@count_effects_emits is_ws_new message_effects _ _ Hes)
        by (intros e He; destruct e; try discriminate; reflexivity).
      change (scheduled ?x) with (count_effects is_reconnect x).
      rewrite (@count_effects_emits is_reconnect message_effects _ _ Hes)
        by (intros e He; destruct e; try discriminate; reflexivity).
      reflexivity.
    + rewrite reconnectTimers_on_ws_close, scheduled_on_ws_close.
      rewrite count_effects_on_ws_close by reflexivity.
      destruct (_ <? _)%Z; simpl; lia.
    + unfold on_ws_error.
      destruct (cleanup_keeps (log LTunnelConnectionError w)) as (_ & _ & _ & _ & Ht & _).
      rewrite Ht. change (scheduled ?x) with (count_effects is_reconnect x).
      rewrite !count_effects_cleanup by reflexivity. unfold log.
      rewrite !count_effects_emit. reflexivity.
    + reflexivity.
    + unfold on_ping_tick. destruct (pingIntervalId (tunnel w)); [|reflexivity].
      change (scheduled ?x) with (count_effects is_reconnect x).
      destruct (alive (tunnel w)); unfold log; rewrite !count_effects_emit; reflexivity.
    + unfold on_reconnect_timer. destruct (reconnectTimers (rt w)) as [|n] eqn:En;
        [rewrite En; reflexivity|].
      rewrite reconnectTimers_connectToTunnel.
      change (scheduled ?x) with (count_effects is_reconnect x).
      rewrite !count_effects_connectToTunnel by reflexivity. simpl.
      change (count_effects ?p (on_rt (set_reconnectTimers n) w))
        with (count_effects p w).
      lia.
    + unfold close. cbv zeta.
      destruct (cleanup_keeps w) as (_ & _ & _ & _ & Ht & _).
      assert (Hn : count_effects is_ws_new (cleanup w) = count_effects is_ws_new w)
        by now rewrite count_effects_cleanup.
      assert (Hs : count_effects is_reconnect (cleanup w) = count_effects is_reconnect w)
        by now rewrite count_effects_cleanup.
      change (scheduled ?x) with (count_effects is_reconnect x).
      remember (cleanup w) as W eqn:EW.
      destruct (ws (tunnel W)) as [wid|].
      * change (count_effects is_ws_new (emit (EWsClose wid) W) + reconnectTimers (rt W)
                + count_effects is_reconnect w
                = count_effects is_ws_new w + reconnectTimers (rt w)
                  + count_effects is_reconnect (emit (EWsClose wid) W)).
        rewrite !count_effects_emit. simpl. lia.
      * change (count_effects is_ws_new W + reconnectTimers (rt W)
                + count_effects is_reconnect w
                = count_effects is_ws_new w + reconnectTimers (rt w)
                  + count_effects is_reconnect W).
        lia.
    + unfold pause. destruct (ws (tunnel w)); [|reflexivity].
      change (scheduled ?x) with (count_effects is_reconnect x).
      rewrite !count_effects_emit. reflexivity.
    + unfold resume. destruct (ws (tunnel w)); [|reflexivity].
      change (scheduled ?x) with (count_effects is_reconnect x).
      rewrite !count_effects_emit. reflexivity.
Qed.

(** X7. Along every run of a tunnel, the relay sockets opened so far and the
    reconnect timers still pending add up to one more than the reconnects
    armed so far: beyond the first, a relay socket is opened only by a
    reconnect timer that a transport close has armed, one socket per timer.
    So the tunnel has never opened more relay sockets than one plus the
    transport close events it has seen. *)
Theorem relay_sockets_follow_closes (autoConnect : Z) (evs : list Event) :
  let w := run3 evs (selfTunnel cfg autoConnect) in
  count_effects is_ws_new w + reconnectTimers (rt w) = scheduled w + 1
  /\ scheduled w <= length (filter is_ws_close evs)
  /\ count_effects is_ws_new w <= 1 + length (filter is_ws_close evs).
Proof.
  cbv zeta.
  assert (Hrun : forall evs w,
             count_effects is_ws_new (run3 evs w) + reconnectTimers (rt (run3 evs w))
             + scheduled w
             = count_effects is_ws_new w + reconnectTimers (rt w) + scheduled (run3 evs w)
             /\ scheduled (run3 evs w) <= scheduled w + length (filter is_ws_close evs)).
  { clear evs. induction evs as [|ev evs IH]; intros w; [simpl; lia|].
    change (run3 (ev :: evs) w) with (run3 evs (step3 w ev)).
    destruct (IH (step3 w ev)) as [A B].
    pose proof (step_accounts ev w) as C.
    pose proof (step_scheduled cfg JSON_parse Buffer_from ev w) as D.
    split; [lia|]. simpl.
    destruct (is_ws_close ev); simpl in *;
      destruct (10000 <? autoConnectInterval (tunnel w))%Z; simpl in *; lia. }
  destruct (Hrun evs (selfTunnel cfg autoConnect)) as [A B].
  assert (Hs : scheduled (selfTunnel cfg autoConnect) = 0
               /\ count_effects is_ws_new (selfTunnel cfg autoConnect) = 1
               /\ reconnectTimers (rt (selfTunnel cfg autoConnect)) = 0).
  { unfold selfTunnel, connectToTunnel. cbv zeta. destruct (_ <? _)%Z; auto. }
  destruct Hs as (s1 & s2 & s3). lia.
Qed.

(** X8. When the transport closes while the reconnect interval exceeds 10000
    and a reconnect timer then fires, the tunnel is on a newly created relay
    socket, with no markers, the liveness flag cleared, an empty queue and no
    loop running; the ping timer is armed for the new socket when the ping
    interval exceeds 1000; as many reconnect timers are pending as before;
    of the old session only the primary flag is left. *)
Theorem reconnect_starts_afresh (wid : WsId) (w : World)
    (Hinterval : (10000 < autoConnectInterval (tunnel w))%Z) :
  let w' := run3 [WsClose wid; ReconnectTimer] w in
  ws (tunnel w') = Some (nextWs (rt w))
  /\ nextWs (rt w') = S (nextWs (rt w))
  /\ (suspendCommand (tunnel w') = None /\ eofMarker (tunnel w') = None
      /\ alive (tunnel w') = false /\ isPrimary (tunnel w') = isPrimary (tunnel w))
  /\ pingIntervalId (tunnel w')
     = (if (1000 <? pingInterval cfg)%Z then Some (nextWs (rt w)) else None)
  /\ (requestQueue (vars w') = [] /\ processing (vars w') = false
      /\ connecting (vars w') = false /\ usable_socket w' = None)
  /\ reconnectTimers (rt w') = reconnectTimers (rt w)
  /\ out (rt w') = out (rt w) ++ [ELog LTunnelClosed] ++ cleanup_effects w
                   ++ [ELog LReconnecting; ESetReconnect (autoConnectInterval (tunnel w));
                       EWsNew (nextWs (rt w))].
Proof.
  destruct w as [[sc em pid ip wsf al aci] [ls q conn proc] [d st ns nws tk rtm o]].
  simpl in Hinterval. cbv zeta.
  unfold run. cbn [fold_left step]. unfold on_ws_close. cbv zeta.
  unfold cleanup, cleanup_effects, usable_socket. simpl.
  destruct ls as [s|]; simpl.
  - destruct (mem s d) eqn:Ed; simpl;
      (destruct (Z.ltb_spec 10000 aci); [|lia]); simpl;
      unfold on_reconnect_timer; simpl; unfold connectToTunnel, cleanup, usable_socket;
      simpl; rewrite ?Ed; simpl; try rewrite Nat.eqb_refl; simpl;
      destruct (1000 <? pingInterval cfg)%Z; simpl; rewrite ?Ed;
      repeat split; rewrite <- ?app_assoc; try reflexivity.
  - (destruct (Z.ltb_spec 10000 aci); [|lia]); simpl.
    unfold on_reconnect_timer; simpl; unfold connectToTunnel, cleanup, usable_socket.
    simpl. destruct (1000 <? pingInterval cfg)%Z; simpl;
      repeat split; rewrite <- ?app_assoc; reflexivity.
Qed.

End RelaySockets.

Lemma reconnect_starts_afresh_witness :
  let w' := run (Fixture.config false) Fixture.parse Fixture.from
              [WsClose 0; ReconnectTimer] (Fixture.handshaken false) in
  ws (tunnel w') = Some 1 /\ suspendCommand (tunnel w') = None
  /\ isPrimary (tunnel w') = JBool true.
Proof.
  cbv zeta.
  destruct (@reconnect_starts_afresh (Fixture.config false) Fixture.parse Fixture.from
              0 (Fixture.handshaken false) eq_refl)
    as (Hws & _ & (Hs & _ & _ & Hp) & _).
  split; [rewrite Hws; reflexivity|]. split; [exact Hs|]. rewrite Hp. reflexivity.
Defined.

(** ** pause() and resume() *)

(** X9. [pause()] and [resume()] change nothing but the trace: with a relay
    socket they call [send] once on it, with the stored suspend marker as a
    binary frame and with the start message as a text frame; with none, and
    so after [close()], they do nothing.  A non-empty marker that [pause()] sends is a
    frame which the client itself, on receiving it, takes for the suspend
    signal. *)
Theorem pause_and_resume_only_send
    (cfg : Config) (JSON_parse : string -> option JsObj)
    (Buffer_from : JsVal -> option bytes) (w : World) :
  (tunnel (pause w) = tunnel w /\ vars (pause w) = vars w
   /\ tunnel (resume cfg w) = tunnel w /\ vars (resume cfg w) = vars w)
  /\ (pause (close w) = close w /\ resume cfg (close w) = close w)
  /\ match ws (tunnel w) with
     | None => pause w = w /\ resume cfg w = w
     | Some wid =>
         out (rt (resume cfg w))
         = out (rt w)
           ++ [EWsSendText wid
                 [("type", JStr "start");
                  ("usage", JStr (if isPublic cfg then "public" else "private"))]%string]
         /\ match suspendCommand (tunnel w) with
            | Some marker =>
                out (rt (pause w)) = out (rt w) ++ [EWsSendBinary wid marker]
                /\ (marker <> [] ->
                    on_ws_message cfg JSON_parse Buffer_from wid marker true w
                    = Done (log LSuspendReceived w))
            | None => True
            end
     end.
Proof.
  split; [|split].
  - unfold pause, resume. destruct (ws (tunnel w)); auto.
  - unfold pause, resume. rewrite ws_close. auto.
  - unfold pause, resume. destruct (ws (tunnel w)) as [wid|]; [|auto].
    split; [reflexivity|].
    destruct (suspendCommand (tunnel w)) as [marker|] eqn:Em; [|exact I].
    split; [reflexivity|]. intros Hne.
    rewrite binary_message by exact Hne.
    destruct (@suspend_or_forward_marker cfg marker marker w Em) as [Hyes _].
    apply Hyes. exists [], []. now rewrite app_nil_r.
Qed.

(** ** The queue and the processing flag *)

Lemma keeps_served_refl w : keeps_served w w.
Proof. intros H. exact H. Qed.

Lemma keeps_served_trans w1 w2 w3 :
  keeps_served w1 w2 -> keeps_served w2 w3 -> keeps_served w1 w3.
Proof. unfold keeps_served. auto. Qed.

Lemma keeps_served_same w w' :
  requestQueue (vars w') = requestQueue (vars w) ->
  processing (vars w') = processing (vars w) ->
  keeps_served w w'.
Proof. unfold keeps_served, queue_served. intros -> ->. auto. Qed.

Ltac kpeel :=
  repeat first
    [ apply keeps_served_refl
    | match goal with
      | |- keeps_served ?w (?f ?a) =>
          apply (@keeps_served_trans w a (f a));
          [|solve [apply keeps_served_same; reflexivity]]
      | |- keeps_served ?w (?f ?x ?a) =>
          apply (@keeps_served_trans w a (f x a));
          [|solve [apply keeps_served_same; reflexivity]]
      | |- keeps_served ?w (?f ?x ?y ?a) =>
          apply (@keeps_served_trans w a (f x y a));
          [|solve [apply keeps_served_same; reflexivity]]
      end ].

Lemma keeps_served_begin_exchange tid s req w :
  keeps_served w (begin_exchange tid s req w).
Proof. unfold begin_exchange. kpeel. Qed.

Lemma keeps_served_loop_turn tid w : keeps_served w (loop_turn tid w).
Proof.
  unfold keeps_served, queue_served, loop_turn. intros Hinv.
  destruct (requestQueue (vars w)) as [|req rest] eqn:Eq; [intros _; exact Eq|].
  cbv zeta. intros Hp.
  assert (Hproc : processing (vars w) = false).
  { destruct (usable_socket _); [exact Hp|]. destruct (connecting _); exact Hp. }
  specialize (Hinv Hproc). discriminate.
Qed.

(** A loop that finds a request keeps the flag set. *)
Lemma processing_loop_turn tid w :
  processing (vars w) = true -> requestQueue (vars w) <> [] ->
  processing (vars (loop_turn tid w)) = true.
Proof.
  intros Hp Hq. unfold loop_turn.
  destruct (requestQueue (vars w)) as [|req rest]; [congruence|].
  cbv zeta. destruct (usable_socket _); [exact Hp|]. destruct (connecting _); exact Hp.
Qed.

(** However it is called, [processRequestQueue] leaves no request waiting
    with the flag cleared. *)
Lemma served_processRequestQueue w : queue_served (processRequestQueue w).
Proof.
  unfold processRequestQueue.
  destruct (processing (vars w)) eqn:Ep; simpl.
  - intros H. congruence.
  - destruct (requestQueue (vars w)) as [|req rest] eqn:Eq; simpl.
    + intros _. exact Eq.
    + intros H. rewrite processing_loop_turn in H; [discriminate|reflexivity|].
      simpl. rewrite Eq. discriminate.
Qed.

Lemma keeps_served_handleTunnelRequest cfg req w :
  keeps_served w (handleTunnelRequest cfg req w).
Proof.
  assert (Hpush : keeps_served w
            (let w' := on_vars (fun c => set_requestQueue (requestQueue c ++ [req]) c) w in
             if processing (vars w') then w' else processRequestQueue w')).
  { cbv zeta. cbn [on_vars vars processing set_requestQueue].
    destruct (processing (vars w)) eqn:Ep; intros _.
    - intros Hp. simpl in Hp. congruence.
    - apply served_processRequestQueue. }
  unfold handleTunnelRequest.
  destruct (app cfg && processing (vars w)), (localSocket (vars w)); try exact Hpush.
  kpeel.
Qed.

Lemma keeps_served_finalize tid s chunks cl after stuck w :
  (forall w', keeps_served w' (after w')) ->
  keeps_served w (cworld (finalize tid s chunks cl after stuck w)).
Proof.
  intros Hafter. unfold finalize, handleTunnelResponse.
  destruct (eofMarker (tunnel w)); [|apply keeps_served_refl].
  cbv zeta. destruct (ws _); simpl; [|kpeel].
  eapply keeps_served_trans; [|apply Hafter]. kpeel.
Qed.

Lemma keeps_served_on_timer tid w : keeps_served w (cworld (on_timer tid w)).
Proof.
  unfold on_timer. destruct (task_at tid w) as [| req | s chunks complete cl li | |];
    simpl; try apply keeps_served_refl.
  - destruct (usable_socket w); simpl; [apply keeps_served_begin_exchange|].
    destruct (connecting _); simpl; [apply keeps_served_refl|].
    eapply keeps_served_trans; [|apply keeps_served_loop_turn]. kpeel.
  - destruct complete; simpl; [apply keeps_served_loop_turn|].
    destruct (_ || _); simpl; [kpeel|].
    eapply keeps_served_trans; [|apply keeps_served_finalize].
    + kpeel.
    + apply keeps_served_loop_turn.
Qed.

Lemma keeps_served_onData s chunk tid w : keeps_served w (onData s chunk tid w).
Proof.
  unfold onData. destruct (task_at tid w) as [| | s' chunks complete cl [|] | |];
    try apply keeps_served_refl.
  destruct (Nat.eqb s' s); kpeel.
Qed.

Lemma keeps_served_onEnd s tid w : keeps_served w (cworld (onEnd s tid w)).
Proof.
  unfold onEnd. destruct (task_at tid w) as [| | s' chunks [|] cl [|] | |];
    simpl; try apply keeps_served_refl.
  destruct (Nat.eqb s' s); simpl; [|apply keeps_served_refl].
  eapply keeps_served_trans; [|apply keeps_served_finalize].
  - kpeel.
  - intros; apply keeps_served_refl.
Qed.

Lemma keeps_served_onError s tid w : keeps_served w (onError s tid w).
Proof.
  unfold onError. destruct (task_at tid w) as [| | s' chunks [|] cl [|] | |];
    try apply keeps_served_refl.
  destruct (Nat.eqb s' s); kpeel.
Qed.

Lemma keeps_served_resolve_connect s cur tid w :
  keeps_served w (resolve_connect s cur tid w).
Proof.
  unfold resolve_connect. destruct (task_at tid w); try apply keeps_served_refl.
  destruct (Nat.eqb _ _); [apply keeps_served_begin_exchange|apply keeps_served_refl].
Qed.

Lemma keeps_served_reject_connect s tid w :
  keeps_served w (reject_connect s tid w).
Proof.
  unfold reject_connect. destruct (task_at tid w); try apply keeps_served_refl.
  destruct (Nat.eqb _ _); [|apply keeps_served_refl].
  eapply keeps_served_trans; [|apply keeps_served_loop_turn]. kpeel.
Qed.

Lemma keeps_served_for_tasks (h : TaskId -> World -> World) w :
  (forall tid w, keeps_served w (h tid w)) -> keeps_served w (for_tasks h w).
Proof.
  intros Hh. unfold for_tasks. generalize (seq 0 (length (tasks (rt w)))).
  intros tids. revert w. induction tids as [|tid tids IH]; intros w; simpl.
  - apply keeps_served_refl.
  - eapply keeps_served_trans; [apply Hh|apply IH].
Qed.

Lemma keeps_served_for_tasks_c (h : TaskId -> World -> Completion) tids :
  (forall tid w, keeps_served w (cworld (h tid w))) ->
  forall w, keeps_served w (cworld (for_tasks_c h tids w)).
Proof.
  intros Hh. induction tids as [|tid tids IH]; intros w; simpl.
  - apply keeps_served_refl.
  - specialize (Hh tid w). destruct (h tid w) as [w'|e w']; simpl in *.
    + eapply keeps_served_trans; [apply Hh|apply IH].
    + exact Hh.
Qed.

Lemma keeps_served_settle w c :
  keeps_served w (cworld c) -> keeps_served w (settle c).
Proof.
  destruct c as [w'|e w']; simpl; [auto|].
  intros H. eapply keeps_served_trans; [apply H|]. kpeel.
Qed.

Lemma served_cleanup w : queue_served (cleanup w).
Proof. intros _. apply cleanup_releases. Qed.

Section Served.

Variable cfg : Config.
Variable JSON_parse : string -> option JsObj.
Variable Buffer_from : JsVal -> option bytes.

Lemma keeps_served_message_try wid req isBinary w :
  keeps_served w
    match message_try cfg JSON_parse Buffer_from wid req isBinary w with
    | Returned w' => w'
    | FellThrough w' => w'
    end.
Proof.
  unfold message_try. destruct isBinary; [apply keeps_served_refl|].
  cbv zeta. destruct (String.prefix _ _); [|apply keeps_served_refl].
  destruct (JSON_parse _) as [jsonData|]; [|kpeel].
  repeat match goal with
         | |- context [if ?b then _ else _] => destruct b
         | |- context [match Buffer_from ?v with _ => _ end] => destruct (Buffer_from v)
         end; kpeel.
Qed.

Lemma keeps_served_step ev w :
  keeps_served w (step cfg JSON_parse Buffer_from w ev).
Proof.
  destruct ev; cbn [step].
  - unfold on_ws_open. kpeel.
  - apply keeps_served_settle. unfold on_ws_message.
    destruct req as [|b req']; [apply keeps_served_refl|].
    pose proof (@keeps_served_message_try wid (b :: req') isBinary w) as H.
    destruct (message_try _ _ _ _ _ _ _) as [w'|w']; simpl; [exact H|].
    unfold suspend_or_forward.
    destruct (Buffer_indexOf _ _) as [i|]; simpl; [|exact H].
    destruct (negb _); simpl.
    + eapply keeps_served_trans; [exact H|]. kpeel.
    + eapply keeps_served_trans; [exact H|apply keeps_served_handleTunnelRequest].
  - intros _. unfold on_ws_close. cbv zeta.
    pose proof (@served_cleanup (log LTunnelClosed w)) as H.
    remember (cleanup (log LTunnelClosed w)) as W eqn:EW.
    destruct (_ <? _)%Z; exact H.
  - intros _. apply served_cleanup.
  - unfold on_ws_pong. kpeel.
  - unfold on_ping_tick. destruct (pingIntervalId _); [|kpeel]. destruct (alive _); kpeel.
  - unfold on_reconnect_timer. destruct (reconnectTimers _); [kpeel|].
    intros _. unfold connectToTunnel. cbv zeta.
    pose proof (@served_cleanup (on_rt (set_reconnectTimers n) w)) as H.
    remember (cleanup (on_rt (set_reconnectTimers n) w)) as W eqn:EW.
    destruct (_ <? _)%Z; exact H.
  - apply keeps_served_settle. unfold on_local_connect.
    destruct (mem _ _); [kpeel|]. destruct (localSocket _); [|kpeel]. simpl.
    eapply keeps_served_trans; [|apply keeps_served_for_tasks].
    + kpeel.
    + intros; apply keeps_served_resolve_connect.
  - unfold on_local_data. destruct (mem _ _); [kpeel|].
    apply keeps_served_for_tasks. intros; apply keeps_served_onData.
  - apply keeps_served_settle. unfold on_local_end. destruct (mem _ _); [kpeel|].
    apply keeps_served_for_tasks_c. intros; apply keeps_served_onEnd.
  - unfold on_local_error. destruct (mem _ _); [kpeel|]. cbv zeta.
    eapply keeps_served_trans; [|apply keeps_served_for_tasks].
    + eapply keeps_served_trans; [|apply keeps_served_for_tasks].
      * kpeel.
      * intros; apply keeps_served_onError.
    + intros; apply keeps_served_reject_connect.
  - unfold on_local_close. destruct (mem _ _); kpeel.
  - apply keeps_served_settle, keeps_served_on_timer.
  - intros _. unfold close. cbv zeta.
    pose proof (@served_cleanup w) as H.
    remember (cleanup w) as W eqn:EW.
    destruct (ws (tunnel W)); exact H.
  - unfold pause. destruct (ws _); kpeel.
  - unfold resume. destruct (ws _); kpeel.
Qed.

(** X10. In every state a tunnel can reach, requests wait in the queue only
    while the [processing] flag is set: a request that arrives when no loop
    is running starts one at once, and a loop clears the flag only on an
    empty queue. *)
Theorem queue_is_never_left_unserved (autoConnect : Z) (evs : list Event) :
  let w := run cfg JSON_parse Buffer_from evs (selfTunnel cfg autoConnect) in
  queue_served w
  /\ (requestQueue (vars w) <> [] -> processing (vars w) = true).
Proof.
  cbv zeta.
  assert (Hrun : forall evs w, queue_served w ->
                   queue_served (run cfg JSON_parse Buffer_from evs w)).
  { clear evs. induction evs as [|ev evs IH]; intros w Hw; [exact Hw|].
    apply (IH (step cfg JSON_parse Buffer_from w ev)). now apply keeps_served_step. }
  assert (H : queue_served (run cfg JSON_parse Buffer_from evs (selfTunnel cfg autoConnect))).
  { apply Hrun. unfold selfTunnel, connectToTunnel. cbv zeta. intros _.
    destruct (_ <? _)%Z; reflexivity. }
  split; [exact H|]. intros Hne.
  destruct (processing _) eqn:Ep; [reflexivity|]. specialize (H Ep). contradiction.
Qed.

End Served.

(** ** The local server is down *)

Section LocalDown.

Variable cfg : Config.
Variable JSON_parse : string -> option JsObj.
Variable Buffer_from : JsVal -> option bytes.
Variable wid : WsId.
Variable marker : bytes.
Variable t : Tunnel.
Variable st : list SockId.
Variable nw : WsId.
Variable rtm : nat.
Hypothesis Happ : app cfg = false.
Hypothesis Hmarker : suspendCommand t = Some marker.

#[local] Abbreviation step4 := (step cfg JSON_parse Buffer_from).
#[local] Abbreviation run4 := (run cfg JSON_parse Buffer_from).
#[local] Abbreviation serving4 := (serving_world t st nw rtm).
#[local] Abbreviation idle4 := (idle_world t st nw rtm).

Lemma refused_connections : forall q r s ls d o,
  (forall s', s <= s' -> mem s' st = false) ->
  let w := run4 (refusal_events s (S (length q)))
             (serving4 ls q true d (S s) (TAwaitConnect r s) (o ++ [ENetConnect s])) in
  out (rt w) = o ++ refusal_trace s (S (length q))
  /\ requestQueue (vars w) = []
  /\ processing (vars w) = false
  /\ localSocket (vars w) = None.
Proof.
  induction q as [|r' q IH]; intros r s ls d o Hst; cbv zeta.
  - simpl. unfold on_local_error. simpl. rewrite (Hst s (Nat.le_refl _)).
    unfold for_tasks. simpl. unfold onError, reject_connect, task_at. simpl.
    rewrite Nat.eqb_refl. unfold loop_turn. simpl.
    unfold on_local_close. simpl. rewrite (Hst s (Nat.le_refl _)). simpl.
    repeat split. now rewrite <- !app_assoc.
  - cbn [length]. unfold refusal_events. rewrite <- cons_seq. cbn [flat_map Datatypes.app].
    rewrite (run_cons cfg JSON_parse Buffer_from (LocalError s)).
    rewrite (run_cons cfg JSON_parse Buffer_from (LocalClose s)).
    assert (Hstep :
      step4 (step4 (serving4 ls (r' :: q) true d (S s) (TAwaitConnect r s)
                      (o ++ [ENetConnect s])) (LocalError s)) (LocalClose s)
      = serving4 None q true (s :: s :: d) (S (S s)) (TAwaitConnect r' (S s))
          ((o ++ [ENetConnect s; ELog LLocalSocketError; ELog LErrorProcessingRequest])
           ++ [ENetConnect (S s)])).
    { simpl. unfold on_local_error. simpl. rewrite (Hst s (Nat.le_refl _)).
      unfold for_tasks. simpl. unfold onError, reject_connect, task_at. simpl.
      rewrite Nat.eqb_refl. unfold loop_turn, usable_socket. simpl.
      unfold on_local_close. simpl. rewrite (Hst s (Nat.le_refl _)).
      unfold set_task, emit, on_vars, on_rt, serving_world. simpl.
      rewrite <- !app_assoc. reflexivity. }
    rewrite Hstep.
    destruct (@IH r' (S s) None (s :: s :: d)
                (o ++ [ENetConnect s; ELog LLocalSocketError; ELog LErrorProcessingRequest]))
      as (Ho & Hq & Hp & Hl).
    { intros s' Hs'. apply Hst. lia. }
    cbv zeta in Ho, Hq, Hp, Hl. unfold refusal_events in Ho, Hq, Hp, Hl.
    rewrite Ho, Hq, Hp, Hl.
    repeat split. rewrite <- app_assoc. reflexivity.
Qed.

Lemma local_server_down_run d fresh o rs :
  Forall (fun r => r <> [] /\ ~ occurs_in marker r) rs ->
  (forall s, fresh <= s -> mem s st = false) ->
  let w := run4 (map (fun r => WsMessage wid r true) rs
                 ++ refusal_events fresh (length rs))
             (idle4 None d fresh o) in
  out (rt w) = o ++ refusal_trace fresh (length rs)
  /\ requestQueue (vars w) = []
  /\ processing (vars w) = false
  /\ localSocket (vars w) = None.
Proof.
  intros Hrs Hst. cbv zeta. destruct rs as [|r rs].
  - simpl. rewrite app_nil_r. auto.
  - inversion Hrs as [|? ? [Hne Hno] Hrs']; subst.
    rewrite run_app. cbn [map].
    rewrite (run_cons cfg JSON_parse Buffer_from (WsMessage wid r true)).
    rewrite (@first_arrival cfg JSON_parse Buffer_from wid marker t st nw rtm
               Happ Hmarker d fresh o r Hne Hno).
    pose proof (@arrivals_run cfg JSON_parse Buffer_from wid marker t st nw rtm
                  Happ Hmarker (Some fresh) true d (S fresh) (TAwaitConnect r fresh)
                  (o ++ [ENetConnect fresh]) rs [] Hrs') as Ha.
    unfold bytes, SockId in *. rewrite Ha.
    rewrite app_nil_l. cbn [length].
    apply (@refused_connections rs r fresh (Some fresh) d o Hst).
Qed.

End LocalDown.

(** X11. When the local server refuses every connection, each of the requests
    R1..Rn that arrive on an idle session while the first connection attempt
    is in progress costs one connection attempt and is then given up: the
    trace shows, n times over, a connect, the socket error and the processing
    error, and nothing else; no request is written anywhere and no response,
    not even an error, is sent to the relay.  Afterwards the queue is empty
    and the loop has stopped.  Each refused socket reports its error and then
    its close; the close comes when the loop has already opened the next
    socket, and all it does is to clear [localSocket], which by then holds
    that next socket. *)
Theorem refused_requests_are_given_up
    (cfg : Config) (JSON_parse : string -> option JsObj)
    (Buffer_from : JsVal -> option bytes)
    (wid : WsId) (marker eof : bytes) (w0 : World) (rs : list bytes)
    (Happ : app cfg = false)
    (Hready : ready wid marker eof w0)
    (Hnone : localSocket (vars w0) = None)
    (Hrs : Forall (fun r => r <> [] /\ ~ occurs_in marker r) rs) :
  let w := run cfg JSON_parse Buffer_from
             (map (fun r => WsMessage wid r true) rs
              ++ refusal_events (nextSock (rt w0)) (length rs)) w0 in
  out (rt w) = out (rt w0) ++ refusal_trace (nextSock (rt w0)) (length rs)
  /\ exchange_log (out (rt w)) = exchange_log (out (rt w0))
  /\ requestQueue (vars w) = []
  /\ processing (vars w) = false.
Proof.
  cbv zeta.
  destruct Hready as ((Hws & Hmarker & Heof) & (Hq & Hc & Hp & Ht) & _ & Hfresh).
  destruct w0 as [t [ls q conn proc] [d st ns nws tk rtm o]].
  simpl in Hws, Hmarker, Heof, Hnone, Hq, Hc, Hp, Ht, Hfresh. subst.
  assert (Hst : forall s, ns <= s -> mem s st = false) by (intros s Hs; now apply Hfresh).
  destruct (@local_server_down_run cfg JSON_parse Buffer_from wid marker t st nws rtm
              Happ Hmarker d ns o rs Hrs Hst) as (Ho & Hq & Hp & _).
  cbv zeta in Ho, Hq, Hp.
  split; [exact Ho|]. split; [|split; [exact Hq|exact Hp]].
  etransitivity; [exact (f_equal exchange_log Ho)|]. rewrite exchange_log_app.
  assert (Hnil : forall n s, exchange_log (refusal_trace s n) = []).
  { induction n as [|n IH]; intros s; [reflexivity|]. simpl. apply IH. }
  now rewrite Hnil, app_nil_r.
Qed.

Lemma fixture_ready :
  ready 0 (Fixture.frame "S") (Fixture.frame "E") (Fixture.handshaken false).
Proof.
  split; [|split; [|split]].
  - vm_compute. auto.
  - vm_compute. auto.
  - vm_compute. exact I.
  - intros s _. split; vm_compute; reflexivity.
Defined.

Lemma fixture_request (r : bytes) :
  index_from 0 r (Fixture.frame "S") = (-1)%Z -> ~ occurs_in (Fixture.frame "S") r.
Proof.
  intros Hr Ho. apply (@index_from_found r (Fixture.frame "S") 0 (Z.le_refl 0)) in Ho.
  contradiction.
Defined.

Lemma refused_requests_are_given_up_witness :
  out (rt (run (Fixture.config false) Fixture.parse Fixture.from
             [WsMessage 0 (Fixture.frame "R1") true; WsMessage 0 (Fixture.frame "R2") true;
              LocalError 0; LocalClose 0; LocalError 1; LocalClose 1]
             (Fixture.handshaken false)))
  = out (rt (Fixture.handshaken false))
    ++ [ENetConnect 0; ELog LLocalSocketError; ELog LErrorProcessingRequest;
        ENetConnect 1; ELog LLocalSocketError; ELog LErrorProcessingRequest].
Proof.
  assert (Hrs : Forall (fun r : bytes => r <> [] /\ ~ occurs_in (Fixture.frame "S") r)
                  [Fixture.frame "R1"; Fixture.frame "R2"]).
  { repeat constructor; try (vm_compute; discriminate);
      apply fixture_request; vm_compute; reflexivity. }
  destruct (@refused_requests_are_given_up (Fixture.config false) Fixture.parse Fixture.from
              0 (Fixture.frame "S") (Fixture.frame "E") (Fixture.handshaken false)
              [Fixture.frame "R1"; Fixture.frame "R2"] eq_refl fixture_ready eq_refl Hrs)
    as (H & _).
  exact H.
Defined.

(** Rewrites with an equation whose statement may spell the identifier
    types differently from the goal. *)
Ltac rewrite_alias H :=
  let H' := fresh "Halias" in
  pose proof H as H'; unfold bytes, SockId, WsId, TaskId in *; rewrite H'; clear H'.

(** ** Waiting for the local server *)

Section Waiting.

Variable cfg : Config.
Variable JSON_parse : string -> option JsObj.
Variable Buffer_from : JsVal -> option bytes.
Variable wid : WsId.
Variables marker eof : bytes.
Variable t : Tunnel.
Variable st : list SockId.
Variable nw : WsId.
Variable rtm : nat.
Hypothesis Happ : app cfg = false.
Hypothesis Hws : ws t = Some wid.
Hypothesis Heof : eofMarker t = Some eof.
Hypothesis Hmarker : suspendCommand t = Some marker.

#[local] Abbreviation step5 := (step cfg JSON_parse Buffer_from).
#[local] Abbreviation run5 := (run cfg JSON_parse Buffer_from).
#[local] Abbreviation serving5 := (serving_world t st nw rtm).
#[local] Abbreviation answered5 := (answered_world t st nw rtm wid eof).

(** The trace of a run of exchanges, effect by effect. *)
Lemma script_out : forall xs x cur fresh d o,
  cur < fresh ->
  mem cur d = false ->
  mem cur st = false ->
  (forall s, fresh <= s -> mem s d = false /\ mem s st = false) ->
  out (rt (run5 (script cur fresh (x :: xs))
             (serving5 (Some cur) (map request xs) false d fresh
                (TAwaitResponse cur [] false 0 true) o)))
  = o ++ script_trace wid eof cur fresh x xs.
Proof.
  induction xs as [|y ys IH]; intros x cur fresh d o Hlt Hd Hst Hfresh.
  - cbn [script map script_trace].
    destruct (@exchange_run cfg JSON_parse Buffer_from wid eof t st nw rtm Hws Heof
                cur [] d fresh o Hst x) as (cl & Hrun).
    assert (Hend : forall ls d',
               out (rt (loop_turn 0 (answered5 ls [] d' fresh cur (response_chunks x) cl o)))
               = o ++ [EWsSendBinary wid (Buffer_concat (response_chunks x) ++ eof)]).
    { intros ls d'. reflexivity. }
    destruct (finish x); rewrite app_nil_r, Hrun; apply Hend.
  - rewrite (script_cons cur fresh x (y :: ys)). cbn [map script_trace].
    rewrite (run_app cfg JSON_parse Buffer_from).
    destruct (@exchange_run cfg JSON_parse Buffer_from wid eof t st nw rtm Hws Heof
                cur (request y :: map request ys) d fresh o Hst x) as (cl & ->).
    destruct (finish x) as [last|tail]; cbv beta iota.
    + assert (Hturn : loop_turn 0
                        (answered5 (Some cur) (request y :: map request ys) d fresh cur
                           (response_chunks x) cl o)
                      = serving5 (Some cur) (map request ys) false d fresh
                          (TAwaitResponse cur [] false 0 true)
                          ((o ++ [EWsSendBinary wid (Buffer_concat (response_chunks x) ++ eof)])
                           ++ [ELocalWrite cur (request y)])).
      { unfold loop_turn, answered_world, serving_world, usable_socket. simpl.
        rewrite Hd. reflexivity. }
      rewrite Hturn, (IH y cur fresh d _ Hlt Hd Hst Hfresh).
      rewrite <- !app_assoc. reflexivity.
    + destruct (Hfresh fresh (Nat.le_refl _)) as [Hfd Hfst].
      assert (Hturn : step5
                        (loop_turn 0
                           (answered5 None (request y :: map request ys) (cur :: d) fresh cur
                              (response_chunks x) cl o))
                        (LocalConnect fresh)
                      = serving5 (Some fresh) (map request ys) false (cur :: d) (S fresh)
                          (TAwaitResponse fresh [] false 0 true)
                          ((o ++ [EWsSendBinary wid (Buffer_concat (response_chunks x) ++ eof)])
                           ++ [ENetConnect fresh; ELocalWrite fresh (request y)])).
      { unfold loop_turn, answered_world, serving_world, usable_socket. simpl.
        unfold on_local_connect. simpl. rewrite Hfst. simpl.
        unfold for_tasks. simpl. unfold resolve_connect, task_at. simpl.
        rewrite Nat.eqb_refl. simpl.
        unfold begin_exchange, set_task, emit, on_vars, on_rt. simpl.
        rewrite <- !app_assoc. reflexivity. }
      rewrite (run_cons cfg JSON_parse Buffer_from (LocalConnect fresh)). rewrite Hturn.
      assert (Hfresh' : forall s, S fresh <= s -> mem s (cur :: d) = false /\ mem s st = false).
      { intros s Hs. destruct (Hfresh s) as [A B]; [lia|]. split; [|exact B].
        rewrite mem_cons, A. replace (Nat.eqb s cur) with false; [reflexivity|].
        symmetry. apply Nat.eqb_neq. lia. }
      assert (Hd' : mem fresh (cur :: d) = false).
      { rewrite mem_cons, Hfd. replace (Nat.eqb fresh cur) with false; [reflexivity|].
        symmetry. apply Nat.eqb_neq. lia. }
      rewrite (IH y fresh (S fresh) (cur :: d) _ (Nat.lt_succ_diag_r _) Hd' Hfst Hfresh').
      rewrite <- !app_assoc. reflexivity.
Qed.

Lemma session_out ls d fresh o early gaps xs :
  Forall (fun x => request x <> [] /\ ~ occurs_in marker (request x)) xs ->
  match ls with
  | Some s => s < fresh /\ mem s d = false /\ mem s st = false
  | None => True
  end ->
  (forall s, fresh <= s -> mem s d = false /\ mem s st = false) ->
  out (rt (run5 (session_events wid ls fresh early gaps xs)
             (idle_world t st nw rtm ls d fresh o)))
  = o ++ session_trace wid eof ls fresh xs.
Proof.
  intros Hreqs Hls Hfresh. destruct xs as [|x xs].
  - simpl. destruct ls; now rewrite app_nil_r.
  - unfold session_events, session_trace.
    rewrite (run_app cfg JSON_parse Buffer_from).
    destruct (Hfresh fresh (Nat.le_refl _)) as [Hfd Hfst].
    destruct ls as [s|].
    + destruct Hls as (Hlt & Hd & Hst).
      rewrite_alias (@arrival_run cfg JSON_parse Buffer_from wid marker t st nw rtm
                       Happ Hmarker (Some s) d fresh o early gaps x xs Hreqs Hd).
      rewrite_alias (@script_out xs x s fresh d (o ++ [ELocalWrite s (request x)])
                       Hlt Hd Hst Hfresh).
      rewrite <- app_assoc. reflexivity.
    + rewrite_alias (@arrival_run cfg JSON_parse Buffer_from wid marker t st nw rtm
                       Happ Hmarker None d fresh o early gaps x xs Hreqs Hfst).
      assert (Hfresh' : forall s, S fresh <= s -> mem s d = false /\ mem s st = false)
        by (intros s Hs; apply Hfresh; lia).
      rewrite_alias (@script_out xs x fresh (S fresh) d
                       ((o ++ [ENetConnect fresh]) ++ [ELocalWrite fresh (request x)])
                       (Nat.lt_succ_diag_r fresh) Hfd Hfst Hfresh').
      rewrite <- !app_assoc. reflexivity.
Qed.

End Waiting.

(** X12. A response that never starts blocks the queue for good: while the
    loop waits for the first chunk of a response, polls change nothing and
    every request that arrives is only appended to the queue, however many
    polls and requests there are; nothing is written, nothing is sent, and
    the loop has no timeout of its own. *)
Theorem silent_server_blocks_the_queue
    (cfg : Config) (JSON_parse : string -> option JsObj)
    (Buffer_from : JsVal -> option bytes)
    (wid : WsId) (marker : bytes) (w : World) (s : SockId) (listening : bool)
    (evs : list Event)
    (Happ : app cfg = false)
    (Hmarker : suspendCommand (tunnel w) = Some marker)
    (Htask : tasks (rt w) = [TAwaitResponse s [] false 0 listening])
    (Hprocessing : processing (vars w) = true)
    (Hevs : Forall (waiting_event wid marker) evs) :
  run cfg JSON_parse Buffer_from evs w
  = on_vars (set_requestQueue (requestQueue (vars w) ++ arrivals_of evs)) w.
Proof.
  destruct w as [t [ls q conn proc] [d st ns nws tk rtm o]].
  simpl in Hmarker, Htask, Hprocessing. subst.
  exact (@waiting_run cfg JSON_parse Buffer_from wid marker t st nws rtm Happ Hmarker
           ls conn d ns s listening o evs q Hevs).
Qed.

(** X13. The loop takes a response for complete as soon as a poll finds no
    new chunk since the poll before.  It then sends what it has, with the
    marker, and stops listening.  A chunk of that response that comes later
    is lost when the queue is empty, and when a request is waiting, that
    request is written to the same socket at once and the late chunk is sent
    to the relay as the response to it (after which the loop goes on to the
    request behind it). *)
Theorem quiet_poll_cuts_the_response
    (cfg : Config) (JSON_parse : string -> option JsObj)
    (Buffer_from : JsVal -> option bytes)
    (wid : WsId) (eof : bytes) (w : World) (s : SockId)
    (chunks : list bytes) (late : bytes)
    (Hws : ws (tunnel w) = Some wid)
    (Heof : eofMarker (tunnel w) = Some eof)
    (Htask : tasks (rt w) = [TAwaitResponse s chunks false (length chunks) true])
    (Hchunks : chunks <> [])
    (Hsocket : localSocket (vars w) = Some s)
    (Halive : mem s (destroyed (rt w)) = false)
    (Hlistening : mem s (stripped (rt w)) = false) :
  let response := Buffer_concat chunks ++ eof in
  let w1 := step cfg JSON_parse Buffer_from w (Timer 0) in
  match requestQueue (vars w) with
  | [] =>
      out (rt w1) = out (rt w) ++ [EWsSendBinary wid response]
      /\ processing (vars w1) = false
      /\ step cfg JSON_parse Buffer_from w1 (LocalData s late) = w1
  | next :: rest =>
      out (rt w1) = out (rt w) ++ [EWsSendBinary wid response; ELocalWrite s next]
      /\ out (rt (run cfg JSON_parse Buffer_from
                    [LocalData s late; Timer 0; Timer 0] w1))
         = out (rt w1) ++ EWsSendBinary wid (late ++ eof)
                          :: match rest with
                             | [] => []
                             | after :: _ => [ELocalWrite s after]
                             end
  end.
Proof.
  destruct w as [[sc em pid ip wsf al aci] [ls q conn proc] [d st ns nws tk rtm o]].
  simpl in Hws, Heof, Htask, Hsocket, Halive, Hlistening. subst.
  assert (Hlen : Nat.eqb (length chunks) 0 = false).
  { apply Nat.eqb_neq. destruct chunks; [congruence|simpl; lia]. }
  cbv zeta. cbn [step]. unfold on_timer, task_at. simpl.
  rewrite Hlen, Nat.eqb_refl. simpl. unfold finalize, handleTunnelResponse. simpl.
  destruct q as [|next rest]; unfold loop_turn, usable_socket; simpl.
  - rewrite Buffer_concat_snoc. repeat split.
    unfold on_local_data. simpl. rewrite Hlistening. reflexivity.
  - rewrite Halive. simpl. rewrite Buffer_concat_snoc. split.
    + now rewrite <- app_assoc.
    + unfold run. simpl. unfold on_local_data. simpl. rewrite Hlistening.
      unfold for_tasks. simpl. unfold onData, task_at. simpl. rewrite Nat.eqb_refl.
      simpl. unfold on_timer, task_at. simpl. unfold finalize, handleTunnelResponse.
      simpl. unfold loop_turn, usable_socket. simpl.
      destruct rest; simpl; rewrite ?Halive; simpl; rewrite app_nil_r;
        rewrite <- ?app_assoc; reflexivity.
Qed.

Lemma silent_server_blocks_the_queue_witness :
  requestQueue
    (vars (run (Fixture.config false) Fixture.parse Fixture.from
             [Timer 0; WsMessage 0 (Fixture.frame "R2") true; Timer 0;
              WsMessage 0 (Fixture.frame "R3") true; Timer 0]
             request_written))
  = [Fixture.frame "R2"; Fixture.frame "R3"].
Proof.
  assert (Hevs : Forall (waiting_event 0 (Fixture.frame "S"))
                   [Timer 0; WsMessage 0 (Fixture.frame "R2") true; Timer 0;
                    WsMessage 0 (Fixture.frame "R3") true; Timer 0]).
  { repeat (apply Forall_cons;
              [ first [ left; reflexivity
                      | right; eexists; split; [reflexivity|]; split;
                        [vm_compute; discriminate
                        |apply fixture_request; vm_compute; reflexivity] ] |]).
    apply Forall_nil. }
  rewrite (@silent_server_blocks_the_queue (Fixture.config false) Fixture.parse Fixture.from
             0 (Fixture.frame "S") request_written 0 true _ eq_refl eq_refl eq_refl eq_refl
             Hevs).
  reflexivity.
Defined.

Lemma quiet_poll_cuts_the_response_witness :
  out (rt (step (Fixture.config false) Fixture.parse Fixture.from chunk_polled (Timer 0)))
  = out (rt chunk_polled) ++ [EWsSendBinary 0 (Fixture.frame "aE")].
Proof.
  assert (Hchunks : [Fixture.frame "a"] <> []) by discriminate.
  pose proof (@quiet_poll_cuts_the_response (Fixture.config false) Fixture.parse
                Fixture.from 0 (Fixture.frame "E") chunk_polled 0 [Fixture.frame "a"]
                (Fixture.frame "late") eq_refl eq_refl eq_refl Hchunks eq_refl eq_refl
                eq_refl) as H.
  cbv zeta in H.
  change (requestQueue (vars chunk_polled)) with (@nil bytes) in H.
  cbv iota in H. destruct H as (H & _). exact H.
Defined.

(** ** An exchange that outlives the session *)

Lemma orphaned_polls w s chunks cl listening :
  tasks (rt w) = [TAwaitResponse s chunks false cl listening] ->
  chunks <> [] ->
  ws (tunnel w) = None ->
  forall cfg JSON_parse Buffer_from,
  out (rt (run cfg JSON_parse Buffer_from [Timer 0; Timer 0] w))
  = out (rt w)
    ++ [EUncaught match eofMarker (tunnel w) with
                  | Some _ => TypeError_ws_null
                  | None => TypeError_concat_null
                  end].
Proof.
  intros Htask Hchunks Hws cfg JSON_parse Buffer_from.
  destruct w as [[sc em pid ip wsf al aci] [ls q conn proc] [d st ns nws tk rtm o]].
  simpl in Htask, Hws. subst.
  assert (Hlen : Nat.eqb (length chunks) 0 = false).
  { apply Nat.eqb_neq. destruct chunks; [congruence|simpl; lia]. }
  unfold run. cbn [fold_left step]. unfold on_timer at 2. unfold task_at. simpl.
  destruct (Nat.eqb cl 0 || negb (Nat.eqb cl (length chunks))) eqn:Ecl; simpl.
  - unfold on_timer, task_at. simpl. rewrite Hlen, Nat.eqb_refl. simpl.
    unfold finalize, handleTunnelResponse. simpl. destruct em; reflexivity.
  - unfold finalize, handleTunnelResponse. simpl. destruct em; reflexivity.
Qed.

(** X14. The poll timer of an exchange is not stopped when the tunnel is
    closed or the relay connection drops.  If the exchange has received data
    by then, one of its next two polls takes the response for complete and
    tries to send it: after [close()] the relay socket handle is null, after
    a transport close the end-of-response marker is null as well, and in
    both cases an exception leaves the timer callback uncaught. *)
Theorem closing_during_an_exchange_throws
    (cfg : Config) (JSON_parse : string -> option JsObj)
    (Buffer_from : JsVal -> option bytes)
    (wid : WsId) (w : World) (s : SockId) (chunks : list bytes) (chunksLast : nat)
    (listening : bool)
    (Htask : tasks (rt w) = [TAwaitResponse s chunks false chunksLast listening])
    (Hchunks : chunks <> []) :
  out (rt (run cfg JSON_parse Buffer_from [CallClose; Timer 0; Timer 0] w))
  = out (rt (close w))
    ++ [EUncaught match eofMarker (tunnel w) with
                  | Some _ => TypeError_ws_null
                  | None => TypeError_concat_null
                  end]
  /\ out (rt (run cfg JSON_parse Buffer_from [WsClose wid; Timer 0; Timer 0] w))
     = out (rt (on_ws_close wid w)) ++ [EUncaught TypeError_concat_null].
Proof.
  split.
  - rewrite (run_cons cfg JSON_parse Buffer_from CallClose). cbn [step].
    assert (Ht : tasks (rt (close w)) = tasks (rt w)).
    { unfold close. cbv zeta. destruct (cleanup_keeps w) as (_ & _ & _ & _ & _ & Ht).
      destruct (ws (tunnel (cleanup w))); exact Ht. }
    assert (He : eofMarker (tunnel (close w)) = eofMarker (tunnel w)).
    { unfold close. cbv zeta. destruct (cleanup_keeps w) as (_ & He & _).
      destruct (ws (tunnel (cleanup w))); exact He. }
    rewrite <- He.
    exact (@orphaned_polls (close w) s chunks chunksLast listening
             (eq_trans Ht Htask) Hchunks (ws_close w) cfg JSON_parse Buffer_from).
  - rewrite (run_cons cfg JSON_parse Buffer_from (WsClose wid)). cbn [step].
    assert (H : tasks (rt (on_ws_close wid w)) = tasks (rt w)
                /\ eofMarker (tunnel (on_ws_close wid w)) = None
                /\ ws (tunnel (on_ws_close wid w)) = None).
    { unfold on_ws_close. cbv zeta.
      destruct (cleanup_keeps (log LTunnelClosed w)) as (_ & _ & _ & _ & _ & Ht).
      destruct (_ <? _)%Z; simpl; auto. }
    destruct H as (Ht & He & Hw).
    rewrite (@orphaned_polls (on_ws_close wid w) s chunks chunksLast listening
               (eq_trans Ht Htask) Hchunks Hw cfg JSON_parse Buffer_from).
    now rewrite He.
Qed.

(** ** The trace of a session of exchanges *)

Lemma count_script_trace wid eof : forall xs x cur fresh,
  length (filter is_net_connect (script_trace wid eof cur fresh x xs))
  = reconnects_needed (x :: xs).
Proof.
  induction xs as [|y ys IH]; intros x cur fresh.
  - simpl. destruct (finish x); reflexivity.
  - cbn [script_trace reconnects_needed]. destruct (finish x); simpl.
    + rewrite IH. reflexivity.
    + rewrite IH. reflexivity.
Qed.

(** X15. In the setting of the FIFO law (no app, requests R1..Rn arriving on
    an idle session before the local server has answered anything, whether
    during the connect or between the polls for the first chunk) the whole
    trace is determined and does not depend on the times of arrival: each
    request is written, then its response is sent, then the next request is
    written.  The loop keeps one local connection as long as the server
    keeps it open: it connects once when it has no live socket, and again
    only after an exchange that ended with the end of the stream and has a
    request behind it. *)
Theorem local_connection_is_reused
    (cfg : Config) (JSON_parse : string -> option JsObj)
    (Buffer_from : JsVal -> option bytes)
    (wid : WsId) (marker eof : bytes) (w0 : World) (xs : list Exchange)
    (early : nat) (gaps : list nat)
    (Happ : app cfg = false)
    (Hready : ready wid marker eof w0)
    (Hreqs : Forall (fun x => request x <> [] /\ ~ occurs_in marker (request x)) xs) :
  let w := run cfg JSON_parse Buffer_from
             (session_events wid (localSocket (vars w0)) (nextSock (rt w0)) early gaps xs)
             w0 in
  out (rt w)
  = out (rt w0) ++ session_trace wid eof (localSocket (vars w0)) (nextSock (rt w0)) xs
  /\ count_effects is_net_connect w
     = count_effects is_net_connect w0
       + match xs, localSocket (vars w0) with
         | _ :: _, None => 1
         | _, _ => 0
         end
       + reconnects_needed xs.
Proof.
  cbv zeta.
  assert (Hout : out (rt (run cfg JSON_parse Buffer_from
                            (session_events wid (localSocket (vars w0)) (nextSock (rt w0))
                               early gaps xs)
                            w0))
                 = out (rt w0)
                   ++ session_trace wid eof (localSocket (vars w0)) (nextSock (rt w0)) xs).
  { destruct Hready as ((Hws & Hmarker & Heof) & (Hq & Hc & Hp & Ht) & Hls & Hfresh).
    destruct w0 as [t [ls q conn proc] [d st ns nws tk rtm o]].
    simpl in Hws, Hmarker, Heof, Hls, Hq, Hc, Hp, Ht, Hfresh. subst.
    exact (@session_out cfg JSON_parse Buffer_from wid marker eof t st nws rtm
             Happ Hws Heof Hmarker ls d ns o early gaps xs Hreqs Hls Hfresh). }
  split; [exact Hout|].
  unfold count_effects. rewrite Hout, filter_app, length_app.
  rewrite <- Nat.add_assoc. f_equal.
  unfold session_trace. destruct xs as [|x xs']; [destruct (localSocket _); reflexivity|].
  destruct (localSocket (vars w0)); simpl; now rewrite count_script_trace.
Qed.

Lemma closing_during_an_exchange_throws_witness :
  out (rt (run (Fixture.config false) Fixture.parse Fixture.from
             [CallClose; Timer 0; Timer 0] chunk_polled))
  = out (rt (close chunk_polled)) ++ [EUncaught TypeError_ws_null].
Proof.
  assert (Hchunks : [Fixture.frame "a"] <> []) by discriminate.
  destruct (@closing_during_an_exchange_throws (Fixture.config false) Fixture.parse
              Fixture.from 0 chunk_polled 0 [Fixture.frame "a"] 1 true eq_refl Hchunks)
    as (H & _).
  exact H.
Defined.

Lemma local_connection_is_reused_witness :
  let xs := [ {| request := Fixture.frame "R1"; idle_polls := 2;
                 bursts := [(Fixture.frame "a", [Fixture.frame "b"])];
                 finish := Quiet (Fixture.frame "c", []) |};
              {| request := Fixture.frame "R2"; idle_polls := 0; bursts := [];
                 finish := EndOfStream [Fixture.frame "d"] |};
              {| request := Fixture.frame "R3"; idle_polls := 1; bursts := [];
                 finish := Quiet (Fixture.frame "e", [Fixture.frame "f"]) |} ] in
  count_effects is_net_connect
    (run (Fixture.config false) Fixture.parse Fixture.from
       (session_events 0 None 0 0 [1; 3] xs) (Fixture.handshaken false))
  = 2.
Proof.
  cbv zeta.
  set (xs := [ {| request := Fixture.frame "R1"; idle_polls := 2;
                  bursts := [(Fixture.frame "a", [Fixture.frame "b"])];
                  finish := Quiet (Fixture.frame "c", []) |};
               {| request := Fixture.frame "R2"; idle_polls := 0; bursts := [];
                  finish := EndOfStream [Fixture.frame "d"] |};
               {| request := Fixture.frame "R3"; idle_polls := 1; bursts := [];
                  finish := Quiet (Fixture.frame "e", [Fixture.frame "f"]) |} ]).
  assert (Hreqs : Forall (fun x => request x <> []
                                   /\ ~ occurs_in (Fixture.frame "S") (request x)) xs).
  { repeat constructor; try (vm_compute; discriminate);
      apply fixture_request; vm_compute; reflexivity. }
  destruct (@local_connection_is_reused (Fixture.config false) Fixture.parse Fixture.from 0
              (Fixture.frame "S") (Fixture.frame "E") (Fixture.handshaken false) xs
              0 [1; 3] eq_refl fixture_ready Hreqs) as (_ & H).
  change (localSocket (vars (Fixture.handshaken false))) with (@None SockId) in H.
  change (nextSock (rt (Fixture.handshaken false))) with 0 in H.
  rewrite H. reflexivity.
Defined.

(** ** Options *)

Lemma or_number_spec (a : option Z) (d : Z) :
  or_number a d = match a with
                  | Some n => if Z.eqb n 0 then d else n
                  | None => d
                  end.
Proof. reflexivity. Qed.

(** X16. How the two timer options are read.  [pingInterval] goes through
    [||], so a missing value and 0 both give 50000 and the heartbeat runs:
    the tunnel is built without ping timer exactly when the option is a
    number other than 0 that is at most 1000.  [autoConnectInterval] is
    replaced only when undefined, so 0 is kept: the first transport close of
    the new tunnel arms no reconnect exactly when the option is a number of
    at most 10000. *)
Theorem timer_options_disable
    (options : Options) (env : Env) (withApp : bool) :
  let cfg := configure options env withApp in
  let w := selfTunnel_with options env withApp in
  (pingIntervalId (tunnel w) = None
   <-> exists n, opt_pingInterval options = Some n /\ n <> 0%Z /\ (n <= 1000)%Z)
  /\ forall JSON_parse Buffer_from wid,
       scheduled (step cfg JSON_parse Buffer_from w (WsClose wid)) = 0
       <-> exists n, opt_autoConnectInterval options = Some n /\ (n <= 10000)%Z.
Proof.
  cbv zeta. split.
  - unfold selfTunnel_with, selfTunnel, connectToTunnel. cbv zeta.
    cbn [configure pingInterval]. rewrite or_number_spec.
    destruct (opt_pingInterval options) as [n|].
    + destruct (Z.eqb_spec n 0) as [->|Hn].
      * simpl. split; [discriminate|]. intros (n & [= <-] & Hn & _). congruence.
      * destruct (Z.ltb_spec 1000 n) as [Hlt|Hle]; simpl.
        -- split; [discriminate|]. intros (m & [= <-] & _ & Hm). lia.
        -- split; [|reflexivity]. intros _. exists n. auto.
    + simpl. split; [discriminate|]. intros (n & [=] & _).
  - intros JSON_parse Buffer_from wid. cbn [step].
    unfold selfTunnel_with, selfTunnel, initial_autoConnectInterval.
    set (a := match opt_autoConnectInterval options with Some n => n | None => 30000%Z end).
    assert (Hs : scheduled (on_ws_close wid
                   (connectToTunnel (configure options env withApp) (fresh a)))
                 = if (10000 <? a)%Z then 1 else 0).
    { unfold on_ws_close, connectToTunnel, scheduled. cbv zeta.
      destruct (1000 <? pingInterval _)%Z; simpl; destruct (10000 <? a)%Z; reflexivity. }
    rewrite Hs. subst a.
    destruct (opt_autoConnectInterval options) as [n|].
    + destruct (Z.ltb_spec 10000 n) as [Hlt|Hle].
      * split; [discriminate|]. intros (m & [= <-] & Hm). lia.
      * split; [|reflexivity]. intros _. exists n. auto.
    + simpl. split; [discriminate|]. intros (n & [=] & _).
Qed.
